(** * Agentic data analyst: the pipeline contract, in Rocq

    A shallow embedding of the orchestration and data-contract layer of the
    repository (agents/schema_agent.py, agents/profile_agent.py,
    agents/quality_agent.py, agents/ml_advisor_agent.py,
    agents/deployment_agent.py, agents/business_communication_agent.py,
    agents/po_agent.py, agents/supervisor.py), followed by the properties
    of it that the specification states.

    Modelling conventions.
    - A [float] is a double (binary64): NaN, an infinity, or a rational that
      the format holds; an operation on the values of a column gives the
      exact result rounded to the nearest double, ties to even. The sign of
      a zero is not kept. The null percentage of the schema agent is
      computed in this arithmetic, as Python evaluates its expression. The
      percentages that the quality agent derives from two counts are kept
      as exact rationals.
    - A DataFrame is what [pd.read_csv] gives: named columns over rows of
      cells, a cell being missing, a number, a truth value or a string; the
      dtype of a column is inferred from its cells. The pandas operations
      that the agents call ([isnull], [nunique], [value_counts],
      [duplicated], [describe], [quantile], [median], the [.str] accessor)
      are defined here after what pandas and numpy compute. The mean, the
      standard deviation and the skewness of a sample depend on the order
      in which the library adds doubles; their values are parameters, and
      only the sample sizes below which pandas gives NaN are fixed here.
    - The generation collaborator (a [dspy.ChainOfThought] module) is an
      oracle that sees the calls made so far; a call either yields a
      prediction or fails with a message. Calls are logged, so that what was
      asked, and in which order, can be stated.
    - A number written without a fraction counts as an integer, so that a
      column of whole numbers is an [int64] column here, also when its
      values are written 1.0 and 2.0; the unsigned dtype does not occur.
      Strings are sequences of bytes, and [lower] and [strip] act on the
      ASCII letters and the ASCII white space.
    - An exception raised by a stage is a value [Raise msg].
    - Text that Python renders from floats and containers ([str], [repr],
      format specifications) is a parameter of the model. *)

From Stdlib Require Import ZArith QArith Qround Qabs Qpower String Ascii List Lia Lqa Sorted.
From stdpp Require Import gmap strings list pretty.

(** ** Python values *)

Module Py.

(** A float: NaN, an infinity with its sign, or a rational. *)
Inductive float := NaN | Inf (negative : bool) | Fin (q : Q).

Definition f_lt (a b : float) : bool :=
  match a, b with
  | NaN, _ | _, NaN => false
  | Fin x, Fin y => negb (Qle_bool y x)
  | Inf s, Inf t => s && negb t
  | Inf s, Fin _ => s
  | Fin _, Inf t => negb t
  end.

Definition f_gt (a b : float) : bool := f_lt b a.

Definition f_le (a b : float) : bool :=
  match a, b with
  | NaN, _ | _, NaN => false
  | Inf true, _ | _, Inf false => true
  | Fin x, Fin y => Qle_bool x y
  | _, _ => false
  end.

Definition f_abs (a : float) : float :=
  match a with
  | Fin x => Fin (Qabs x)
  | Inf _ => Inf false
  | NaN => NaN
  end.

Definition f_neg (a : float) : float :=
  match a with
  | NaN => NaN
  | Inf s => Inf (negb s)
  | Fin x => Fin (- x)
  end.

(** [round(x)] to the nearest integer, ties to the even one. *)
Definition round_half_even (x : Q) : Z :=
  let f := Qfloor x in
  match Qcompare (x - inject_Z f)%Q (1 # 2)%Q with
  | Lt => f
  | Gt => (f + 1)%Z
  | Eq => if Z.even f then f else (f + 1)%Z
  end.

(** *** Binary64 *)

(** [2 ** e] *)
Definition pow2 (e : Z) : Q := (2 ^ e)%Q.

(** The exponent of the binade of a number that is not zero:
    [2 ** mag x <= |x| < 2 ** (mag x + 1)]. *)
Definition mag (x : Q) : Z :=
  let k := (Z.log2 (Z.abs (Qnum x)) - Z.log2 (Zpos (Qden x)))%Z in
  if Qle_bool (pow2 k) (Qabs x) then k else (k - 1)%Z.

(** The exponent of the unit in the last place: 53 significant bits, and
    no exponent below that of the subnormal numbers. *)
Definition ulp_exp (x : Q) : Z := Z.max (mag x - 52) (-1074).

(** The nearest number with 53 significant bits, ties to the even one,
    whatever its size. *)
Definition rnd_fin (x : Q) : Q :=
  if Qeq_bool x 0 then 0%Q
  else Qred (inject_Z (round_half_even (x / pow2 (ulp_exp x))) * pow2 (ulp_exp x)).

(** The double nearest to a number; from [2 ** 1024] on it is an infinity. *)
Definition rnd (x : Q) : float :=
  let y := rnd_fin x in
  if Qle_bool (pow2 1024) (Qabs y) then Inf (negb (Qle_bool 0 y)) else Fin y.

Definition is_neg (x : Q) : bool := negb (Qle_bool 0 x).

(** [a + b], [a - b], [a * b] and [a / b] on doubles: the exact result,
    rounded. *)
Definition fadd (a b : float) : float :=
  match a, b with
  | NaN, _ | _, NaN => NaN
  | Inf s, Inf t => if Bool.eqb s t then Inf s else NaN
  | Inf s, Fin _ | Fin _, Inf s => Inf s
  | Fin x, Fin y => rnd (x + y)
  end.

Definition fsub (a b : float) : float := fadd a (f_neg b).

Definition fmul (a b : float) : float :=
  match a, b with
  | NaN, _ | _, NaN => NaN
  | Inf s, Inf t => Inf (xorb s t)
  | Inf s, Fin y | Fin y, Inf s => if Qeq_bool y 0 then NaN else Inf (xorb s (is_neg y))
  | Fin x, Fin y => rnd (x * y)
  end.

(** [a / b] as numpy has it: the quotient by zero is an infinity, or NaN. *)
Definition fdiv (a b : float) : float :=
  match a, b with
  | NaN, _ | _, NaN => NaN
  | Inf _, Inf _ => NaN
  | Inf s, Fin y => Inf (xorb s (is_neg y))
  | Fin _, Inf _ => Fin 0
  | Fin x, Fin y =>
      if Qeq_bool y 0 then (if Qeq_bool x 0 then NaN else Inf (is_neg x))
      else rnd (x / y)
  end.

(** [round(x, 2)] on a Python float: the double nearest to the decimal of
    two places that is nearest to [x], ties between decimals to the even
    one. *)
Definition py_round2 (a : float) : float :=
  match a with
  | Fin x => rnd (inject_Z (round_half_even (x * 100)) / 100)
  | _ => a
  end.

(** [round(x, 2)] on a numpy float: [rint(x * 100) / 100]. *)
Definition rint (a : float) : float :=
  match a with
  | Fin x => Fin (inject_Z (round_half_even x))
  | _ => a
  end.

Definition np_round2 (a : float) : float := fdiv (rint (fmul a (Fin 100))) (Fin 100).

(** The unit in the last place of the doubles around a number. *)
Definition ulp (x : Q) : Q := pow2 (ulp_exp x).

(** A number that a double holds, were there no largest exponent: at most
    53 significant bits, above the exponent of the subnormal numbers. *)
Definition representable (x : Q) : Prop :=
  exists k g : Z, (x == inject_Z k * pow2 g)%Q /\ (Z.abs k < 2 ^ 53)%Z /\ (-1074 <= g)%Z.

(** A multiple of the smallest subnormal number. *)
Definition on_grid (x : Q) : Prop := exists j : Z, (x == inject_Z j * pow2 (-1074))%Q.

(** A double below [2 ** 1023] in size. *)
Definition moderate (x : Q) : Prop := representable x /\ (Qabs x < pow2 1023)%Q.

(** *** Ratios of counts, kept exact *)

Definition f_mul (a b : float) : float :=
  match a, b with
  | Fin x, Fin y => Fin (x * y)
  | _, _ => NaN
  end.

(** [round(x, 2)] of an exact ratio. *)
Definition round2 (x : Q) : Q := round_half_even (x * 100)%Q # 100.

Definition f_round2 (a : float) : float :=
  match a with
  | Fin x => Fin (round2 x)
  | _ => a
  end.

(** An exception, or a value. *)
Inductive Result (A : Type) := Ok (a : A) | Raise (msg : string).
Arguments Ok {A} a.
Arguments Raise {A} msg.

(** [a / b] on two [int]s. *)
Definition truediv (a b : nat) : Result Q :=
  match b with
  | O => Raise "division by zero"
  | S _ => Ok (inject_Z (Z.of_nat a) / inject_Z (Z.of_nat b))%Q
  end.

(** [str(n)] on an [int]. *)
Definition str_int (n : nat) : string := pretty n.

(** [s.lower()], on ASCII. *)
Definition lower_ascii (c : ascii) : ascii :=
  let n := nat_of_ascii c in
  if (65 <=? n)%nat && (n <=? 90)%nat then ascii_of_nat (n + 32) else c.

Fixpoint lower (s : string) : string :=
  match s with
  | EmptyString => EmptyString
  | String c s' => String (lower_ascii c) (lower s')
  end.

(** [s.strip()]: white space is removed at both ends. On ASCII the white
    space of Python is the blank, the characters 9 to 13 and the separators
    28 to 31. *)
Definition is_space (c : ascii) : bool :=
  let n := nat_of_ascii c in
  (n =? 32)%nat || ((9 <=? n)%nat && (n <=? 13)%nat) || ((28 <=? n)%nat && (n <=? 31)%nat).

Fixpoint lstrip (s : string) : string :=
  match s with
  | EmptyString => EmptyString
  | String c s' => if is_space c then lstrip s' else s
  end.

Fixpoint rev_string (s acc : string) : string :=
  match s with
  | EmptyString => acc
  | String c s' => rev_string s' (String c acc)
  end.

Definition rstrip (s : string) : string :=
  rev_string (lstrip (rev_string s "")) "".

Definition strip (s : string) : string := rstrip (lstrip s).

(** [sub in s]. *)
Definition contains (sub s : string) : bool :=
  match sub with
  | EmptyString => true
  | _ => match index 0 sub s with Some _ => true | None => false end
  end.

(** [s[:n]]. *)
Definition slice_to (n : nat) (s : string) : string := substring 0 n s.

(** [sep.join(l)]. *)
Fixpoint join (sep : string) (l : list string) : string :=
  match l with
  | [] => ""
  | [x] => x
  | x :: l' => x +:+ sep +:+ join sep l'
  end.

End Py.

Export Py.

(** ** The dataset, as pandas holds it *)

Module Pandas.

(** A cell: missing, a number, a string or a truth value. *)
Inductive cell := Null | Num (q : Q) | Str (s : string) | Boolean (b : bool).

Definition Series := list cell.

(** The header and the rows of cells. A row that is too short is filled
    with missing cells. *)
Record DataFrame := {
  df_names : list string;
  df_rows : list (list cell)
}.

(** [len(df)] *)
Definition len (df : DataFrame) : nat := length (df_rows df).

Definition column (df : DataFrame) (j : nat) : Series :=
  map (fun r => nth j r Null) (df_rows df).

(** [df.columns] with, for each name, [df[col]]. *)
Definition columns (df : DataFrame) : list (string * Series) :=
  imap (fun j name => (name, column df j)) (df_names df).

Definition row_cells (df : DataFrame) (r : list cell) : list cell :=
  map (fun j => nth j r Null) (seq 0 (length (df_names df))).

Definition bool_Q (b : bool) : Q := if b then 1%Q else 0%Q.

(** The equality by which pandas tells values apart: missing cells are
    alike, and a truth value equals the number 1 or 0, as in Python. *)
Definition cell_eqb (a b : cell) : bool :=
  match a, b with
  | Null, Null => true
  | Num x, Num y => Qeq_bool x y
  | Str s, Str t => String.eqb s t
  | Boolean x, Boolean y => Bool.eqb x y
  | Boolean x, Num y | Num y, Boolean x => Qeq_bool y (bool_Q x)
  | _, _ => false
  end.

Definition isnull (c : cell) : bool :=
  match c with
  | Null => true
  | _ => false
  end.

(** [s.isnull().sum()] *)
Definition null_count (s : Series) : nat := length (filter (fun c => isnull c = true) s).

(** [s.dropna()] *)
Definition dropna (s : Series) : Series := filter (fun c => isnull c = false) s.

(** The dtype of a column, inferred as [read_csv] does: a column without
    rows is an object column; a column of truth values without a missing
    cell is [bool]; a column of numbers is [int64] if every cell is a whole
    number and [float64] otherwise (a missing cell makes it [float64]);
    every other column, with a string in it or with truth values beside
    missing cells, is an object column. *)
Inductive dtype := Int64 | Float64 | BoolT | Object.

Definition is_bool_cell (c : cell) : bool :=
  match c with
  | Boolean _ => true
  | _ => false
  end.

Definition is_num_cell (c : cell) : bool :=
  match c with
  | Num _ => true
  | _ => false
  end.

Definition is_numeric_cell (c : cell) : bool :=
  match c with
  | Null | Num _ => true
  | _ => false
  end.

Definition is_whole_cell (c : cell) : bool :=
  match c with
  | Num q => Qeq_bool (inject_Z (Qfloor q)) q
  | _ => false
  end.

Definition infer_dtype (s : Series) : dtype :=
  match s with
  | [] => Object
  | _ =>
      if forallb is_bool_cell s then BoolT
      else if forallb is_numeric_cell s
      then if forallb is_whole_cell s then Int64 else Float64
      else Object
  end.

(** [str(s.dtype)] *)
Definition str_dtype (d : dtype) : string :=
  match d with
  | Int64 => "int64"
  | Float64 => "float64"
  | BoolT => "bool"
  | Object => "object"
  end.

Definition is_number_dtype (d : dtype) : bool :=
  match d with
  | Int64 | Float64 => true
  | _ => false
  end.

Definition is_object_dtype (d : dtype) : bool :=
  match d with
  | Object => true
  | _ => false
  end.

(** [df.select_dtypes(include=[np.number]).columns]: a [bool] column is
    not among them. *)
Definition numeric_columns (df : DataFrame) : list (string * Series) :=
  filter (fun c => is_number_dtype (infer_dtype (snd c)) = true) (columns df).

(** [df.select_dtypes(include=['object']).columns]; [read_csv] gives no
    categorical dtype, so ['object', 'category'] selects the same. A [bool]
    column is not among them either. *)
Definition object_columns (df : DataFrame) : list (string * Series) :=
  filter (fun c => is_object_dtype (infer_dtype (snd c)) = true) (columns df).

(** The numbers of a column: missing cells are skipped. *)
Definition numbers (s : Series) : list Q :=
  omap (fun c => match c with Num q => Some q | _ => None end) s.

(** The same as [float64] holds them, which is how pandas computes on
    them. (In an [int64] column numpy takes the difference of two values
    in [int64] before it converts; below [2 ** 53] in size both ways give
    the same double.) *)
Definition floats (s : Series) : list float := map rnd (numbers s).

(** The values of a list, each once, in the order of first occurrence. *)
Fixpoint unique (s : list cell) : list cell :=
  match s with
  | [] => []
  | c :: s' => c :: filter (fun d => cell_eqb c d = false) (unique s')
  end.

(** [s.nunique()] *)
Definition nunique (s : Series) : nat := length (unique (dropna s)).

(** [s.head(n).tolist()] *)
Definition head (n : nat) (s : Series) : list cell := take n s.

Definition count_occ_cell (c : cell) (s : list cell) : nat :=
  length (filter (fun d => cell_eqb c d = true) s).

(** Insertion of a pair into a list ordered by decreasing count; among
    equal counts the one met first stays first. *)
Fixpoint insert_by_count (p : cell * nat) (l : list (cell * nat)) : list (cell * nat) :=
  match l with
  | [] => [p]
  | p' :: l' =>
      if (snd p' <=? snd p)%nat then p :: l else p' :: insert_by_count p l'
  end.

(** [s.value_counts()]: the values that are not missing with the number
    of their occurrences, the most frequent first. *)
Definition value_counts (s : Series) : list (cell * nat) :=
  let vals := dropna s in
  foldr insert_by_count [] (map (fun c => (c, count_occ_cell c vals)) (unique vals)).

Definition row_eqb (r1 r2 : list cell) : bool :=
  (length r1 =? length r2)%nat && forallb (fun p => cell_eqb (fst p) (snd p)) (combine r1 r2).

(** [df.duplicated()]: a row is marked when an equal row comes before it.
    Of a frame without columns pandas marks nothing, whatever its index. *)
Fixpoint duplicated_from (seen : list (list cell)) (rows : list (list cell)) : list bool :=
  match rows with
  | [] => []
  | r :: rows' => existsb (row_eqb r) seen :: duplicated_from (r :: seen) rows'
  end.

Definition duplicated (df : DataFrame) : list bool :=
  match df_names df with
  | [] => []
  | _ => duplicated_from [] (map (row_cells df) (df_rows df))
  end.

(** [s.str]: pandas looks at the values and refuses the accessor
    ([AttributeError]) when they are all truth values or all numbers; with
    a string among them, with a mixture, or without any value, it is
    granted. *)
Definition str_accessor_refused (vals : list cell) : bool :=
  match vals with
  | [] => false
  | _ => forallb is_bool_cell vals || forallb is_num_cell vals
  end.

(** *** Descriptive statistics *)

Fixpoint insert_sorted {A} (leb : A -> A -> bool) (x : A) (l : list A) : list A :=
  match l with
  | [] => [x]
  | y :: l' => if leb x y then x :: l else y :: insert_sorted leb x l'
  end.

Definition sort {A} (leb : A -> A -> bool) (l : list A) : list A :=
  foldr (insert_sorted leb) [] l.

(** [s.min()], [s.max()] *)
Definition minimum (l : list float) : float :=
  match l with
  | [] => NaN
  | x :: l' => foldr (fun y acc => if f_le y acc then y else acc) x l'
  end.

Definition maximum (l : list float) : float :=
  match l with
  | [] => NaN
  | x :: l' => foldr (fun y acc => if f_le acc y then y else acc) x l'
  end.

(** [_lerp(a, b, t)] of numpy: [a + (b - a) * t], and [b - (b - a) * (1 - t)]
    from the half on. *)
Definition lerp (a b t : float) : float :=
  let diff_b_a := fsub b a in
  if f_le (Fin (1 # 2)) t
  then fsub b (fmul diff_b_a (fsub (Fin 1) t))
  else fadd a (fmul diff_b_a t).

(** [s.quantile(q)], which is [np.percentile] with linear interpolation on
    the values that are not missing: the virtual index [(n - 1) * q], the
    two order statistics around it and their interpolation at the
    fractional part. From the last index on, both are the last value and
    the fraction is counted from the index before the first. (The virtual
    index and the fraction, multiples of a quarter here, are exact in
    binary64 below [2 ** 51] values.) *)
Definition quantile (q : Q) (l : list float) : float :=
  match l with
  | [] => NaN
  | _ =>
      let s := sort f_le l in
      let n := length s in
      let virtual_index := (inject_Z (Z.of_nat (n - 1)) * q)%Q in
      if Qle_bool (inject_Z (Z.of_nat (n - 1))) virtual_index
      then lerp (nth (n - 1) s NaN) (nth (n - 1) s NaN) (Fin (virtual_index + 1))
      else
        let previous := Z.to_nat (Qfloor virtual_index) in
        lerp (nth previous s NaN) (nth (previous + 1) s NaN)
             (Fin (virtual_index - inject_Z (Qfloor virtual_index)))
  end.

(** [s.median()]: the mean, as numpy takes it, of the middle value or of
    the two middle values. *)
Definition median (l : list float) : float :=
  match l with
  | [] => NaN
  | _ =>
      let s := sort f_le l in
      let n := length s in
      if Nat.odd n then nth (n / 2) s NaN
      else fdiv (fadd (nth (n / 2 - 1) s NaN) (nth (n / 2) s NaN)) (Fin 2)
  end.

Section Reductions.
(** What pandas computes for the mean, the standard deviation and the
    skewness of a sample that is large enough. *)
Variable mean_f64 : list float -> float.
Variable std_f64 : list float -> float.
Variable skew_f64 : list float -> float.

(** [s.mean()] *)
Definition mean (l : list float) : float :=
  match l with
  | [] => NaN
  | _ => mean_f64 l
  end.

(** [s.std()], with one degree of freedom less than the count. *)
Definition std (l : list float) : float :=
  match l with
  | [] | [_] => NaN
  | _ => std_f64 l
  end.

(** [s.skew()] ([nanops.nanskew]): a sample of less than three values has
    none. *)
Definition skew (l : list float) : float :=
  if (length l <? 3)%nat then NaN else skew_f64 l.
End Reductions.

End Pandas.

Export Pandas.

(** ** The generation collaborator *)

Module LM.

(** A call names the signature (the output fields expected at this call
    site) and gives the input fields. *)
Record Call := {
  signature : string;
  inputs : list (string * string)
}.

Inductive Response :=
| Prediction (fields : string -> string)
| Failure (msg : string).

(** The collaborator answers a call knowing the calls made before it. *)
Definition Oracle := list Call -> Call -> Response.

(** Everything the pipeline takes from outside: the collaborator, the
    reductions of pandas over a sample of doubles, the size pandas reports
    for a frame, the message of the [AttributeError] of the [.str]
    accessor, and the text Python renders from floats and containers. *)
Record Extern := {
  lm : Oracle;
  mean_f64 : list float -> float;
  std_f64 : list float -> float;
  skew_f64 : list float -> float;
  memory_usage : DataFrame -> Q;
  str_accessor_error : string;
  str_float : float -> string;
  format_float : nat -> float -> string;
  repr_str : string -> string;
  str_cells : list cell -> string;
  str_frame_dict : list string -> list (list cell) -> string;
  str_counts_dict : list (cell * nat) -> string
}.

(** A computation that calls the collaborator: the log of the calls made
    so far goes in, the result and the extended log come out. *)
Definition M (A : Type) : Type := list Call -> A * list Call.

Definition ret {A} (a : A) : M A := fun tr => (a, tr).

Definition bind {A B} (m : M A) (k : A -> M B) : M B :=
  fun tr => let (a, tr') := m tr in k a tr'.

Definition generate (E : Extern) (c : Call) : M Response :=
  fun tr => (lm E tr c, tr ++ [c]).

(** A [for] loop that collects what its body returns. *)
Fixpoint for_each {A B} (f : A -> M B) (l : list A) : M (list B) :=
  match l with
  | [] => ret []
  | a :: l' => bind (f a) (fun b => bind (for_each f l') (fun bs => ret (b :: bs)))
  end.

(** The same when the body may raise: the first exception ends the loop. *)
Fixpoint for_each_try {A B} (f : A -> M (Result B)) (l : list A) : M (Result (list B)) :=
  match l with
  | [] => ret (Ok [])
  | a :: l' =>
      bind (f a) (fun r =>
        match r with
        | Raise msg => ret (Raise msg)
        | Ok b =>
            bind (for_each_try f l') (fun rs =>
              match rs with
              | Raise msg => ret (Raise msg)
              | Ok bs => ret (Ok (b :: bs))
              end)
        end)
  end.

End LM.

Export LM.

Notation "x <- m ;; k" := (LM.bind m (fun x => k))
  (at level 100, m at next level, right associativity).

(** [str(v)] of a value taken from a column. *)
Definition str_cell (E : Extern) (c : cell) : string :=
  match c with
  | Null => "nan"
  | Num q => str_float E (Fin q)
  | Str s => s
  | Boolean true => "True"
  | Boolean false => "False"
  end.

(** ** Schema agent (agents/schema_agent.py) *)

Module SchemaAgent.

(** config.MAX_SAMPLE_VALUES *)
Definition MAX_SAMPLE_VALUES : nat := 5.

Record ColumnProfile := {
  column_name : string;
  pandas_dtype : string;
  null_count : nat;
  null_percentage : float;
  unique_count : nat;
  sample_values : string;
  business_type : string;
  confidence : string;
  reasoning : string;
  recommendation : string
}.

Record Summary := {
  total_columns : nat;
  total_rows : nat;
  memory_usage_mb : Q
}.

Record SchemaResult := {
  columns : list ColumnProfile;
  summary : Summary
}.

Section Agent.
Variable E : Extern.

Definition _analyze_column (df : DataFrame) (col : string * Series) : M (Result ColumnProfile) :=
  let pandas_dtype := str_dtype (infer_dtype (snd col)) in
  let null_count := Pandas.null_count (snd col) in
  let unique_count := nunique (snd col) in
  let total_count := len df in
  let non_null_values := dropna (snd col) in
  let sample_values_str :=
    if (0 <? length non_null_values)%nat
    then str_cells E (head MAX_SAMPLE_VALUES non_null_values)
    else "All null values" in
  r <- generate E {| signature := "SchemaInterpreter";
                     inputs := [("column_name", fst col);
                                ("pandas_dtype", pandas_dtype);
                                ("null_count", str_int null_count);
                                ("unique_count", str_int unique_count);
                                ("total_count", str_int total_count);
                                ("sample_values", sample_values_str)] |} ;;
  let '(business_type, confidence, reasoning, recommendation) :=
    match r with
    | Prediction f =>
        (f "business_type", f "confidence", f "reasoning", f "recommendation")
    | Failure e =>
        ("Unknown", "low", "Error in LLM interpretation: " +:+ e, "Review manually")
    end in
  match truediv null_count total_count with
  | Raise msg => ret (Raise msg)
  | Ok ratio =>
      ret (Ok {| column_name := fst col;
                 pandas_dtype := pandas_dtype;
                 null_count := null_count;
                 null_percentage := py_round2 (fmul (rnd ratio) (Fin 100));
                 unique_count := unique_count;
                 sample_values := sample_values_str;
                 business_type := business_type;
                 confidence := confidence;
                 reasoning := reasoning;
                 recommendation := recommendation |})
  end.

Definition analyze (df : DataFrame) : M (Result SchemaResult) :=
  let summary := {| total_columns := length (df_names df);
                    total_rows := len df;
                    memory_usage_mb := (memory_usage E df / 1048576)%Q |} in
  rs <- for_each_try (_analyze_column df) (Pandas.columns df) ;;
  match rs with
  | Raise msg => ret (Raise msg)
  | Ok cols => ret (Ok {| columns := cols; summary := summary |})
  end.
End Agent.

End SchemaAgent.

(** ** Profile agent (agents/profile_agent.py) *)

Module ProfileAgent.

Record NumericStats := {
  column_name : string;
  mean : float;
  median : float;
  std : float;
  min : float;
  max : float;
  q25 : float;
  q75 : float;
  skewness : float;
  pattern_detected : string;
  insight : string;
  actionable_suggestion : string
}.

Record CategoricalStats := {
  cat_column_name : string;
  cardinality : nat;
  top_value : string;
  top_frequency : nat;
  top_5 : list (string * nat);
  cat_pattern_detected : string;
  cat_insight : string;
  cat_actionable_suggestion : string
}.

Record ProfileResult := {
  numeric_analysis : list NumericStats;
  categorical_analysis : list CategoricalStats
}.

(** The pattern read off the skewness. *)
Definition pattern_of (skewness : float) : string :=
  if f_lt (f_abs skewness) (Fin (1 # 2)) then "normal distribution"
  else if f_gt skewness (Fin (1 # 2)) then "right skewed"
  else "left skewed".

Section Agent.
Variable E : Extern.

Definition _analyze_numeric_column (col : string * Series) : M NumericStats :=
  let xs := floats (snd col) in
  (* stats = df[col].describe() *)
  let mean_val := Pandas.mean (mean_f64 E) xs in
  let median_val := Pandas.median xs in
  let std_val := Pandas.std (std_f64 E) xs in
  let min_val := minimum xs in
  let max_val := maximum xs in
  let q25 := quantile (1 # 4) xs in
  let q75 := quantile (3 # 4) xs in
  let skewness := skew (skew_f64 E) xs in
  let pattern := pattern_of skewness in
  let stats_dict :=
    "{'mean': " +:+ str_float E mean_val +:+
    ", 'median': " +:+ str_float E median_val +:+
    ", 'std': " +:+ str_float E std_val +:+
    ", 'min': " +:+ str_float E min_val +:+
    ", 'max': " +:+ str_float E max_val +:+
    ", 'skewness': " +:+ str_float E skewness +:+
    ", 'q25': " +:+ str_float E q25 +:+
    ", 'q75': " +:+ str_float E q75 +:+ "}" in
  r <- generate E {| signature := "StatisticalInsightGenerator";
                     inputs := [("column_name", fst col);
                                ("column_type", "numeric");
                                ("stats_dict", stats_dict)] |} ;;
  let '(insight, pattern_detected, suggestion) :=
    match r with
    | Prediction f => (f "insight", f "pattern_detected", f "actionable_suggestion")
    | Failure e => ("Error generating insight: " +:+ e, pattern, "Review statistics manually")
    end in
  ret {| column_name := fst col;
         mean := mean_val;
         median := median_val;
         std := std_val;
         min := min_val;
         max := max_val;
         q25 := q25;
         q75 := q75;
         skewness := skewness;
         pattern_detected := pattern_detected;
         insight := insight;
         actionable_suggestion := suggestion |}.

Definition str_top_5 (top_5 : list (string * nat)) : string :=
  "[" +:+ join ", " (map (fun p => "(" +:+ repr_str E (fst p) +:+ ", " +:+ str_int (snd p) +:+ ")") top_5) +:+ "]".

Definition _analyze_categorical_column (col : string * Series) : M CategoricalStats :=
  let value_counts := Pandas.value_counts (snd col) in
  let cardinality := length value_counts in
  let total_count := length (dropna (snd col)) in
  let top_value :=
    match value_counts with
    | p :: _ => str_cell E (fst p)
    | [] => "N/A"
    end in
  let top_frequency :=
    match value_counts with
    | p :: _ => snd p
    | [] => 0%nat
    end in
  let top_5 := map (fun p => (str_cell E (fst p), snd p)) (take 5 value_counts) in
  let stats_dict :=
    "{'cardinality': " +:+ str_int cardinality +:+
    ", 'total_count': " +:+ str_int total_count +:+
    ", 'top_value': " +:+ repr_str E top_value +:+
    ", 'top_frequency': " +:+ str_int top_frequency +:+
    ", 'top_5_values': " +:+ repr_str E (str_top_5 top_5) +:+ "}" in
  r <- generate E {| signature := "StatisticalInsightGenerator";
                     inputs := [("column_name", fst col);
                                ("column_type", "categorical");
                                ("stats_dict", stats_dict)] |} ;;
  let '(insight, pattern_detected, suggestion) :=
    match r with
    | Prediction f => (f "insight", f "pattern_detected", f "actionable_suggestion")
    | Failure e => ("Error generating insight: " +:+ e, "unknown", "Review distribution manually")
    end in
  ret {| cat_column_name := fst col;
         cardinality := cardinality;
         top_value := top_value;
         top_frequency := top_frequency;
         top_5 := top_5;
         cat_pattern_detected := pattern_detected;
         cat_insight := insight;
         cat_actionable_suggestion := suggestion |}.

Definition analyze (df : DataFrame) : M (Result ProfileResult) :=
  let numeric_cols := numeric_columns df in
  let categorical_cols := object_columns df in
  num <- for_each _analyze_numeric_column numeric_cols ;;
  cat <- for_each _analyze_categorical_column categorical_cols ;;
  ret (Ok {| numeric_analysis := num; categorical_analysis := cat |}).
End Agent.

End ProfileAgent.

(** ** Quality agent (agents/quality_agent.py) *)

Module QualityAgent.

Record Issue := {
  type : string;
  column : string;
  severity : string;
  description : string;
  count : nat;
  percentage : option float;
  bounds : option (float * float);
  recommended_action : string;
  code_snippet : string;
  impact : string
}.

Record QualityResult := {
  issues_found : list Issue;
  summary : gmap string nat
}.

Definition Qgt_bool (a b : Q) : bool := negb (Qle_bool a b).

(** [x / n] where [x] is a numpy integer: no exception; the quotient by
    zero, an infinity or NaN in numpy, is NaN here. *)
Definition np_truediv (a b : nat) : float :=
  match b with
  | O => NaN
  | S _ => Fin (inject_Z (Z.of_nat a) / inject_Z (Z.of_nat b))%Q
  end.

(** The value of a cell of a numeric column, as [float64] holds it. *)
Definition cell_float (c : cell) : float :=
  match c with
  | Num q => rnd q
  | _ => NaN
  end.

(** [.str.lower().str.strip()] on the values of an object column; what is
    not a string becomes missing. *)
Definition str_lower_strip (c : cell) : cell :=
  match c with
  | Str s => Str (strip (lower s))
  | _ => Null
  end.

(** The three output fields of a recommendation, or the fallback. *)
Definition recommendation_or (r : Response) (fallback : string * string * string)
  : string * string * string :=
  match r with
  | Prediction f => (f "recommended_action", f "python_code", f "impact_description")
  | Failure _ => fallback
  end.

(** The loop of [analyze] over the issues: one more issue in total, one
    more of its severity ([summary[severity] = summary.get(severity, 0) + 1]).
    The key ['total_issues'] is there from the start and is never removed,
    so that [+= 1] on it finds it. *)
Definition count_issue (s : gmap string nat) (issue : Issue) : gmap string nat :=
  let s1 := <["total_issues" := (default 0 (s !! "total_issues") + 1)%nat]> s in
  <[severity issue := (default 0 (s1 !! severity issue) + 1)%nat]> s1.

Definition empty_summary : gmap string nat :=
  <["info" := 0%nat]> (<["warnings" := 0%nat]> (<["critical" := 0%nat]> (<["total_issues" := 0%nat]> ∅))).

Section Agent.
Variable E : Extern.

Definition _check_missing_column (df : DataFrame) (col : string * Series)
  : M (Result (list Issue)) :=
  let null_count := Pandas.null_count (snd col) in
  if (0 <? null_count)%nat then
    match truediv null_count (len df) with
    | Raise msg => ret (Raise msg)
    | Ok ratio =>
        let null_pct := (ratio * 100)%Q in
        let severity :=
          if Qgt_bool null_pct 50 then "critical"
          else if Qgt_bool null_pct 20 then "warnings"
          else "info" in
        let issue_desc :=
          str_int null_count +:+ " missing values (" +:+ format_float E 1 (Fin null_pct)
          +:+ "%) in column '" +:+ fst col +:+ "'" in
        let sample_data := str_cells E (head 3 (dropna (snd col))) in
        r <- generate E {| signature := "QualityRecommender";
                           inputs := [("issue_type", "missing_values");
                                      ("column_name", fst col);
                                      ("issue_description", issue_desc);
                                      ("sample_data", sample_data)] |} ;;
        let '(action, code, impact) :=
          recommendation_or r
            ("Impute with median/mode or drop rows",
             "df['" +:+ fst col +:+ "'].fillna(df['" +:+ fst col +:+ "'].median(), inplace=True)",
             "Fill missing values") in
        ret (Ok [ {| type := "missing_values";
                     column := fst col;
                     severity := severity;
                     description := issue_desc;
                     count := null_count;
                     percentage := Some (Fin (round2 null_pct));
                     bounds := None;
                     recommended_action := action;
                     code_snippet := code;
                     impact := impact |} ])
    end
  else ret (Ok []).

Definition _check_missing_values (df : DataFrame) : M (Result (list Issue)) :=
  rs <- for_each_try (_check_missing_column df) (Pandas.columns df) ;;
  match rs with
  | Raise msg => ret (Raise msg)
  | Ok iss => ret (Ok (concat iss))
  end.

Definition _check_duplicates (df : DataFrame) : M (list Issue) :=
  let dup := duplicated df in
  let dup_count := length (filter (fun b => b = true) dup) in
  if (0 <? dup_count)%nat then
    let dup_pct := f_mul (np_truediv dup_count (len df)) (Fin 100) in
    let severity := if f_gt dup_pct (Fin 5) then "warnings" else "info" in
    let issue_desc :=
      str_int dup_count +:+ " duplicate rows (" +:+ format_float E 1 dup_pct +:+ "%)" in
    let dup_rows :=
      map snd (filter (fun p => fst p = true) (zip dup (map (row_cells df) (df_rows df)))) in
    r <- generate E {| signature := "QualityRecommender";
                       inputs := [("issue_type", "duplicates");
                                  ("column_name", "entire_row");
                                  ("issue_description", issue_desc);
                                  ("sample_data", str_frame_dict E (df_names df) (take 2 dup_rows))] |} ;;
    let '(action, code, impact) :=
      recommendation_or r
        ("Remove duplicate rows",
         "df.drop_duplicates(inplace=True)",
         "Remove " +:+ str_int dup_count +:+ " duplicate rows") in
    ret [ {| type := "duplicates";
             column := "entire_row";
             severity := severity;
             description := issue_desc;
             count := dup_count;
             percentage := Some (f_round2 dup_pct);
             bounds := None;
             recommended_action := action;
             code_snippet := code;
             impact := impact |} ]
  else ret [].

Definition _check_outliers_column (df : DataFrame) (col : string * Series)
  : M (Result (list Issue)) :=
  let Q1 := quantile (1 # 4) (floats (snd col)) in
  let Q3 := quantile (3 # 4) (floats (snd col)) in
  let IQR := fsub Q3 Q1 in
  let lower_bound := fsub Q1 (fmul (Fin (3 # 2)) IQR) in
  let upper_bound := fadd Q3 (fmul (Fin (3 # 2)) IQR) in
  let outliers :=
    filter (fun c => f_lt (cell_float c) lower_bound || f_gt (cell_float c) upper_bound = true)
           (snd col) in
  let outlier_count := length outliers in
  if (0 <? outlier_count)%nat then
    match truediv outlier_count (len df) with
    | Raise msg => ret (Raise msg)
    | Ok ratio =>
        let outlier_pct := (ratio * 100)%Q in
        let severity := if Qgt_bool outlier_pct 10 then "warnings" else "info" in
        let issue_desc :=
          str_int outlier_count +:+ " outliers (" +:+ format_float E 1 (Fin outlier_pct)
          +:+ "%) in '" +:+ fst col +:+ "' (outside [" +:+ format_float E 2 lower_bound
          +:+ ", " +:+ format_float E 2 upper_bound +:+ "])" in
        let sample_data := str_cells E (head 3 outliers) in
        r <- generate E {| signature := "QualityRecommender";
                           inputs := [("issue_type", "outliers");
                                      ("column_name", fst col);
                                      ("issue_description", issue_desc);
                                      ("sample_data", sample_data)] |} ;;
        let '(action, code, impact) :=
          recommendation_or r
            ("Cap outliers or flag for investigation",
             "df['" +:+ fst col +:+ "'] = df['" +:+ fst col +:+ "'].clip(lower="
             +:+ format_float E 2 lower_bound +:+ ", upper=" +:+ format_float E 2 upper_bound +:+ ")",
             "Cap extreme values") in
        ret (Ok [ {| type := "outliers";
                     column := fst col;
                     severity := severity;
                     description := issue_desc;
                     count := outlier_count;
                     percentage := Some (Fin (round2 outlier_pct));
                     bounds := Some (np_round2 lower_bound, np_round2 upper_bound);
                     recommended_action := action;
                     code_snippet := code;
                     impact := impact |} ])
    end
  else ret (Ok []).

Definition _check_outliers (df : DataFrame) : M (Result (list Issue)) :=
  rs <- for_each_try (_check_outliers_column df) (numeric_columns df) ;;
  match rs with
  | Raise msg => ret (Raise msg)
  | Ok iss => ret (Ok (concat iss))
  end.

Definition _check_consistency_column (col : string * Series) : M (Result (list Issue)) :=
  let value_counts := Pandas.value_counts (snd col) in
  let unique_count := length value_counts in
  if (1 <? unique_count)%nat && (unique_count <? 100)%nat then
    (* df[col].dropna().str: outside every try *)
    if str_accessor_refused (dropna (snd col)) then ret (Raise (str_accessor_error E))
    else
    let values_lower := map str_lower_strip (dropna (snd col)) in
    let normalized_unique := nunique values_lower in
    if (normalized_unique <? unique_count)%nat then
      let diff := (unique_count - normalized_unique)%nat in
      let issue_desc :=
        "'" +:+ fst col +:+ "' has " +:+ str_int diff
        +:+ " inconsistent values (case/whitespace issues)" in
      let sample_data := str_counts_dict E (take 5 value_counts) in
      r <- generate E {| signature := "QualityRecommender";
                         inputs := [("issue_type", "inconsistent_categories");
                                    ("column_name", fst col);
                                    ("issue_description", issue_desc);
                                    ("sample_data", sample_data)] |} ;;
      let '(action, code, impact) :=
        recommendation_or r
          ("Standardize categorical values",
           "df['" +:+ fst col +:+ "'] = df['" +:+ fst col +:+ "'].str.lower().str.strip()",
           "Reduce " +:+ str_int diff +:+ " redundant categories") in
      ret (Ok [ {| type := "inconsistent_categories";
                   column := fst col;
                   severity := "info";
                   description := issue_desc;
                   count := diff;
                   percentage := None;
                   bounds := None;
                   recommended_action := action;
                   code_snippet := code;
                   impact := impact |} ])
    else ret (Ok [])
  else ret (Ok []).

Definition _check_categorical_consistency (df : DataFrame) : M (Result (list Issue)) :=
  rs <- for_each_try _check_consistency_column (object_columns df) ;;
  match rs with
  | Raise msg => ret (Raise msg)
  | Ok iss => ret (Ok (concat iss))
  end.

Definition analyze (df : DataFrame) : M (Result QualityResult) :=
  r1 <- _check_missing_values df ;;
  match r1 with
  | Raise msg => ret (Raise msg)
  | Ok missing_issues =>
      duplicate_issues <- _check_duplicates df ;;
      r3 <- _check_outliers df ;;
      match r3 with
      | Raise msg => ret (Raise msg)
      | Ok outlier_issues =>
          r4 <- _check_categorical_consistency df ;;
          match r4 with
          | Raise msg => ret (Raise msg)
          | Ok consistency_issues =>
              let issues :=
                missing_issues ++ duplicate_issues ++ outlier_issues ++ consistency_issues in
              ret (Ok {| issues_found := issues;
                         summary := foldl count_issue empty_summary issues |})
          end
      end
  end.
End Agent.

End QualityAgent.

(** ** ML advisor agent (agents/ml_advisor_agent.py) *)

Module MLAdvisorAgent.

Record UseCase := {
  detected_use_case : string;
  target_variable : string;
  target_reasoning : string;
  suitability_score : string;
  alternative_use_case : string
}.

Record FeatureEngineering := {
  feature_plan : string;
  training_recommendations : string;
  mlflow_setup : string
}.

Record MLRecommendation := {
  ml_use_case : UseCase;
  feature_engineering : FeatureEngineering
}.

Definition nl : string := String "010"%char EmptyString.

Definition base_instructions : string :=
  "You are an expert data scientist. Generate a clear, step-by-step ML plan in MARKDOWN FORMAT:

    ## 1. Data Preparation
    - Train/validation/test splits (ratios)
    - Preprocessing steps
    - Feature transformations

    ## 2. Model Training
    - Baseline model (specify)
    - Advanced models (specify algorithms)
    - Training sequence

    ## 3. Evaluation & Validation
    - Primary metrics (specify)
    - Cross-validation strategy
    - Holdout evaluation approach

    ## 4. Hyperparameter Tuning
    - Key parameters to tune
    - Search strategy (grid/random/bayesian)

    ## 5. MLflow Tracking
    - Experiment setup code
    - Parameters and metrics to log
    - Artifact storage plan

    ## 6. Deployment & Monitoring
    - Model serialization format
    - Monitoring metrics
    - Retraining triggers

    Use markdown headers (##), bullet points (-), keep responses concise and actionable.".

(** The planning instructions: the common text, and a paragraph chosen by
    the words found in the use case. *)
Definition _get_use_case_instructions (use_case : string) : string :=
  let base := base_instructions in
  let use_case_lower := lower use_case in
  if contains "classification" use_case_lower then
    base +:+ nl +:+ nl +:+ "**Classification Focus:** Include class imbalance handling, precision/recall tradeoffs, ROC-AUC, confusion matrix analysis."
  else if contains "regression" use_case_lower then
    base +:+ nl +:+ nl +:+ "**Regression Focus:** Emphasize RMSE, MAE, R², residual analysis, outlier detection and handling."
  else if contains "clustering" use_case_lower then
    base +:+ nl +:+ nl +:+ "**Clustering Focus:** Include silhouette score, elbow method, feature scaling requirements, cluster interpretation."
  else base.

Section Agent.
Variable E : Extern.

Definition _create_dataset_overview (schema_results : SchemaAgent.SchemaResult) : string :=
  let summary := SchemaAgent.summary schema_results in
  "Dataset: " +:+ str_int (SchemaAgent.total_rows summary) +:+ " rows, "
  +:+ str_int (SchemaAgent.total_columns summary) +:+ " columns, "
  +:+ format_float E 1 (Fin (SchemaAgent.memory_usage_mb summary)) +:+ "MB".

Definition _extract_key_columns (schema_results : SchemaAgent.SchemaResult)
    (profile_results : ProfileAgent.ProfileResult) : string :=
  let columns := SchemaAgent.columns schema_results in
  let key_cols :=
    map (fun col =>
           SchemaAgent.column_name col +:+ " (" +:+ SchemaAgent.business_type col +:+ ", "
           +:+ str_float E (SchemaAgent.null_percentage col) +:+ "% nulls, "
           +:+ str_int (SchemaAgent.unique_count col) +:+ " unique)")
        (take 10 columns) in
  join "; " key_cols.

Definition _summarize_quality_issues (quality_results : QualityAgent.QualityResult) : string :=
  let summary := QualityAgent.summary quality_results in
  let total := default 0%nat (summary !! "total_issues") in
  let critical := default 0%nat (summary !! "critical") in
  let warnings := default 0%nat (summary !! "warnings") in
  if (total =? 0)%nat then "No quality issues detected"
  else str_int total +:+ " issues found: " +:+ str_int critical +:+ " critical, "
       +:+ str_int warnings +:+ " warnings".

Definition _create_column_summary (schema_results : SchemaAgent.SchemaResult)
    (profile_results : ProfileAgent.ProfileResult) : string :=
  let columns := take 15 (SchemaAgent.columns schema_results) in
  let summary_lines :=
    map (fun col =>
           let line :=
             "- " +:+ SchemaAgent.column_name col +:+ ": " +:+ SchemaAgent.business_type col
             +:+ ", " +:+ SchemaAgent.pandas_dtype col in
           let line :=
             if (SchemaAgent.unique_count col <? 20)%nat
             then line +:+ ", " +:+ str_int (SchemaAgent.unique_count col) +:+ " categories"
             else if (SchemaAgent.unique_count col =? length columns)%nat
             then line +:+ ", unique identifier"
             else line in
           if f_gt (SchemaAgent.null_percentage col) (Fin 5)
           then line +:+ ", " +:+ str_float E (SchemaAgent.null_percentage col) +:+ "% nulls"
           else line)
        columns in
  join nl summary_lines.

Definition detector_call (schema_results : SchemaAgent.SchemaResult)
    (profile_results : ProfileAgent.ProfileResult)
    (quality_results : QualityAgent.QualityResult) : Call :=
  {| signature := "MLUseCaseDetector";
     inputs := [("dataset_overview", _create_dataset_overview schema_results);
                ("key_columns", _extract_key_columns schema_results profile_results);
                ("quality_issues", _summarize_quality_issues quality_results)] |}.

Definition planner_call (schema_results : SchemaAgent.SchemaResult)
    (profile_results : ProfileAgent.ProfileResult)
    (target_variable detected_use_case : string) : Call :=
  {| signature := "FeatureEngineeringPlanner";
     inputs := [("column_summary", _create_column_summary schema_results profile_results);
                ("target_variable", target_variable);
                ("ml_use_case", detected_use_case);
                ("planning_instructions", _get_use_case_instructions detected_use_case)] |}.

Definition analyze (schema_results : SchemaAgent.SchemaResult)
    (profile_results : ProfileAgent.ProfileResult)
    (quality_results : QualityAgent.QualityResult) : M (Result MLRecommendation) :=
  (* Step 2: detect the use case and the target variable *)
  r1 <- generate E (detector_call schema_results profile_results quality_results) ;;
  let use_case :=
    match r1 with
    | Prediction f =>
        {| detected_use_case := f "detected_use_case";
           target_variable := f "target_variable";
           target_reasoning := f "target_reasoning";
           suitability_score := f "suitability_score";
           alternative_use_case := f "alternative_use_case" |}
    | Failure e =>
        {| detected_use_case := "Unable to detect";
           target_variable := "Unknown";
           target_reasoning := "Error: " +:+ e;
           suitability_score := "0";
           alternative_use_case := "N/A" |}
    end in
  (* Step 3: the feature engineering plan *)
  r2 <- generate E (planner_call schema_results profile_results
                      (target_variable use_case) (detected_use_case use_case)) ;;
  let features :=
    match r2 with
    | Prediction f =>
        {| feature_plan := f "feature_plan";
           training_recommendations := f "training_recommendations";
           mlflow_setup := f "mlflow_setup" |}
    | Failure e =>
        {| feature_plan := "Error generating plan: " +:+ e;
           training_recommendations := "Unable to generate recommendations";
           mlflow_setup := "Unable to generate MLflow recommendations" |}
    end in
  ret (Ok {| ml_use_case := use_case; feature_engineering := features |}).
End Agent.

End MLAdvisorAgent.

(** ** Deployment agent (agents/deployment_agent.py) *)

Module DeploymentAgent.

Record DeploymentStrategy := {
  databricks_setup : string;
  serving_strategy : string;
  monitoring_plan : string;
  data_strategy : string;
  team_requirements : string;
  implementation_roadmap : string;
  risk_mitigation : string;
  cost_estimation : string;
  governance_framework : string;
  success_metrics : string;
  business_impact : string;
  testing_framework : string;
  operational_playbook : string;
  enablement_plan : string;
  future_enhancements : string
}.

Definition _generate_error_response (error : string) : DeploymentStrategy :=
  let error_msg := "Error: " +:+ error in
  {| databricks_setup := error_msg;
     serving_strategy := "Unable to generate";
     monitoring_plan := "Unable to generate";
     data_strategy := "Unable to generate";
     team_requirements := "Unable to generate";
     implementation_roadmap := "Unable to generate";
     risk_mitigation := "Unable to generate";
     cost_estimation := "Unable to generate";
     governance_framework := "Unable to generate";
     success_metrics := "Unable to generate";
     business_impact := "Unable to generate";
     testing_framework := "Unable to generate";
     operational_playbook := "Unable to generate";
     enablement_plan := "Unable to generate";
     future_enhancements := "Unable to generate" |}.

Definition _format_ml_use_case (ml_recommendations : MLAdvisorAgent.MLRecommendation) : string :=
  let use_case := MLAdvisorAgent.ml_use_case ml_recommendations in
  MLAdvisorAgent.detected_use_case use_case +:+ " | Target: "
  +:+ MLAdvisorAgent.target_variable use_case +:+ " | Score: "
  +:+ MLAdvisorAgent.suitability_score use_case +:+ "/100".

Section Agent.
Variable E : Extern.

Definition _format_data_summary (schema_results : SchemaAgent.SchemaResult) : string :=
  let summary := SchemaAgent.summary schema_results in
  str_int (SchemaAgent.total_rows summary) +:+ " rows, "
  +:+ str_int (SchemaAgent.total_columns summary) +:+ " columns, "
  +:+ format_float E 1 (Fin (SchemaAgent.memory_usage_mb summary)) +:+ "MB".

(** [schema_results] is [results['schema_analysis']] as the supervisor
    holds it; subscripting [None] raises a [TypeError]. *)
Definition analyze (schema_results : option SchemaAgent.SchemaResult)
    (ml_recommendations : MLAdvisorAgent.MLRecommendation) : M (Result DeploymentStrategy) :=
  let ml_use_case := _format_ml_use_case ml_recommendations in
  let feature_plan :=
    MLAdvisorAgent.feature_plan (MLAdvisorAgent.feature_engineering ml_recommendations) in
  let training_plan :=
    MLAdvisorAgent.training_recommendations (MLAdvisorAgent.feature_engineering ml_recommendations) in
  match schema_results with
  | None => ret (Raise "'NoneType' object is not subscriptable")
  | Some schema_results =>
  let data_summary := _format_data_summary schema_results in
  r <- generate E {| signature := "DatabricksDeploymentPlanner";
                     inputs := [("ml_use_case", ml_use_case);
                                ("feature_plan", feature_plan);
                                ("training_plan", training_plan);
                                ("data_summary", data_summary)] |} ;;
  match r with
  | Prediction f =>
      ret (Ok {| databricks_setup := f "databricks_setup";
                 serving_strategy := f "serving_strategy";
                 monitoring_plan := f "monitoring_plan";
                 data_strategy := f "data_strategy";
                 team_requirements := f "team_requirements";
                 implementation_roadmap := f "implementation_roadmap";
                 risk_mitigation := f "risk_mitigation";
                 cost_estimation := f "cost_estimation";
                 governance_framework := f "governance_framework";
                 success_metrics := f "success_metrics";
                 business_impact := f "business_impact";
                 testing_framework := f "testing_framework";
                 operational_playbook := f "operational_playbook";
                 enablement_plan := f "enablement_plan";
                 future_enhancements := f "future_enhancements" |})
  | Failure e => ret (Ok (_generate_error_response e))
  end
  end.
End Agent.

End DeploymentAgent.

(** ** Business communication agent (agents/business_communication_agent.py) *)

Module BusinessCommunicationAgent.

Record BusinessCommunication := {
  executive_summary : string;
  risk_matrix : string;
  timeline_visual : string;
  budget_justification : string;
  stakeholder_talking_points : string
}.

Definition _generate_error_response (error : string) : BusinessCommunication :=
  let error_msg := "Error: " +:+ error in
  {| executive_summary := error_msg;
     risk_matrix := "Unable to generate";
     timeline_visual := "Unable to generate";
     budget_justification := "Unable to generate";
     stakeholder_talking_points := "Unable to generate" |}.

Definition _format_ml_use_case (ml_recommendations : MLAdvisorAgent.MLRecommendation) : string :=
  let use_case := MLAdvisorAgent.ml_use_case ml_recommendations in
  MLAdvisorAgent.detected_use_case use_case +:+ " targeting "
  +:+ MLAdvisorAgent.target_variable use_case +:+ " (Readiness: "
  +:+ MLAdvisorAgent.suitability_score use_case +:+ "/100)".

Definition _format_deployment_summary (deployment_strategy : DeploymentAgent.DeploymentStrategy)
  : string :=
  let team := DeploymentAgent.team_requirements deployment_strategy in
  let timeline := DeploymentAgent.implementation_roadmap deployment_strategy in
  let costs := DeploymentAgent.cost_estimation deployment_strategy in
  "Team: " +:+ slice_to 100 team +:+ "... | Timeline: " +:+ slice_to 100 timeline
  +:+ "... | Costs: " +:+ slice_to 100 costs +:+ "...".

Section Agent.
Variable E : Extern.

Definition analyze (ml_recommendations : MLAdvisorAgent.MLRecommendation)
    (deployment_strategy : DeploymentAgent.DeploymentStrategy)
  : M (Result BusinessCommunication) :=
  let ml_use_case := _format_ml_use_case ml_recommendations in
  let deployment_summary := _format_deployment_summary deployment_strategy in
  let technical_risks := DeploymentAgent.risk_mitigation deployment_strategy in
  let success_metrics := DeploymentAgent.success_metrics deployment_strategy in
  r <- generate E {| signature := "BusinessCommunicationGenerator";
                     inputs := [("ml_use_case", ml_use_case);
                                ("deployment_summary", deployment_summary);
                                ("technical_risks", technical_risks);
                                ("success_metrics", success_metrics)] |} ;;
  match r with
  | Prediction f =>
      ret (Ok {| executive_summary := f "executive_summary";
                 risk_matrix := f "risk_matrix";
                 timeline_visual := f "timeline_visual";
                 budget_justification := f "budget_justification";
                 stakeholder_talking_points := f "stakeholder_talking_points" |})
  | Failure e => ret (Ok (_generate_error_response e))
  end.
End Agent.

End BusinessCommunicationAgent.

(** ** Product owner agent (agents/po_agent.py) *)

Module POAgent.

Record PRD := {
  prd_document : string;
  status : string
}.

Definition nl : string := MLAdvisorAgent.nl.

Definition _format_ml_use_case (ml_recommendations : MLAdvisorAgent.MLRecommendation) : string :=
  let use_case := MLAdvisorAgent.ml_use_case ml_recommendations in
  nl +:+ "**Use Case**: " +:+ MLAdvisorAgent.detected_use_case use_case +:+ nl
  +:+ "**Target Variable**: " +:+ MLAdvisorAgent.target_variable use_case +:+ nl
  +:+ "**ML Readiness**: " +:+ MLAdvisorAgent.suitability_score use_case +:+ "/100" +:+ nl
  +:+ "**Reasoning**: " +:+ MLAdvisorAgent.target_reasoning use_case +:+ nl
  +:+ "**Alternative**: " +:+ MLAdvisorAgent.alternative_use_case use_case +:+ nl.

Definition _format_feature_engineering (ml_recommendations : MLAdvisorAgent.MLRecommendation)
  : string :=
  let feature_eng := MLAdvisorAgent.feature_engineering ml_recommendations in
  nl +:+ "**Feature Plan**:" +:+ nl
  +:+ slice_to 500 (MLAdvisorAgent.feature_plan feature_eng) +:+ "..." +:+ nl +:+ nl
  +:+ "**Training Strategy**:" +:+ nl
  +:+ MLAdvisorAgent.training_recommendations feature_eng +:+ nl +:+ nl
  +:+ "**MLflow Setup**:" +:+ nl
  +:+ MLAdvisorAgent.mlflow_setup feature_eng +:+ nl.

Definition _format_deployment_summary (deployment_strategy : DeploymentAgent.DeploymentStrategy)
  : string :=
  nl +:+ "**Team Requirements**: "
  +:+ slice_to 300 (DeploymentAgent.team_requirements deployment_strategy) +:+ "..." +:+ nl
  +:+ "**Timeline**: "
  +:+ slice_to 300 (DeploymentAgent.implementation_roadmap deployment_strategy) +:+ "..." +:+ nl
  +:+ "**Costs**: "
  +:+ slice_to 300 (DeploymentAgent.cost_estimation deployment_strategy) +:+ "..." +:+ nl
  +:+ "**Infrastructure**: "
  +:+ slice_to 300 (DeploymentAgent.databricks_setup deployment_strategy) +:+ "..." +:+ nl
  +:+ "**Monitoring**: "
  +:+ slice_to 200 (DeploymentAgent.monitoring_plan deployment_strategy) +:+ "..." +:+ nl.

Definition _format_business_summary
    (business_communication : BusinessCommunicationAgent.BusinessCommunication) : string :=
  nl +:+ "**Executive Summary**: "
  +:+ slice_to 400 (BusinessCommunicationAgent.executive_summary business_communication)
  +:+ "..." +:+ nl
  +:+ "**ROI Justification**: "
  +:+ slice_to 300 (BusinessCommunicationAgent.budget_justification business_communication)
  +:+ "..." +:+ nl
  +:+ "**Success Metrics**: "
  +:+ slice_to 200 (BusinessCommunicationAgent.stakeholder_talking_points business_communication)
  +:+ "..." +:+ nl.

Definition _format_quality_issues (quality_results : QualityAgent.QualityResult) : string :=
  let summary := QualityAgent.summary quality_results in
  nl +:+ "**Total Issues**: " +:+ str_int (default 0%nat (summary !! "total_issues")) +:+ nl
  +:+ "**Critical**: " +:+ str_int (default 0%nat (summary !! "critical")) +:+ nl
  +:+ "**Warnings**: " +:+ str_int (default 0%nat (summary !! "warnings")) +:+ nl
  +:+ "**Info**: " +:+ str_int (default 0%nat (summary !! "info")) +:+ nl.

Section Agent.
Variable E : Extern.

Definition generate_prd (schema_results : SchemaAgent.SchemaResult)
    (quality_results : QualityAgent.QualityResult)
    (ml_recommendations : MLAdvisorAgent.MLRecommendation)
    (deployment_strategy : DeploymentAgent.DeploymentStrategy)
    (business_communication : BusinessCommunicationAgent.BusinessCommunication)
  : M (Result PRD) :=
  let ml_use_case := _format_ml_use_case ml_recommendations in
  let feature_engineering := _format_feature_engineering ml_recommendations in
  let deployment_summary := _format_deployment_summary deployment_strategy in
  let business_summary := _format_business_summary business_communication in
  let quality_issues := _format_quality_issues quality_results in
  r <- generate E {| signature := "PRDGenerator";
                     inputs := [("ml_use_case", ml_use_case);
                                ("feature_engineering", feature_engineering);
                                ("deployment_strategy", deployment_summary);
                                ("business_summary", business_summary);
                                ("quality_issues", quality_issues)] |} ;;
  match r with
  | Prediction f => ret (Ok {| prd_document := f "prd_document"; status := "success" |})
  | Failure e =>
      ret (Ok {| prd_document := "# PRD Generation Failed" +:+ nl +:+ nl +:+ "Error: " +:+ e;
                 status := "error" |})
  end.
End Agent.

End POAgent.

(** ** Supervisor (agents/supervisor.py) *)

Module SupervisorAgent.

(** The [results] dict of [analyze_dataset]. A stage result is [None] until
    its stage has run and returned; once set it is a dict with a fixed,
    non-empty set of keys, so that it is true in a condition exactly when
    it is present. *)
Record PipelineResult := {
  status : string;
  agents_completed : list string;
  schema_analysis : option SchemaAgent.SchemaResult;
  profile_analysis : option ProfileAgent.ProfileResult;
  quality_analysis : option QualityAgent.QualityResult;
  ml_recommendations : option MLAdvisorAgent.MLRecommendation;
  deployment_strategy : option DeploymentAgent.DeploymentStrategy;
  business_communication : option BusinessCommunicationAgent.BusinessCommunication;
  errors : list string
}.

(** The agents held by [self]. *)
Record Agents := {
  schema_agent : DataFrame -> M (Result SchemaAgent.SchemaResult);
  profile_agent : DataFrame -> M (Result ProfileAgent.ProfileResult);
  quality_agent : DataFrame -> M (Result QualityAgent.QualityResult);
  ml_advisor_agent :
    SchemaAgent.SchemaResult -> ProfileAgent.ProfileResult -> QualityAgent.QualityResult ->
    M (Result MLAdvisorAgent.MLRecommendation);
  deployment_agent :
    option SchemaAgent.SchemaResult -> MLAdvisorAgent.MLRecommendation ->
    M (Result DeploymentAgent.DeploymentStrategy);
  business_communication_agent :
    MLAdvisorAgent.MLRecommendation -> DeploymentAgent.DeploymentStrategy ->
    M (Result BusinessCommunicationAgent.BusinessCommunication);
  po_agent :
    SchemaAgent.SchemaResult -> QualityAgent.QualityResult ->
    MLAdvisorAgent.MLRecommendation -> DeploymentAgent.DeploymentStrategy ->
    BusinessCommunicationAgent.BusinessCommunication -> M (Result POAgent.PRD)
}.

Definition __init__ (E : Extern) : Agents :=
  {| schema_agent := SchemaAgent.analyze E;
     profile_agent := ProfileAgent.analyze E;
     quality_agent := QualityAgent.analyze E;
     ml_advisor_agent := MLAdvisorAgent.analyze E;
     deployment_agent := DeploymentAgent.analyze E;
     business_communication_agent := BusinessCommunicationAgent.analyze E;
     po_agent := POAgent.generate_prd E |}.

Definition initial_results : PipelineResult :=
  {| status := "in_progress";
     agents_completed := [];
     schema_analysis := None;
     profile_analysis := None;
     quality_analysis := None;
     ml_recommendations := None;
     deployment_strategy := None;
     business_communication := None;
     errors := [] |}.

(** Updates of one key of [results]. *)
Definition set_status (s : string) (r : PipelineResult) : PipelineResult :=
  {| status := s;
     agents_completed := agents_completed r;
     schema_analysis := schema_analysis r;
     profile_analysis := profile_analysis r;
     quality_analysis := quality_analysis r;
     ml_recommendations := ml_recommendations r;
     deployment_strategy := deployment_strategy r;
     business_communication := business_communication r;
     errors := errors r |}.

Definition append_completed (name : string) (r : PipelineResult) : PipelineResult :=
  {| status := status r;
     agents_completed := agents_completed r ++ [name];
     schema_analysis := schema_analysis r;
     profile_analysis := profile_analysis r;
     quality_analysis := quality_analysis r;
     ml_recommendations := ml_recommendations r;
     deployment_strategy := deployment_strategy r;
     business_communication := business_communication r;
     errors := errors r |}.

Definition append_error (error_msg : string) (r : PipelineResult) : PipelineResult :=
  {| status := status r;
     agents_completed := agents_completed r;
     schema_analysis := schema_analysis r;
     profile_analysis := profile_analysis r;
     quality_analysis := quality_analysis r;
     ml_recommendations := ml_recommendations r;
     deployment_strategy := deployment_strategy r;
     business_communication := business_communication r;
     errors := errors r ++ [error_msg] |}.

Definition set_schema_analysis (v : SchemaAgent.SchemaResult) (r : PipelineResult) :=
  {| status := status r;
     agents_completed := agents_completed r;
     schema_analysis := Some v;
     profile_analysis := profile_analysis r;
     quality_analysis := quality_analysis r;
     ml_recommendations := ml_recommendations r;
     deployment_strategy := deployment_strategy r;
     business_communication := business_communication r;
     errors := errors r |}.

Definition set_profile_analysis (v : ProfileAgent.ProfileResult) (r : PipelineResult) :=
  {| status := status r;
     agents_completed := agents_completed r;
     schema_analysis := schema_analysis r;
     profile_analysis := Some v;
     quality_analysis := quality_analysis r;
     ml_recommendations := ml_recommendations r;
     deployment_strategy := deployment_strategy r;
     business_communication := business_communication r;
     errors := errors r |}.

Definition set_quality_analysis (v : QualityAgent.QualityResult) (r : PipelineResult) :=
  {| status := status r;
     agents_completed := agents_completed r;
     schema_analysis := schema_analysis r;
     profile_analysis := profile_analysis r;
     quality_analysis := Some v;
     ml_recommendations := ml_recommendations r;
     deployment_strategy := deployment_strategy r;
     business_communication := business_communication r;
     errors := errors r |}.

Definition set_ml_recommendations (v : MLAdvisorAgent.MLRecommendation) (r : PipelineResult) :=
  {| status := status r;
     agents_completed := agents_completed r;
     schema_analysis := schema_analysis r;
     profile_analysis := profile_analysis r;
     quality_analysis := quality_analysis r;
     ml_recommendations := Some v;
     deployment_strategy := deployment_strategy r;
     business_communication := business_communication r;
     errors := errors r |}.

Definition set_deployment_strategy (v : DeploymentAgent.DeploymentStrategy) (r : PipelineResult) :=
  {| status := status r;
     agents_completed := agents_completed r;
     schema_analysis := schema_analysis r;
     profile_analysis := profile_analysis r;
     quality_analysis := quality_analysis r;
     ml_recommendations := ml_recommendations r;
     deployment_strategy := Some v;
     business_communication := business_communication r;
     errors := errors r |}.

Definition set_business_communication
    (v : BusinessCommunicationAgent.BusinessCommunication) (r : PipelineResult) :=
  {| status := status r;
     agents_completed := agents_completed r;
     schema_analysis := schema_analysis r;
     profile_analysis := profile_analysis r;
     quality_analysis := quality_analysis r;
     ml_recommendations := ml_recommendations r;
     deployment_strategy := deployment_strategy r;
     business_communication := Some v;
     errors := errors r |}.

(** One [try]/[except] block of [analyze_dataset]: the stage is run; what
    it returns is stored and its name appended to [agents_completed]; what
    it raises is appended to [errors], after the label of the stage. *)
Definition run_stage {A} (stage : M (Result A)) (name label : string)
    (store : A -> PipelineResult -> PipelineResult) (results : PipelineResult)
  : M PipelineResult :=
  r <- stage ;;
  match r with
  | Ok v => ret (append_completed name (store v results))
  | Raise e => ret (append_error (label +:+ " failed: " +:+ e) results)
  end.

Section Supervisor.
Variable self : Agents.

(* Step 1: Schema Analysis *)
Definition step_schema (df : DataFrame) (results : PipelineResult) : M PipelineResult :=
  run_stage (schema_agent self df) "schema_agent" "Schema Agent" set_schema_analysis results.

(* Step 2: Statistical Profiling *)
Definition step_profile (df : DataFrame) (results : PipelineResult) : M PipelineResult :=
  run_stage (profile_agent self df) "profile_agent" "Profile Agent" set_profile_analysis results.

(* Step 3: Quality Checks *)
Definition step_quality (df : DataFrame) (results : PipelineResult) : M PipelineResult :=
  run_stage (quality_agent self df) "quality_agent" "Quality Agent" set_quality_analysis results.

(* Step 4: ML Advisor (synthesizes all previous results) *)
Definition step_ml_advisor (results : PipelineResult) : M PipelineResult :=
  match schema_analysis results, profile_analysis results, quality_analysis results with
  | Some schema_results, Some profile_results, Some quality_results =>
      run_stage (ml_advisor_agent self schema_results profile_results quality_results)
        "ml_advisor_agent" "ML Advisor Agent" set_ml_recommendations results
  | _, _, _ => ret results
  end.

(* Step 5: Deployment Strategy *)
Definition step_deployment (results : PipelineResult) : M PipelineResult :=
  match ml_recommendations results with
  | Some ml =>
      run_stage (deployment_agent self (schema_analysis results) ml)
        "deployment_agent" "Deployment Agent" set_deployment_strategy results
  | None => ret results
  end.

(* Step 6: Business Communication Materials *)
Definition step_business_communication (results : PipelineResult) : M PipelineResult :=
  match ml_recommendations results, deployment_strategy results with
  | Some ml, Some deployment =>
      run_stage (business_communication_agent self ml deployment)
        "business_communication_agent" "Business Communication Agent"
        set_business_communication results
  | _, _ => ret results
  end.

(* Update status *)
Definition update_status (results : PipelineResult) : PipelineResult :=
  if (length (errors results) =? 0)%nat
  then set_status "completed" results
  else set_status "partial_failure" results.

Definition analyze_dataset (df : DataFrame) : M PipelineResult :=
  results <- step_schema df initial_results ;;
  results <- step_profile df results ;;
  results <- step_quality df results ;;
  results <- step_ml_advisor results ;;
  results <- step_deployment results ;;
  results <- step_business_communication results ;;
  ret (update_status results).

Definition insufficient_data : POAgent.PRD :=
  {| POAgent.prd_document :=
       "# Error" +:+ POAgent.nl +:+ POAgent.nl
       +:+ "Insufficient data to generate PRD. Please complete all analysis steps first.";
     POAgent.status := "error" |}.

Definition generate_prd (results : PipelineResult) : M POAgent.PRD :=
  match schema_analysis results, quality_analysis results, ml_recommendations results,
        deployment_strategy results, business_communication results with
  | Some schema_results, Some quality_results, Some ml, Some deployment, Some business =>
      r <- po_agent self schema_results quality_results ml deployment business ;;
      match r with
      | Ok prd_result => ret prd_result
      | Raise e =>
          ret {| POAgent.prd_document :=
                   "# Error" +:+ POAgent.nl +:+ POAgent.nl +:+ "PRD generation failed: " +:+ e;
                 POAgent.status := "error" |}
      end
  | _, _, _, _, _ => ret insufficient_data
  end.
End Supervisor.

End SupervisorAgent.

(** ** Concrete collaborators and datasets, for the examples *)

Module Examples.

(** A collaborator that fails on every call. *)
Definition failing_lm : Oracle := fun _ _ => Failure "timeout".

(** A collaborator that answers every field with the same text. *)
Definition echo_lm : Oracle := fun _ _ => Prediction (fun field => "<" +:+ field +:+ ">").

(** A collaborator whose first call fails and whose later calls answer. *)
Definition first_fails_lm : Oracle :=
  fun tr c =>
    match tr with
    | [] => Failure "timeout"
    | _ => Prediction (fun field => "<" +:+ field +:+ ">")
    end.

(** Renderers that keep no digits, and reductions that give no number. *)
Definition extern_with (o : Oracle) : Extern :=
  {| lm := o;
     mean_f64 := fun _ => NaN;
     std_f64 := fun _ => NaN;
     skew_f64 := fun _ => NaN;
     memory_usage := fun _ => 0%Q;
     str_accessor_error := "Can only use .str accessor with string values!";
     str_float := fun _ => "<float>";
     format_float := fun _ _ => "<float>";
     repr_str := fun s => "'" +:+ s +:+ "'";
     str_cells := fun _ => "<list>";
     str_frame_dict := fun _ _ => "<dict>";
     str_counts_dict := fun _ => "<dict>" |}.

(** One named column and no row. *)
Definition no_rows : DataFrame := {| df_names := ["a"]; df_rows := [] |}.

(** One row, one number. *)
Definition one_row : DataFrame := {| df_names := ["a"]; df_rows := [[Num 1]] |}.

(** A numeric column, a text column with two spellings of a value, a
    missing cell and a repeated row. *)
Definition small : DataFrame :=
  {| df_names := ["amount"; "category"];
     df_rows := [[Num 1; Str "A"]; [Null; Str "a "]; [Num 1; Str "A"]; [Num 3; Str "B"]] |}.

(** A numeric column in which every cell is missing. *)
Definition all_missing : DataFrame := {| df_names := ["x"]; df_rows := [[Null]; [Null]] |}.

Definition some_schema : SchemaAgent.SchemaResult :=
  {| SchemaAgent.columns := [];
     SchemaAgent.summary :=
       {| SchemaAgent.total_columns := 0; SchemaAgent.total_rows := 0;
          SchemaAgent.memory_usage_mb := 0%Q |} |}.

(** One column of truth values with a missing cell, as [read_csv] gives
    it: an object column. *)
Definition flags : DataFrame :=
  {| df_names := ["flag"];
     df_rows := [[Boolean true]; [Boolean false]; [Null]] |}.

(** Two values of opposite sign near the largest double. *)
Definition wide : DataFrame :=
  {| df_names := ["x"];
     df_rows := [[Num (- inject_Z (17 * 10 ^ 307))]; [Num (inject_Z (17 * 10 ^ 307))]] |}.

(** One column of 160 cells, of which the first 23 are missing. *)
Definition nulls_23_of_160 : DataFrame :=
  {| df_names := ["a"];
     df_rows := replicate 23 [Null] ++ replicate 137 [Num 1] |}.

Definition some_profile : ProfileAgent.ProfileResult :=
  {| ProfileAgent.numeric_analysis := []; ProfileAgent.categorical_analysis := [] |}.

Definition some_quality : QualityAgent.QualityResult :=
  {| QualityAgent.issues_found := []; QualityAgent.summary := QualityAgent.empty_summary |}.

End Examples.

(** The supervisor with other agents downstream of the three analyses. *)
Definition with_downstream (self : SupervisorAgent.Agents)
    (ml : SchemaAgent.SchemaResult -> ProfileAgent.ProfileResult -> QualityAgent.QualityResult ->
          M (Result MLAdvisorAgent.MLRecommendation))
    (dep : option SchemaAgent.SchemaResult -> MLAdvisorAgent.MLRecommendation ->
           M (Result DeploymentAgent.DeploymentStrategy))
    (bus : MLAdvisorAgent.MLRecommendation -> DeploymentAgent.DeploymentStrategy ->
           M (Result BusinessCommunicationAgent.BusinessCommunication))
  : SupervisorAgent.Agents :=
  {| SupervisorAgent.schema_agent := SupervisorAgent.schema_agent self;
     SupervisorAgent.profile_agent := SupervisorAgent.profile_agent self;
     SupervisorAgent.quality_agent := SupervisorAgent.quality_agent self;
     SupervisorAgent.ml_advisor_agent := ml;
     SupervisorAgent.deployment_agent := dep;
     SupervisorAgent.business_communication_agent := bus;
     SupervisorAgent.po_agent := SupervisorAgent.po_agent self |}.

(** ** The properties as the specification words them *)

(** The null percentage of a column as the specification writes it,
    [round(100 * null_count / total_rows, 2)] on two Python integers: the
    double nearest to the quotient, rounded to two places. *)
Definition spec_null_percentage (null_count total_rows : nat) : float :=
  py_round2 (rnd (100 * inject_Z (Z.of_nat null_count) / inject_Z (Z.of_nat total_rows))).

(** The same as the schema agent writes it,
    [round((null_count / total_rows) * 100, 2)]. *)
Definition code_null_percentage (null_count total_rows : nat) : float :=
  py_round2 (fmul (rnd (inject_Z (Z.of_nat null_count) / inject_Z (Z.of_nat total_rows)))
                  (Fin 100)).

(** The object columns on which the quality agent asks for the [.str]
    accessor and is refused: between two and 99 distinct values, all of
    them truth values or all of them numbers. *)
Definition str_refused_column (col : string * Series) : bool :=
  let unique_count := length (Pandas.value_counts (snd col)) in
  (1 <? unique_count)%nat && (unique_count <? 100)%nat
  && str_accessor_refused (dropna (snd col)).

(** The datasets on which the quality agent returns: no object column is
    refused the accessor. *)
Definition quality_agent_returns (df : DataFrame) : bool :=
  forallb (fun col => negb (str_refused_column col)) (object_columns df).

(** The three severities that the summary of the quality agent counts. *)
Definition known_severity (i : QualityAgent.Issue) : Prop :=
  QualityAgent.severity i = "critical"
  \/ QualityAgent.severity i = "warnings"
  \/ QualityAgent.severity i = "info".

(** The generation collaborator fails on every call. *)
Definition always_fails (E : Extern) : Prop :=
  forall tr c, exists e, lm E tr c = Failure e.

(** What the quality agent puts in an issue when its generation call
    failed: the fixed action and the impact of the type of the issue. *)
Definition fallback_action (issue_type : string) : string :=
  if String.eqb issue_type "missing_values" then "Impute with median/mode or drop rows"
  else if String.eqb issue_type "duplicates" then "Remove duplicate rows"
  else if String.eqb issue_type "outliers" then "Cap outliers or flag for investigation"
  else "Standardize categorical values".

Definition fallback_impact (i : QualityAgent.Issue) : string :=
  if String.eqb (QualityAgent.type i) "missing_values" then "Fill missing values"
  else if String.eqb (QualityAgent.type i) "duplicates"
  then "Remove " +:+ str_int (QualityAgent.count i) +:+ " duplicate rows"
  else if String.eqb (QualityAgent.type i) "outliers" then "Cap extreme values"
  else "Reduce " +:+ str_int (QualityAgent.count i) +:+ " redundant categories".

Definition fallback_issue (i : QualityAgent.Issue) : Prop :=
  QualityAgent.recommended_action i = fallback_action (QualityAgent.type i)
  /\ QualityAgent.impact i = fallback_impact i.

(** An issue has one of the three severities, and its fallback values
    when the collaborator always fails. *)
Definition issue_facts (E : Extern) (i : QualityAgent.Issue) : Prop :=
  known_severity i /\ (always_fails E -> fallback_issue i).




(** The size below which the values of a numeric column are to stay for
    its order statistics to be in order: [2 ** 1023], so that the sum and
    the difference of two values are finite doubles, and [2 ** 53] in an
    [int64] column, whose values are then doubles themselves. *)
Definition value_bound (d : dtype) : Q :=
  match d with
  | Int64 => pow2 53
  | _ => pow2 1023
  end.

Definition within_bound (s : Series) : bool :=
  forallb (fun v => f_lt (f_abs v) (Fin (value_bound (infer_dtype s)))) (floats s).

(** The order that the specification asks of the five order statistics of
    a numeric column: [min <= q25 <= median <= q75 <= max], as Python
    evaluates it. *)
Definition stats_ordered (st : ProfileAgent.NumericStats) : bool :=
  f_le (ProfileAgent.min st) (ProfileAgent.q25 st)
  && f_le (ProfileAgent.q25 st) (ProfileAgent.median st)
  && f_le (ProfileAgent.median st) (ProfileAgent.q75 st)
  && f_le (ProfileAgent.q75 st) (ProfileAgent.max st).

(** ** Further code of the repository *)

(** *** The summary of a run (agents/supervisor.py, [get_summary]) *)

Module SupervisorReport.

(** [f"{n:,}"]: the decimal digits of [n], in groups of three from the
    right. *)
Fixpoint commas (k : nat) (rev_digits : list ascii) : list ascii :=
  match rev_digits with
  | [] => []
  | c :: l' =>
      if (k =? 3)%nat then ","%char :: c :: commas 1 l' else c :: commas (S k) l'
  end.

Definition format_thousands (n : nat) : string :=
  string_of_list_ascii (rev (commas 0 (rev (list_ascii_of_string (str_int n))))).

Section Report.
Variable E : Extern.

(** [get_summary] has no handler of its own: subscripting a result that is
    [None] raises out of it. *)
Definition get_summary (results : SupervisorAgent.PipelineResult) : Result string :=
  if String.eqb (SupervisorAgent.status results) "completed" then
    match SupervisorAgent.schema_analysis results with
    | None => Raise "'NoneType' object is not subscriptable"
    | Some schema =>
        match SupervisorAgent.quality_analysis results with
        | None => Raise "'NoneType' object has no attribute 'get'"
        | Some quality =>
            Ok ("
            ✅ Analysis Complete!
            
            Dataset Overview:
            - Total Rows: "
          +:+ format_thousands (SchemaAgent.total_rows (SchemaAgent.summary schema))
          +:+ "
            - Total Columns: "
          +:+ str_int (SchemaAgent.total_columns (SchemaAgent.summary schema))
          +:+ "
            - Memory Usage: "
          +:+ format_float E 2 (Fin (SchemaAgent.memory_usage_mb (SchemaAgent.summary schema)))
          +:+ " MB
            
            Quality Summary:
            - Issues Found: "
          +:+ str_int (default 0%nat (QualityAgent.summary quality !! "total_issues"))
          +:+ "
            - Critical: "
          +:+ str_int (default 0%nat (QualityAgent.summary quality !! "critical"))
          +:+ "
            - Warnings: "
          +:+ str_int (default 0%nat (QualityAgent.summary quality !! "warnings"))
          +:+ "
            
            Agents Completed: "
          +:+ join ", " (SupervisorAgent.agents_completed results)
          +:+ "
            ")
        end
    end
  else
    Ok ("⚠️ Analysis completed with errors: " +:+ join ", " (SupervisorAgent.errors results)).
End Report.

End SupervisorReport.

(** *** The configured language model (dspy_init.py) *)

Module DspyInit.

(** The module state: the flag [_configured], what [dspy.settings.lm]
    holds, and the calls of [dspy.configure] made so far, in order, each
    with the model it was given. The lock is taken by one thread at a time;
    one thread is modelled. *)
Record State := {
  _configured : bool;
  settings_lm : option string;
  configure_calls : list string
}.

Definition initial : State :=
  {| _configured := false; settings_lm := None; configure_calls := [] |}.

Definition get_configured_lm (st : State) : option string * State :=
  if _configured st then (settings_lm st, st)
  else
    (* with _lock: if not _configured: *)
    let st' := {| _configured := true;
                  settings_lm := Some "openai/gpt-4.1";
                  configure_calls := configure_calls st ++ ["openai/gpt-4.1"] |} in
    (settings_lm st', st').

(** [n] calls in a row: what each returned, and the state after them. *)
Fixpoint calls (n : nat) (st : State) : list (option string) * State :=
  match n with
  | O => ([], st)
  | S n' =>
      let (r, st1) := get_configured_lm st in
      let (rs, st2) := calls n' st1 in
      (r :: rs, st2)
  end.

End DspyInit.

(** *** What the page offers (app.py) *)

Module App.

(** The PRD section is shown when
    [results.get('business_communication') and results['status'] == 'completed']. *)
Definition prd_offered (results : SupervisorAgent.PipelineResult) : bool :=
  match SupervisorAgent.business_communication results with
  | Some _ => String.eqb (SupervisorAgent.status results) "completed"
  | None => false
  end.

End App.

(** ** Notions used to state the further properties *)

(** What a stage left: its result, or nothing when it raised. *)
Definition returned {A} (r : Result A) : option A :=
  match r with
  | Ok a => Some a
  | Raise _ => None
  end.

Definition name_if_present {A} (o : option A) (name : string) : list string :=
  match o with
  | Some _ => [name]
  | None => []
  end.

(** The names of the stages whose result is present, in the order of the
    pipeline. *)
Definition present_stages (r : SupervisorAgent.PipelineResult) : list string :=
  name_if_present (SupervisorAgent.schema_analysis r) "schema_agent"
  ++ name_if_present (SupervisorAgent.profile_analysis r) "profile_agent"
  ++ name_if_present (SupervisorAgent.quality_analysis r) "quality_agent"
  ++ name_if_present (SupervisorAgent.ml_recommendations r) "ml_advisor_agent"
  ++ name_if_present (SupervisorAgent.deployment_strategy r) "deployment_agent"
  ++ name_if_present (SupervisorAgent.business_communication r) "business_communication_agent".

(** The labels under which the supervisor records an exception. *)
Definition stage_labels : list string :=
  ["Schema Agent"; "Profile Agent"; "Quality Agent"; "ML Advisor Agent";
   "Deployment Agent"; "Business Communication Agent"].

(** The value of an input field of a call. *)
Fixpoint assoc (k : string) (l : list (string * string)) : option string :=
  match l with
  | [] => None
  | (k', v) :: l' => if String.eqb k k' then Some v else assoc k l'
  end.

Definition input_of (k : string) (c : Call) : option string := assoc k (inputs c).

(** The number of issues of a severity. *)
Definition count_severity (sev : string) (issues : list QualityAgent.Issue) : nat :=
  length (filter (fun i => QualityAgent.severity i = sev) issues).

(** A schema result cut to its first [n] columns. *)
Definition truncate_columns (n : nat) (s : SchemaAgent.SchemaResult) : SchemaAgent.SchemaResult :=
  {| SchemaAgent.columns := take n (SchemaAgent.columns s);
     SchemaAgent.summary := SchemaAgent.summary s |}.

(** Supervisors in which a stage downstream of the analyses raises. *)
Definition raising_ml_advisor (E : Extern) : SupervisorAgent.Agents :=
  with_downstream (SupervisorAgent.__init__ E)
    (fun _ _ _ => ret (Raise "no target column"))
    (DeploymentAgent.analyze E) (BusinessCommunicationAgent.analyze E).

Definition raising_deployment (E : Extern) : SupervisorAgent.Agents :=
  with_downstream (SupervisorAgent.__init__ E)
    (MLAdvisorAgent.analyze E)
    (fun _ _ => ret (Raise "no plan"))
    (BusinessCommunicationAgent.analyze E).

(** The severity of a column with [nulls] missing cells out of [rows], by
    the thresholds of 50 and 20 percent, in whole numbers. *)
Definition missing_severity (nulls rows : nat) : string :=
  if (50 * rows <? 100 * nulls)%nat then "critical"
  else if (20 * rows <? 100 * nulls)%nat then "warnings"
  else "info".

(** A call to the recommender that is about an issue. *)
Definition recommends (i : QualityAgent.Issue) (c : Call) : Prop :=
  signature c = "QualityRecommender"
  /\ input_of "issue_type" c = Some (QualityAgent.type i)
  /\ input_of "column_name" c = Some (QualityAgent.column i)
  /\ input_of "issue_description" c = Some (QualityAgent.description i).

(** The columns of truth values, which [select_dtypes] puts neither among
    the numbers nor among the objects. *)
Definition is_bool_dtype (d : dtype) : bool :=
  match d with
  | BoolT => true
  | _ => false
  end.

Definition bool_columns (df : DataFrame) : list (string * Series) :=
  filter (fun c => is_bool_dtype (infer_dtype (snd c)) = true) (Pandas.columns df).


(** What every issue of the quality agent satisfies, on a dataset of [rows]
    rows: it counts at least one and at most [rows] things, has one of the
    three severities, and its percentage, when it has one, is a number from 0
    to 100. Only the issues about categories have no percentage. *)
Definition well_formed_issue (rows : nat) (i : QualityAgent.Issue) : Prop :=
  (1 <= QualityAgent.count i <= rows)%nat
  /\ known_severity i
  /\ match QualityAgent.percentage i with
     | Some (Fin p) => (0 <= p)%Q /\ (p <= 100)%Q
     | Some _ => False
     | None => QualityAgent.type i = "inconsistent_categories"
     end.

(** The order of [value_counts]: the larger count first. *)
Definition by_count_desc (a b : cell * nat) : Prop := (snd b <= snd a)%nat.

(** A line of the column summary of the ML advisor without the mark of a
    unique identifier. *)
Definition column_line (E : Extern) (col : SchemaAgent.ColumnProfile) : string :=
  let line :=
    "- " +:+ SchemaAgent.column_name col +:+ ": " +:+ SchemaAgent.business_type col
    +:+ ", " +:+ SchemaAgent.pandas_dtype col in
  let line :=
    if (SchemaAgent.unique_count col <? 20)%nat
    then line +:+ ", " +:+ str_int (SchemaAgent.unique_count col) +:+ " categories"
    else line in
  if f_gt (SchemaAgent.null_percentage col) (Fin 5)
  then line +:+ ", " +:+ str_float E (SchemaAgent.null_percentage col) +:+ "% nulls"
  else line.

(** * Properties *)

(** ** The supervisor *)

Section SupervisorFacts.
Import SupervisorAgent.
Variable self : Agents.

Lemma bind_eq {A B} (m : M A) (k : A -> M B) tr :
  LM.bind m k tr = k (fst (m tr)) (snd (m tr)).
Proof. unfold LM.bind. destruct (m tr); reflexivity. Qed.

Lemma analyze_dataset_is_update_status df tr :
  exists results, fst (analyze_dataset self df tr) = update_status results.
Proof.
  unfold analyze_dataset. rewrite !bind_eq. eexists. reflexivity.
Qed.

Lemma update_status_errors results : errors (update_status results) = errors results.
Proof. unfold update_status. destruct (_ =? _)%nat; reflexivity. Qed.

Lemma update_status_status results :
  status (update_status results)
  = match errors results with [] => "completed" | _ => "partial_failure" end.
Proof. unfold update_status. destruct (errors results); reflexivity. Qed.
End SupervisorFacts.

(** C3. Whatever the agents do, the result of [analyze_dataset] has status
    "completed" exactly when its list of errors is empty and
    "partial_failure" exactly when it is not; it is never "failed" and never
    still "in_progress". *)
Theorem analyze_dataset_final_status :
  forall (self : SupervisorAgent.Agents) (df : DataFrame) (tr : list Call),
    let r := fst (SupervisorAgent.analyze_dataset self df tr) in
    (SupervisorAgent.status r = "completed" <-> SupervisorAgent.errors r = [])
    /\ (SupervisorAgent.status r = "partial_failure" <-> SupervisorAgent.errors r <> [])
    /\ (SupervisorAgent.status r = "completed" \/ SupervisorAgent.status r = "partial_failure")
    /\ SupervisorAgent.status r <> "failed"
    /\ SupervisorAgent.status r <> "in_progress".
Proof.
  intros self df tr r.
  destruct (analyze_dataset_is_update_status self df tr) as [r0 Hr]. fold r in Hr.
  rewrite Hr, update_status_status, update_status_errors.
  destruct (SupervisorAgent.errors r0) as [|e es].
  - repeat split; auto; try discriminate. intros H; contradiction.
  - repeat split; auto; try discriminate.
Qed.

(** C1. If the schema stage raises, then the ML advisor, the deployment and
    the business communication stages are not run (the result and the log of
    calls are the same whatever agents stand there), their names are not in
    [agents_completed], their results stay absent, and the final status is
    "partial_failure". *)
Theorem schema_failure_gates_downstream :
  forall (self : SupervisorAgent.Agents) (df : DataFrame) (tr tr1 : list Call) (msg : string),
    SupervisorAgent.schema_agent self df tr = (Raise msg, tr1) ->
    let r := fst (SupervisorAgent.analyze_dataset self df tr) in
    (forall ml dep bus,
        SupervisorAgent.analyze_dataset (with_downstream self ml dep bus) df tr
        = SupervisorAgent.analyze_dataset self df tr)
    /\ ("ml_advisor_agent" ∉ SupervisorAgent.agents_completed r)
    /\ ("deployment_agent" ∉ SupervisorAgent.agents_completed r)
    /\ ("business_communication_agent" ∉ SupervisorAgent.agents_completed r)
    /\ SupervisorAgent.schema_analysis r = None
    /\ SupervisorAgent.ml_recommendations r = None
    /\ SupervisorAgent.deployment_strategy r = None
    /\ SupervisorAgent.business_communication r = None
    /\ SupervisorAgent.status r = "partial_failure".
Proof.
  intros self df tr tr1 msg Hraise r.
  assert (Hnot : forall (x a b : string), x <> a -> x <> b -> x ∉ [a; b]).
  { intros x a b Ha Hb Hin. apply elem_of_cons in Hin as [->|Hin]; [congruence|].
    apply elem_of_cons in Hin as [->|Hin]; [congruence|]. by apply elem_of_nil in Hin. }
  split.
  { intros ml dep bus.
    unfold SupervisorAgent.analyze_dataset, SupervisorAgent.step_schema,
      SupervisorAgent.step_profile, SupervisorAgent.step_quality,
      SupervisorAgent.step_ml_advisor, SupervisorAgent.step_deployment,
      SupervisorAgent.step_business_communication, SupervisorAgent.run_stage,
      LM.bind, LM.ret.
    simpl. rewrite Hraise.
    destruct (SupervisorAgent.profile_agent self df tr1) as [[p|e2] tr2];
      destruct (SupervisorAgent.quality_agent self df tr2) as [[q|e3] tr3];
      reflexivity. }
  subst r.
  unfold SupervisorAgent.analyze_dataset, SupervisorAgent.step_schema,
    SupervisorAgent.step_profile, SupervisorAgent.step_quality,
    SupervisorAgent.step_ml_advisor, SupervisorAgent.step_deployment,
    SupervisorAgent.step_business_communication, SupervisorAgent.run_stage,
    LM.bind, LM.ret.
  rewrite Hraise.
  destruct (SupervisorAgent.profile_agent self df tr1) as [[p|e2] tr2];
    destruct (SupervisorAgent.quality_agent self df tr2) as [[q|e3] tr3];
    cbn; repeat split; try reflexivity;
    try (apply Hnot; discriminate);
    try (intros Hin; apply elem_of_cons in Hin as [Hin|Hin]; [discriminate|];
         by apply elem_of_nil in Hin);
    try (intros Hin; by apply elem_of_nil in Hin).
Qed.

(** C1 at a dataset of one named column and no row, where the schema stage
    raises a division by zero. *)
Lemma schema_failure_gates_downstream_witness :
  let self := SupervisorAgent.__init__ (Examples.extern_with Examples.failing_lm) in
  let r := fst (SupervisorAgent.analyze_dataset self Examples.no_rows []) in
  fst (SupervisorAgent.schema_agent self Examples.no_rows []) = Raise "division by zero"
  /\ SupervisorAgent.agents_completed r = ["profile_agent"; "quality_agent"]
  /\ SupervisorAgent.errors r = ["Schema Agent failed: division by zero"]
  /\ SupervisorAgent.ml_recommendations r = None
  /\ SupervisorAgent.status r = "partial_failure".
Proof.
  intros self r.
  pose proof (schema_failure_gates_downstream self Examples.no_rows []
                (snd (SupervisorAgent.schema_agent self Examples.no_rows []))
                "division by zero" eq_refl) as H.
  split; [reflexivity|]. split; [reflexivity|]. split; [reflexivity|].
  split; [apply H | apply H].
Defined.

(** C10. When at least one of the five results that the PRD needs is absent,
    [generate_prd] returns the fixed error result, without an exception and
    without a call: the log is unchanged and the answer does not depend on
    the agents. *)
Theorem generate_prd_insufficient_data :
  forall (self : SupervisorAgent.Agents) (results : SupervisorAgent.PipelineResult)
         (tr : list Call),
    SupervisorAgent.schema_analysis results = None
    \/ SupervisorAgent.quality_analysis results = None
    \/ SupervisorAgent.ml_recommendations results = None
    \/ SupervisorAgent.deployment_strategy results = None
    \/ SupervisorAgent.business_communication results = None ->
    SupervisorAgent.generate_prd self results tr
    = ({| POAgent.prd_document :=
            "# Error" +:+ POAgent.nl +:+ POAgent.nl
            +:+ "Insufficient data to generate PRD. Please complete all analysis steps first.";
          POAgent.status := "error" |}, tr).
Proof.
  intros self results tr H.
  unfold SupervisorAgent.generate_prd.
  destruct (SupervisorAgent.schema_analysis results);
    destruct (SupervisorAgent.quality_analysis results);
    destruct (SupervisorAgent.ml_recommendations results);
    destruct (SupervisorAgent.deployment_strategy results);
    destruct (SupervisorAgent.business_communication results);
    try reflexivity.
  destruct H as [H|[H|[H|[H|H]]]]; discriminate.
Qed.

(** C10 on the result of a run in which the schema stage raised: the PRD is
    refused and no call is made. *)
Lemma generate_prd_insufficient_data_witness :
  let self := SupervisorAgent.__init__ (Examples.extern_with Examples.echo_lm) in
  let results := fst (SupervisorAgent.analyze_dataset self Examples.no_rows []) in
  SupervisorAgent.schema_analysis results = None
  /\ POAgent.status (fst (SupervisorAgent.generate_prd self results [])) = "error"
  /\ snd (SupervisorAgent.generate_prd self results []) = [].
Proof.
  intros self results.
  assert (Hs : SupervisorAgent.schema_analysis results = None) by reflexivity.
  split; [exact Hs|].
  rewrite (generate_prd_insufficient_data self results [] (or_introl Hs)).
  split; reflexivity.
Defined.

(** ** The ML advisor *)

(** C8. When the first call (use-case detection) fails, the second call
    (feature planning) is still made, with the inputs
    [target_variable = "Unknown"] and [ml_use_case = "Unable to detect"];
    the use case of the returned record is the sentinel of the first call,
    and its feature engineering part is what the second call gives, or the
    sentinel of the second call when that one fails too. *)
Theorem ml_advisor_first_call_failure :
  forall (E : Extern) (schema_results : SchemaAgent.SchemaResult)
         (profile_results : ProfileAgent.ProfileResult)
         (quality_results : QualityAgent.QualityResult) (tr : list Call) (e1 : string),
    let c1 := MLAdvisorAgent.detector_call E schema_results profile_results quality_results in
    let c2 := MLAdvisorAgent.planner_call E schema_results profile_results
                "Unknown" "Unable to detect" in
    lm E tr c1 = Failure e1 ->
    snd (MLAdvisorAgent.analyze E schema_results profile_results quality_results tr)
    = tr ++ [c1; c2]
    /\ signature c2 = "FeatureEngineeringPlanner"
    /\ In ("target_variable", "Unknown") (inputs c2)
    /\ In ("ml_use_case", "Unable to detect") (inputs c2)
    /\ exists rec,
        fst (MLAdvisorAgent.analyze E schema_results profile_results quality_results tr) = Ok rec
        /\ MLAdvisorAgent.ml_use_case rec
           = {| MLAdvisorAgent.detected_use_case := "Unable to detect";
                MLAdvisorAgent.target_variable := "Unknown";
                MLAdvisorAgent.target_reasoning := "Error: " +:+ e1;
                MLAdvisorAgent.suitability_score := "0";
                MLAdvisorAgent.alternative_use_case := "N/A" |}
        /\ MLAdvisorAgent.feature_engineering rec
           = match lm E (tr ++ [c1]) c2 with
             | Prediction f =>
                 {| MLAdvisorAgent.feature_plan := f "feature_plan";
                    MLAdvisorAgent.training_recommendations := f "training_recommendations";
                    MLAdvisorAgent.mlflow_setup := f "mlflow_setup" |}
             | Failure e2 =>
                 {| MLAdvisorAgent.feature_plan := "Error generating plan: " +:+ e2;
                    MLAdvisorAgent.training_recommendations :=
                      "Unable to generate recommendations";
                    MLAdvisorAgent.mlflow_setup :=
                      "Unable to generate MLflow recommendations" |}
             end.
Proof.
  intros E s p q tr e1 c1 c2 Hfail.
  unfold MLAdvisorAgent.analyze, LM.bind, LM.ret, generate.
  fold c1. rewrite Hfail. cbn [MLAdvisorAgent.target_variable MLAdvisorAgent.detected_use_case].
  fold c2. cbn [fst snd].
  split; [by rewrite <- app_assoc|].
  split; [reflexivity|].
  split; [cbn; tauto|].
  split; [cbn; tauto|].
  eexists. split; [reflexivity|]. split; reflexivity.
Qed.

(** C8 with a collaborator whose first call fails and whose second call
    answers. *)
Lemma ml_advisor_first_call_failure_witness :
  let E := Examples.extern_with Examples.first_fails_lm in
  let r := MLAdvisorAgent.analyze E Examples.some_schema Examples.some_profile
             Examples.some_quality [] in
  lm E [] (MLAdvisorAgent.detector_call E Examples.some_schema Examples.some_profile
             Examples.some_quality) = Failure "timeout"
  /\ length (snd r) = 2%nat
  /\ exists rec,
      fst r = Ok rec
      /\ MLAdvisorAgent.target_variable (MLAdvisorAgent.ml_use_case rec) = "Unknown"
      /\ MLAdvisorAgent.feature_plan (MLAdvisorAgent.feature_engineering rec) = "<feature_plan>".
Proof.
  intros E r.
  destruct (ml_advisor_first_call_failure E Examples.some_schema Examples.some_profile
              Examples.some_quality [] "timeout" eq_refl)
    as (Hlog & _ & _ & _ & rec & Hrec & Huc & Hfe).
  split; [reflexivity|].
  split; [subst r; rewrite Hlog; reflexivity|].
  exists rec. split; [exact Hrec|]. split; [by rewrite Huc|by rewrite Hfe].
Defined.

(** The other direction: when the first call answers and the second one
    fails, the use case is the one detected and only the feature engineering
    part carries sentinels. *)
Lemma ml_advisor_second_call_failure :
  forall (E : Extern) (schema_results : SchemaAgent.SchemaResult)
         (profile_results : ProfileAgent.ProfileResult)
         (quality_results : QualityAgent.QualityResult) (tr : list Call)
         (f : string -> string) (e2 : string),
    let c1 := MLAdvisorAgent.detector_call E schema_results profile_results quality_results in
    let c2 := MLAdvisorAgent.planner_call E schema_results profile_results
                (f "target_variable") (f "detected_use_case") in
    lm E tr c1 = Prediction f ->
    lm E (tr ++ [c1]) c2 = Failure e2 ->
    MLAdvisorAgent.analyze E schema_results profile_results quality_results tr
    = (Ok {| MLAdvisorAgent.ml_use_case :=
               {| MLAdvisorAgent.detected_use_case := f "detected_use_case";
                  MLAdvisorAgent.target_variable := f "target_variable";
                  MLAdvisorAgent.target_reasoning := f "target_reasoning";
                  MLAdvisorAgent.suitability_score := f "suitability_score";
                  MLAdvisorAgent.alternative_use_case := f "alternative_use_case" |};
             MLAdvisorAgent.feature_engineering :=
               {| MLAdvisorAgent.feature_plan := "Error generating plan: " +:+ e2;
                  MLAdvisorAgent.training_recommendations :=
                    "Unable to generate recommendations";
                  MLAdvisorAgent.mlflow_setup :=
                    "Unable to generate MLflow recommendations" |} |},
       (tr ++ [c1]) ++ [c2]).
Proof.
  intros E s p q tr f e2 c1 c2 H1 H2.
  unfold MLAdvisorAgent.analyze, LM.bind, LM.ret, generate.
  fold c1. rewrite H1. cbn [MLAdvisorAgent.target_variable MLAdvisorAgent.detected_use_case].
  fold c2. rewrite H2. reflexivity.
Qed.

(** The dispatch on the use case: a label with the word "classification"
    in it, in any case of the letters, selects the classification
    paragraph. *)
Example use_case_instructions_binary_classification :
  contains "**Classification Focus:**"
    (MLAdvisorAgent._get_use_case_instructions "Binary Classification") = true
  /\ contains "**Regression Focus:**"
       (MLAdvisorAgent._get_use_case_instructions "Binary Classification") = false.
Proof. split; vm_compute; reflexivity. Qed.

(** ** The schema agent *)

Lemma for_each_try_first_raise {A B} (f : A -> M (Result B)) a l tr msg :
  fst (f a tr) = Raise msg -> fst (for_each_try f (a :: l) tr) = Raise msg.
Proof.
  intros H. cbn [for_each_try]. rewrite bind_eq, H. reflexivity.
Qed.

Lemma _analyze_column_without_rows E df col tr :
  len df = 0%nat -> fst (SchemaAgent._analyze_column E df col tr) = Raise "division by zero".
Proof.
  intros H. unfold SchemaAgent._analyze_column. rewrite bind_eq, H.
  unfold generate. cbn [fst snd truediv]. destruct (lm E tr _); reflexivity.
Qed.

(** Without rows and with a column, the schema agent raises. *)
Lemma schema_agent_without_rows E df tr :
  len df = 0%nat -> df_names df <> [] ->
  fst (SchemaAgent.analyze E df tr) = Raise "division by zero".
Proof.
  intros Hlen Hnames. unfold SchemaAgent.analyze. rewrite bind_eq.
  unfold Pandas.columns. destruct (df_names df) as [|name names]; [congruence|].
  cbn [imap]. erewrite for_each_try_first_raise; [reflexivity|].
  by apply _analyze_column_without_rows.
Qed.

(** C7. On a dataset with a named column and no row, [SchemaAgent.analyze]
    does not complete: the null percentage divides by the number of rows,
    and the division by zero is raised out of the agent. *)
Theorem schema_agent_raises_without_rows :
  forall (E : Extern) (tr : list Call),
    fst (SchemaAgent.analyze E Examples.no_rows tr) = Raise "division by zero".
Proof.
  intros E tr. apply schema_agent_without_rows; [reflexivity | discriminate].
Qed.

(** ** Rounding to binary64 *)

Section Binary64.
Local Open Scope Q_scope.

Lemma pow2_pos (e : Z) : 0 < pow2 e.
Proof. apply Qpower_0_lt. reflexivity. Qed.

Lemma pow2_add (a b : Z) : pow2 (a + b) == pow2 a * pow2 b.
Proof. apply Qpower_plus. discriminate. Qed.

Lemma pow2_le (a b : Z) : (a <= b)%Z -> pow2 a <= pow2 b.
Proof. intros H. apply Qpower_le_compat_l; [exact H | discriminate]. Qed.

Lemma pow2_lt (a b : Z) : (a < b)%Z -> pow2 a < pow2 b.
Proof. intros H. apply Qpower_lt_compat_l; [exact H | reflexivity]. Qed.

Lemma pow2_lt_inv (a b : Z) : pow2 a < pow2 b -> (a < b)%Z.
Proof. intros H. eapply Qpower_lt_compat_l_inv; [exact H | reflexivity]. Qed.

Lemma pow2_Z (e : Z) : (0 <= e)%Z -> pow2 e == inject_Z (2 ^ e).
Proof. intros H. unfold pow2. rewrite Zpower_Qpower by exact H. reflexivity. Qed.

Lemma pow2_succ (e : Z) : pow2 (e + 1) == 2 * pow2 e.
Proof. rewrite pow2_add. change (pow2 1) with 2. ring. Qed.

Lemma pow2_pred (e : Z) : pow2 (e - 1) == (1 # 2) * pow2 e.
Proof.
  assert (H : pow2 e == 2 * pow2 (e - 1)).
  { rewrite <- pow2_succ. replace (e - 1 + 1)%Z with e by lia. reflexivity. }
  rewrite H. ring.
Qed.

Lemma Qabs_num_den (x : Q) : Qabs x == inject_Z (Z.abs (Qnum x)) / inject_Z (Zpos (Qden x)).
Proof.
  destruct x as [n d]. unfold Qabs. cbn [Qnum Qden].
  rewrite (Qmake_Qdiv (Z.abs n) d). reflexivity.
Qed.

Lemma mag_spec (x : Q) : ~ x == 0 -> pow2 (mag x) <= Qabs x /\ Qabs x < pow2 (mag x + 1).
Proof.
  intros Hx. unfold mag.
  set (n := Z.abs (Qnum x)). set (d := Zpos (Qden x)).
  assert (Hn : (0 < n)%Z).
  { subst n. destruct x as [xn xd]. unfold Qeq in Hx. cbn in *. lia. }
  assert (Hd : (0 < d)%Z) by (subst d; lia).
  destruct (Z.log2_spec n Hn) as [Hn1 Hn2]. destruct (Z.log2_spec d Hd) as [Hd1 Hd2].
  pose proof (Z.log2_nonneg n) as Hln. pose proof (Z.log2_nonneg d) as Hld.
  set (ln := Z.log2 n) in *. set (ld := Z.log2 d) in *.
  assert (Habs : Qabs x == inject_Z n / inject_Z d) by apply Qabs_num_den.
  assert (Hdq : 0 < inject_Z d) by (change 0 with (inject_Z 0); rewrite <- Zlt_Qlt; lia).
  assert (Hup : Qabs x < pow2 (ln - ld + 1)).
  { rewrite Habs. apply Qlt_shift_div_r; [exact Hdq|].
    replace (ln - ld + 1)%Z with ((ln + 1) + - ld)%Z by lia.
    rewrite pow2_add. unfold pow2 at 2. rewrite Qpower_opp. fold (pow2 ld).
    rewrite (pow2_Z (ln + 1)) by lia. rewrite (pow2_Z ld) by lia.
    replace (Z.succ ln) with (ln + 1)%Z in Hn2 by lia.
    assert (H1 : inject_Z n < inject_Z (2 ^ (ln + 1))) by (rewrite <- Zlt_Qlt; lia).
    assert (H2 : inject_Z (2 ^ ld) <= inject_Z d) by (rewrite <- Zle_Qle; lia).
    assert (H3 : 0 < inject_Z (2 ^ ld)).
    { change 0 with (inject_Z 0). rewrite <- Zlt_Qlt. apply Z.pow_pos_nonneg; lia. }
    assert (H4 : 0 < inject_Z (2 ^ (ln + 1))).
    { change 0 with (inject_Z 0). rewrite <- Zlt_Qlt. apply Z.pow_pos_nonneg; lia. }
    set (A := inject_Z (2 ^ (ln + 1))) in *. set (B := inject_Z (2 ^ ld)) in *.
    set (D := inject_Z d) in *. set (N := inject_Z n) in *.
    assert (HR : A * / B * D == A * (D / B)) by (field; lra).
    assert (H5 : 1 <= D / B) by (apply Qle_shift_div_l; lra).
    rewrite HR. nra. }
  assert (Hlow : pow2 (ln - ld - 1) <= Qabs x).
  { rewrite Habs. apply Qle_shift_div_l; [exact Hdq|].
    replace (ln - ld - 1)%Z with (ln + - (ld + 1))%Z by lia.
    rewrite pow2_add. unfold pow2 at 2. rewrite Qpower_opp. fold (pow2 (ld + 1)).
    rewrite (pow2_Z ln) by lia. rewrite (pow2_Z (ld + 1)) by lia.
    replace (Z.succ ld) with (ld + 1)%Z in Hd2 by lia.
    assert (H1 : inject_Z (2 ^ ln) <= inject_Z n) by (rewrite <- Zle_Qle; lia).
    assert (H2 : inject_Z d <= inject_Z (2 ^ (ld + 1))) by (rewrite <- Zle_Qle; lia).
    assert (H3 : 0 < inject_Z (2 ^ (ld + 1))).
    { change 0 with (inject_Z 0). rewrite <- Zlt_Qlt. apply Z.pow_pos_nonneg; lia. }
    assert (H4 : 0 < inject_Z (2 ^ ln)).
    { change 0 with (inject_Z 0). rewrite <- Zlt_Qlt. apply Z.pow_pos_nonneg; lia. }
    set (A := inject_Z (2 ^ ln)) in *. set (B := inject_Z (2 ^ (ld + 1))) in *.
    set (D := inject_Z d) in *. set (N := inject_Z n) in *.
    assert (HR : A * / B * D == A * (D / B)) by (field; lra).
    assert (H5 : D / B <= 1) by (apply Qle_shift_div_r; lra).
    assert (H6 : 0 <= D / B) by (apply Qle_shift_div_l; lra).
    rewrite HR. nra. }
  destruct (Qle_bool (pow2 (ln - ld)) (Qabs x)) eqn:Hk.
  - apply Qle_bool_iff in Hk. split; assumption.
  - assert (Hk' : Qabs x < pow2 (ln - ld)).
    { apply Qnot_le_lt. intros H. apply Qle_bool_iff in H. congruence. }
    split; [exact Hlow|]. replace (ln - ld - 1 + 1)%Z with (ln - ld)%Z by lia. exact Hk'.
Qed.

Lemma mag_unique (x : Q) (e : Z) : pow2 e <= Qabs x -> Qabs x < pow2 (e + 1) -> mag x = e.
Proof.
  intros H1 H2.
  assert (Hx : ~ x == 0).
  { intros H0. assert (Ha : Qabs x == 0) by (rewrite H0; reflexivity).
    pose proof (pow2_pos e). lra. }
  destruct (mag_spec x Hx) as [G1 G2].
  assert (A : (mag x < e + 1)%Z) by (apply pow2_lt_inv; lra).
  assert (B : (e < mag x + 1)%Z) by (apply pow2_lt_inv; lra).
  lia.
Qed.

Lemma mag_comp (x y : Q) : ~ x == 0 -> x == y -> mag x = mag y.
Proof.
  intros Hx Hxy. symmetry. destruct (mag_spec x Hx) as [H1 H2].
  apply mag_unique; rewrite <- Hxy; assumption.
Qed.

Lemma mag_opp (x : Q) : mag (- x) = mag x.
Proof.
  destruct x as [n d]. unfold mag, Qabs, Qopp. cbn [Qnum Qden].
  rewrite !Z.abs_opp. reflexivity.
Qed.

Lemma mag_le (x y : Q) : ~ x == 0 -> Qabs x <= Qabs y -> (mag x <= mag y)%Z.
Proof.
  intros Hx Hxy.
  assert (Hy : ~ y == 0).
  { intros H0. assert (Ha : Qabs y == 0) by (rewrite H0; reflexivity).
    destruct (mag_spec x Hx) as [H1 _]. pose proof (pow2_pos (mag x)). lra. }
  destruct (mag_spec x Hx) as [H1 H2]. destruct (mag_spec y Hy) as [G1 G2].
  assert (A : (mag x < mag y + 1)%Z) by (apply pow2_lt_inv; lra).
  lia.
Qed.

(** *** Rounding to an integer *)

Lemma round_half_even_comp (x y : Q) : x == y -> round_half_even x = round_half_even y.
Proof.
  intros H. unfold round_half_even.
  rewrite (Qfloor_comp _ _ H).
  assert (Hc : (x - inject_Z (Qfloor y) ?= 1 # 2)%Q = (y - inject_Z (Qfloor y) ?= 1 # 2)%Q).
  { apply Qcompare_comp; [by rewrite H | reflexivity]. }
  by rewrite Hc.
Qed.

Lemma round_half_even_near (x : Q) :
  (Qfloor x <= round_half_even x <= Qfloor x + 1)%Z.
Proof.
  unfold round_half_even. destruct (Qcompare _ _); [destruct (Z.even _)| |]; lia.
Qed.

Lemma round_half_even_monotone (x y : Q) :
  (x <= y)%Q -> (round_half_even x <= round_half_even y)%Z.
Proof.
  intros Hxy. pose proof (Qfloor_resp_le _ _ Hxy) as Hfl.
  pose proof (round_half_even_near x) as Hx. pose proof (round_half_even_near y) as Hy.
  destruct (Z.eq_dec (Qfloor x) (Qfloor y)) as [Heq|Hne]; [|lia].
  unfold round_half_even in *. rewrite Heq in *.
  destruct (Qcompare_spec (x - inject_Z (Qfloor y)) (1 # 2));
    destruct (Qcompare_spec (y - inject_Z (Qfloor y)) (1 # 2));
    try destruct (Z.even (Qfloor y)); try lia; exfalso; lra.
Qed.

Lemma round_half_even_Z (k : Z) : round_half_even (inject_Z k) = k.
Proof.
  unfold round_half_even. rewrite Qfloor_Z.
  destruct (Qcompare_spec (inject_Z k - inject_Z k) (1 # 2)); [exfalso; lra | reflexivity | exfalso; lra].
Qed.

(** The rounded value is within a half of the number. *)
Lemma round_half_even_half (x : Q) :
  x - (1 # 2) <= inject_Z (round_half_even x) /\ inject_Z (round_half_even x) <= x + (1 # 2).
Proof.
  pose proof (Qfloor_le x) as Hfl. pose proof (Qlt_floor x) as Hlt.
  rewrite inject_Z_plus in Hlt. change (inject_Z 1) with 1 in Hlt.
  unfold round_half_even.
  destruct (Qcompare_spec (x - inject_Z (Qfloor x)) (1 # 2)) as [He|Hl|Hg].
  - destruct (Z.even (Qfloor x)).
    + split; lra.
    + rewrite inject_Z_plus. change (inject_Z 1) with 1. split; lra.
  - split; lra.
  - rewrite inject_Z_plus. change (inject_Z 1) with 1. split; lra.
Qed.

Lemma round_half_even_opp (x : Q) : round_half_even (- x) = (- round_half_even x)%Z.
Proof.
  pose proof (Qfloor_le x) as Hfl. pose proof (Qlt_floor x) as Hlt.
  rewrite inject_Z_plus in Hlt. change (inject_Z 1) with 1 in Hlt.
  destruct (Qeq_dec x (inject_Z (Qfloor x))) as [Hint|Hfrac].
  - rewrite (round_half_even_comp x _ Hint).
    assert (Ho : - x == inject_Z (- Qfloor x)) by (rewrite inject_Z_opp, <- Hint; reflexivity).
    rewrite (round_half_even_comp _ _ Ho), !round_half_even_Z. reflexivity.
  - assert (Hfo : Qfloor (- x) = (- Qfloor x - 1)%Z).
    { assert (A : inject_Z (- Qfloor x - 1) <= - x).
      { unfold Zminus. rewrite inject_Z_plus, !inject_Z_opp. change (inject_Z 1) with 1. lra. }
      assert (B : - x < inject_Z (- Qfloor x - 1 + 1)).
      { replace (- Qfloor x - 1 + 1)%Z with (- Qfloor x)%Z by lia. rewrite inject_Z_opp.
        assert (inject_Z (Qfloor x) < x).
        { apply Qle_lteq in Hfl as [Hl|He]; [exact Hl|]. exfalso. apply Hfrac. by symmetry. }
        lra. }
      pose proof (Qfloor_resp_le _ _ A) as A'. rewrite Qfloor_Z in A'.
      assert (B' : (Qfloor (- x) < - Qfloor x - 1 + 1)%Z).
      { rewrite Zlt_Qlt. eapply Qle_lt_trans; [apply Qfloor_le | exact B]. }
      lia. }
    unfold round_half_even. rewrite Hfo.
    assert (Hd : - x - inject_Z (- Qfloor x - 1) == 1 - (x - inject_Z (Qfloor x))).
    { unfold Zminus. rewrite inject_Z_plus, !inject_Z_opp. change (inject_Z 1) with 1. ring. }
    assert (Hev : Z.even (- Qfloor x - 1) = negb (Z.even (Qfloor x))).
    { replace (- Qfloor x - 1)%Z with (- (Qfloor x + 1))%Z by lia.
      rewrite Z.even_opp, Z.even_add. destruct (Z.even (Qfloor x)); reflexivity. }
    rewrite Hev.
    destruct (Qcompare_spec (x - inject_Z (Qfloor x)) (1 # 2)) as [He|Hl|Hg];
      destruct (Qcompare_spec (- x - inject_Z (- Qfloor x - 1)) (1 # 2)) as [He'|Hl'|Hg'];
      try (exfalso; lra); try destruct (Z.even (Qfloor x)); cbn [negb]; lia.
Qed.

Lemma round_half_even_nonneg (x : Q) : 0 <= x -> (0 <= round_half_even x)%Z.
Proof.
  intros H. rewrite <- (round_half_even_Z 0). by apply round_half_even_monotone.
Qed.

(** A number that is not negative is at most doubled. *)
Lemma round_half_even_le_double (w : Q) : 0 <= w -> inject_Z (round_half_even w) <= 2 * w.
Proof.
  intros Hw. destruct (Qlt_le_dec (1 # 2) w) as [Hbig|Hsmall].
  - destruct (round_half_even_half w) as [_ H]. lra.
  - assert (H : (round_half_even w <= round_half_even (1 # 2))%Z)
      by (by apply round_half_even_monotone).
    change (round_half_even (1 # 2)) with 0%Z in H.
    rewrite Zle_Qle in H. change (inject_Z 0) with 0 in H. lra.
Qed.

(** *** Rounding to a double *)


Lemma ulp_pos (x : Q) : 0 < ulp x.
Proof. apply pow2_pos. Qed.

Lemma rnd_fin_zero (x : Q) : x == 0 -> rnd_fin x = 0.
Proof. intros H. unfold rnd_fin. apply Qeq_bool_iff in H. by rewrite H. Qed.

Lemma rnd_fin_eq (x : Q) :
  ~ x == 0 -> rnd_fin x == inject_Z (round_half_even (x / ulp x)) * ulp x.
Proof.
  intros H. unfold rnd_fin. destruct (Qeq_bool x 0) eqn:H0.
  - apply Qeq_bool_iff in H0. contradiction.
  - apply Qred_correct.
Qed.

Lemma ulp_exp_comp (x y : Q) : ~ x == 0 -> x == y -> ulp_exp x = ulp_exp y.
Proof. intros Hx Hxy. unfold ulp_exp. by rewrite (mag_comp x y Hx Hxy). Qed.

Lemma rnd_fin_comp (x y : Q) : x == y -> rnd_fin x = rnd_fin y.
Proof.
  intros Hxy. destruct (Qeq_dec x 0) as [H0|H0].
  - rewrite (rnd_fin_zero x H0), (rnd_fin_zero y); [reflexivity | by rewrite <- Hxy].
  - assert (H0' : ~ y == 0) by (by rewrite <- Hxy).
    unfold rnd_fin.
    destruct (Qeq_bool x 0) eqn:Hx; [apply Qeq_bool_iff in Hx; contradiction|].
    destruct (Qeq_bool y 0) eqn:Hy; [apply Qeq_bool_iff in Hy; contradiction|].
    apply Qred_complete. rewrite (ulp_exp_comp x y H0 Hxy).
    rewrite (round_half_even_comp (x / pow2 (ulp_exp y)) (y / pow2 (ulp_exp y)));
      [reflexivity | by rewrite Hxy].
Qed.

#[local] Instance rnd_fin_proper : Proper (Qeq ==> Qeq) rnd_fin.
Proof. intros x y H. by rewrite (rnd_fin_comp x y H). Qed.

Lemma ulp_exp_opp (x : Q) : ulp_exp (- x) = ulp_exp x.
Proof. unfold ulp_exp. by rewrite mag_opp. Qed.

Lemma rnd_fin_opp (x : Q) : rnd_fin (- x) == - rnd_fin x.
Proof.
  destruct (Qeq_dec x 0) as [H0|H0].
  - rewrite (rnd_fin_zero x H0), (rnd_fin_zero (- x)); [reflexivity | by rewrite H0].
  - assert (H0' : ~ - x == 0) by (intros H; apply H0; lra).
    rewrite (rnd_fin_eq _ H0'), (rnd_fin_eq _ H0). unfold ulp. rewrite ulp_exp_opp.
    assert (Hd : - x / pow2 (ulp_exp x) == - (x / pow2 (ulp_exp x))).
    { field. pose proof (pow2_pos (ulp_exp x)). lra. }
    rewrite (round_half_even_comp _ _ Hd), round_half_even_opp, inject_Z_opp. ring.
Qed.

Lemma rnd_fin_nonneg (x : Q) : 0 <= x -> 0 <= rnd_fin x.
Proof.
  intros Hx. destruct (Qeq_dec x 0) as [H0|H0].
  - rewrite (rnd_fin_zero x H0). lra.
  - rewrite (rnd_fin_eq _ H0). pose proof (ulp_pos x) as Hu.
    assert (Hq : 0 <= x / ulp x) by (apply Qle_shift_div_l; lra).
    apply round_half_even_nonneg in Hq. rewrite Zle_Qle in Hq.
    change (inject_Z 0) with 0 in Hq. nra.
Qed.

Lemma ulp_exp_le (x y : Q) : ~ x == 0 -> Qabs x <= Qabs y -> (ulp_exp x <= ulp_exp y)%Z.
Proof. intros Hx Hxy. unfold ulp_exp. pose proof (mag_le x y Hx Hxy). lia. Qed.

Lemma Qabs_pos_eq (x : Q) : 0 <= x -> Qabs x == x.
Proof. intros H. by apply Qabs_pos. Qed.

(** A positive number and its binade. *)
Lemma below_binade (x : Q) : 0 < x -> x < pow2 (ulp_exp x + 53).
Proof.
  intros Hx. assert (H0 : ~ x == 0) by lra.
  destruct (mag_spec x H0) as [_ H2]. rewrite Qabs_pos_eq in H2 by lra.
  eapply Qlt_le_trans; [exact H2|]. apply pow2_le. unfold ulp_exp. lia.
Qed.

Lemma above_binade (x : Q) : 0 < x -> (-1074 < ulp_exp x)%Z -> pow2 (ulp_exp x + 52) <= x.
Proof.
  intros Hx He. assert (H0 : ~ x == 0) by lra.
  destruct (mag_spec x H0) as [H1 _]. rewrite Qabs_pos_eq in H1 by lra.
  eapply Qle_trans; [|exact H1]. apply pow2_le. unfold ulp_exp in *. lia.
Qed.

Lemma scaled_pow2 (a e : Z) : (e <= a)%Z -> pow2 a / pow2 e == inject_Z (2 ^ (a - e)).
Proof.
  intros H. rewrite <- pow2_Z by lia.
  replace a with ((a - e) + e)%Z at 1 by lia. rewrite pow2_add.
  field. pose proof (pow2_pos e). lra.
Qed.

Lemma rnd_fin_pos_upper (x : Q) : 0 < x -> rnd_fin x <= pow2 (ulp_exp x + 53).
Proof.
  intros Hx. assert (H0 : ~ x == 0) by lra.
  rewrite (rnd_fin_eq _ H0). pose proof (ulp_pos x) as Hu. unfold ulp in *.
  set (e := ulp_exp x) in *.
  assert (Hq : x / pow2 e <= inject_Z (2 ^ 53)).
  { apply Qle_shift_div_r; [exact Hu|].
    pose proof (below_binade x Hx) as Hb. fold e in Hb.
    rewrite pow2_add in Hb. rewrite <- (pow2_Z 53) by lia. lra. }
  apply round_half_even_monotone in Hq. rewrite round_half_even_Z in Hq.
  rewrite Zle_Qle in Hq. rewrite <- (pow2_Z 53) in Hq by lia.
  rewrite pow2_add. nra.
Qed.

Lemma rnd_fin_pos_lower (x : Q) :
  0 < x -> (-1074 < ulp_exp x)%Z -> pow2 (ulp_exp x + 52) <= rnd_fin x.
Proof.
  intros Hx He. assert (H0 : ~ x == 0) by lra.
  rewrite (rnd_fin_eq _ H0). pose proof (ulp_pos x) as Hu. unfold ulp in *.
  pose proof (above_binade x Hx He) as Hb.
  set (e := ulp_exp x) in *.
  assert (Hq : inject_Z (2 ^ 52) <= x / pow2 e).
  { apply Qle_shift_div_l; [exact Hu|].
    rewrite pow2_add in Hb. rewrite <- (pow2_Z 52) by lia. lra. }
  apply round_half_even_monotone in Hq. rewrite round_half_even_Z in Hq.
  rewrite Zle_Qle in Hq. rewrite <- (pow2_Z 52) in Hq by lia.
  rewrite pow2_add. nra.
Qed.

Lemma rnd_fin_monotone_pos (x y : Q) : 0 < x -> x <= y -> rnd_fin x <= rnd_fin y.
Proof.
  intros Hx Hxy. assert (Hy : 0 < y) by lra.
  assert (H0 : ~ x == 0) by lra. assert (H0' : ~ y == 0) by lra.
  assert (Hle : (ulp_exp x <= ulp_exp y)%Z).
  { apply ulp_exp_le; [exact H0|]. rewrite !Qabs_pos_eq by lra. exact Hxy. }
  destruct (Z.eq_dec (ulp_exp x) (ulp_exp y)) as [Heq|Hne].
  - rewrite (rnd_fin_eq _ H0), (rnd_fin_eq _ H0'). unfold ulp. rewrite Heq.
    pose proof (pow2_pos (ulp_exp y)) as Hu.
    assert (Hq : x / pow2 (ulp_exp y) <= y / pow2 (ulp_exp y)).
    { apply Qle_shift_div_l; [exact Hu|].
      assert (Hr : x / pow2 (ulp_exp y) * pow2 (ulp_exp y) == x) by (field; lra).
      rewrite Hr. exact Hxy. }
    apply round_half_even_monotone in Hq. rewrite Zle_Qle in Hq. nra.
  - eapply Qle_trans; [apply rnd_fin_pos_upper; exact Hx|].
    eapply Qle_trans; [|apply rnd_fin_pos_lower; [exact Hy | pose proof (Z.le_max_r (mag x - 52) (-1074)); unfold ulp_exp in *; lia]].
    apply pow2_le. lia.
Qed.

(** Rounding keeps the order. *)
Lemma rnd_fin_monotone (x y : Q) : x <= y -> rnd_fin x <= rnd_fin y.
Proof.
  intros Hxy.
  destruct (Qlt_le_dec 0 x) as [Hx|Hx].
  - by apply rnd_fin_monotone_pos.
  - destruct (Qlt_le_dec 0 y) as [Hy|Hy].
    + assert (A : rnd_fin x <= 0).
      { assert (B : 0 <= rnd_fin (- x)) by (apply rnd_fin_nonneg; lra).
        rewrite rnd_fin_opp in B. lra. }
      assert (B : 0 <= rnd_fin y) by (apply rnd_fin_nonneg; lra). lra.
    + destruct (Qeq_dec y 0) as [Hy0|Hy0].
      * rewrite (rnd_fin_zero y Hy0).
        assert (B : 0 <= rnd_fin (- x)) by (apply rnd_fin_nonneg; lra).
        rewrite rnd_fin_opp in B. lra.
      * assert (A : rnd_fin (- y) <= rnd_fin (- x)) by (apply rnd_fin_monotone_pos; lra).
        rewrite !rnd_fin_opp in A. lra.
Qed.

(** *** The numbers that are doubles *)


Lemma Qabs_scaled (k : Z) (u : Q) : 0 < u -> Qabs (inject_Z k * u) == inject_Z (Z.abs k) * u.
Proof.
  intros Hu. rewrite Qabs_Qmult, (Qabs_pos_eq u) by lra.
  assert (H : Qabs (inject_Z k) == inject_Z (Z.abs k)).
  { unfold Qabs, inject_Z. reflexivity. }
  by rewrite H.
Qed.

Lemma representable_ulp_exp (x : Q) (k g : Z) :
  ~ x == 0 -> x == inject_Z k * pow2 g -> (Z.abs k < 2 ^ 53)%Z -> (-1074 <= g)%Z ->
  (ulp_exp x <= g)%Z.
Proof.
  intros H0 Hx Hk Hg. destruct (mag_spec x H0) as [H1 _].
  assert (Ha : Qabs x < pow2 (g + 53)).
  { rewrite Hx, Qabs_scaled by apply pow2_pos. rewrite pow2_add, (pow2_Z 53) by lia.
    pose proof (pow2_pos g). rewrite Zlt_Qlt in Hk. nra. }
  assert (Hm : (mag x < g + 53)%Z) by (apply pow2_lt_inv; lra).
  unfold ulp_exp. lia.
Qed.

(** A double is its own rounding. *)
Lemma rnd_fin_representable (x : Q) : representable x -> rnd_fin x == x.
Proof.
  intros (k & g & Hx & Hk & Hg). destruct (Qeq_dec x 0) as [H0|H0].
  - rewrite (rnd_fin_zero x H0). by symmetry.
  - pose proof (representable_ulp_exp x k g H0 Hx Hk Hg) as He.
    rewrite (rnd_fin_eq _ H0). unfold ulp. set (e := ulp_exp x) in *.
    pose proof (pow2_pos e) as Hu.
    assert (Hq : x / pow2 e == inject_Z (k * 2 ^ (g - e))).
    { rewrite Hx, inject_Z_mult, <- (scaled_pow2 g e He). field. lra. }
    rewrite (round_half_even_comp _ _ Hq), round_half_even_Z, <- Hq. field. lra.
Qed.

Lemma representable_comp (x y : Q) : x == y -> representable x -> representable y.
Proof. intros Hxy (k & g & Hx & Hk & Hg). exists k, g. by rewrite <- Hxy. Qed.

Lemma representable_0 : representable 0.
Proof. exists 0%Z, 0%Z. split; [reflexivity | split; lia]. Qed.

Lemma representable_Z (z : Z) : (Z.abs z < 2 ^ 53)%Z -> representable (inject_Z z).
Proof. intros H. exists z, 0%Z. split; [change (pow2 0) with 1; ring | split; [exact H | lia]]. Qed.

Lemma representable_pow2 (e : Z) : (-1074 <= e)%Z -> representable (pow2 e).
Proof. intros H. exists 1%Z, e. split; [change (inject_Z 1) with 1; ring | split; [lia | exact H]]. Qed.

Lemma representable_opp (x : Q) : representable x -> representable (- x).
Proof.
  intros (k & g & Hx & Hk & Hg). exists (- k)%Z, g. split; [|split; [lia | exact Hg]].
  rewrite inject_Z_opp, Hx. ring.
Qed.

Lemma representable_double (x : Q) : representable x -> representable (2 * x).
Proof.
  intros (k & g & Hx & Hk & Hg). exists k, (g + 1)%Z. split; [|split; [exact Hk | lia]].
  rewrite pow2_succ, Hx. ring.
Qed.

(** What rounding gives is a double. *)
Lemma rnd_fin_is_representable (x : Q) : representable (rnd_fin x).
Proof.
  destruct (Qeq_dec x 0) as [H0|H0].
  - rewrite (rnd_fin_zero x H0). apply representable_0.
  - assert (Hpos : forall z, 0 < z -> representable (rnd_fin z)).
    { intros z Hz. assert (Hz0 : ~ z == 0) by lra.
      pose proof (rnd_fin_pos_upper z Hz) as Hup.
      pose proof (rnd_fin_eq z Hz0) as Heq. unfold ulp in Heq.
      set (e := ulp_exp z) in *. set (k := round_half_even (z / pow2 e)) in *.
      pose proof (pow2_pos e) as Hu.
      assert (Hk0 : (0 <= k)%Z).
      { apply round_half_even_nonneg. apply Qle_shift_div_l; lra. }
      assert (Hk : (k <= 2 ^ 53)%Z).
      { rewrite Zle_Qle, <- (pow2_Z 53) by lia. rewrite Heq, pow2_add in Hup. nra. }
      assert (He : (-1074 <= e)%Z) by (subst e; unfold ulp_exp; lia).
      destruct (Z.eq_dec k (2 ^ 53)%Z) as [Hmax|Hlt].
      - apply (representable_comp (pow2 (e + 53))); [|apply representable_pow2; lia].
        rewrite Heq, Hmax, pow2_add, (pow2_Z 53) by lia. ring.
      - exists k, e. split; [exact Heq | split; [lia | exact He]]. }
    destruct (Qlt_le_dec 0 x) as [Hx|Hx]; [by apply Hpos|].
    apply (representable_comp (- rnd_fin (- x))).
    + rewrite rnd_fin_opp. ring.
    + apply representable_opp, Hpos. lra.
Qed.

Lemma rnd_fin_idempotent (x : Q) : rnd_fin (rnd_fin x) == rnd_fin x.
Proof. apply rnd_fin_representable, rnd_fin_is_representable. Qed.

(** Between two doubles the rounding stays. *)
Lemma rnd_fin_between (a x b : Q) :
  representable a -> representable b -> a <= x -> x <= b ->
  a <= rnd_fin x /\ rnd_fin x <= b.
Proof.
  intros Ha Hb H1 H2. apply rnd_fin_monotone in H1, H2.
  rewrite (rnd_fin_representable a Ha) in H1. rewrite (rnd_fin_representable b Hb) in H2.
  by split.
Qed.

(** *** The grid of the subnormal numbers *)


Lemma representable_on_grid (x : Q) : representable x -> on_grid x.
Proof.
  intros (k & g & Hx & Hk & Hg). exists (k * 2 ^ (g + 1074))%Z.
  rewrite Hx, inject_Z_mult, <- (pow2_Z (g + 1074)) by lia.
  replace g with ((g + 1074) + -1074)%Z at 1 by lia. rewrite pow2_add. ring.
Qed.

Lemma on_grid_plus (x y : Q) : on_grid x -> on_grid y -> on_grid (x + y).
Proof.
  intros [j Hx] [k Hy]. exists (j + k)%Z. rewrite inject_Z_plus, Hx, Hy. ring.
Qed.

Lemma on_grid_opp (x : Q) : on_grid x -> on_grid (- x).
Proof. intros [j Hx]. exists (- j)%Z. rewrite inject_Z_opp, Hx. ring. Qed.

Lemma on_grid_minus (x y : Q) : on_grid x -> on_grid y -> on_grid (x - y).
Proof. intros Hx Hy. apply on_grid_plus; [exact Hx | by apply on_grid_opp]. Qed.

(** Below [2 ** -1021] every number of the grid is a double. *)
Lemma on_grid_representable (x : Q) : on_grid x -> Qabs x < pow2 (-1021) -> representable x.
Proof.
  intros [j Hx] Hb. exists j, (-1074)%Z. split; [exact Hx | split; [|lia]].
  rewrite Hx, Qabs_scaled in Hb by apply pow2_pos.
  replace (-1021)%Z with (53 + -1074)%Z in Hb by lia. rewrite pow2_add, (pow2_Z 53) in Hb by lia.
  pose proof (pow2_pos (-1074)) as Hu.
  rewrite Zlt_Qlt. nra.
Qed.

(** From [2 ** -1021] on, the half of a double is a double. *)
Lemma representable_half (x : Q) :
  representable x -> pow2 (-1021) <= Qabs x -> representable ((1 # 2) * x).
Proof.
  intros (k & g & Hx & Hk & Hg) Hb.
  assert (Hg' : (-1074 < g)%Z).
  { destruct (Z.eq_dec g (-1074)%Z) as [->|]; [|lia]. exfalso.
    rewrite Hx, Qabs_scaled in Hb by apply pow2_pos.
    replace (-1021)%Z with (53 + -1074)%Z in Hb by lia.
    rewrite pow2_add, (pow2_Z 53) in Hb by lia.
    pose proof (pow2_pos (-1074)) as Hu. rewrite Zlt_Qlt in Hk. nra. }
  exists k, (g - 1)%Z. split; [|split; [exact Hk | lia]].
  rewrite pow2_pred, Hx. ring.
Qed.

(** *** How far rounding goes *)

Lemma rnd_fin_le_double (z : Q) : 0 <= z -> rnd_fin z <= 2 * z.
Proof.
  intros Hz. destruct (Qeq_dec z 0) as [H0|H0].
  - rewrite (rnd_fin_zero z H0). lra.
  - rewrite (rnd_fin_eq _ H0). pose proof (ulp_pos z) as Hu.
    assert (Hq : 0 <= z / ulp z) by (apply Qle_shift_div_l; lra).
    apply round_half_even_le_double in Hq.
    assert (Hr : z == z / ulp z * ulp z) by (field; lra).
    set (w := z / ulp z) in *. set (k := inject_Z (round_half_even w)) in *.
    set (u := ulp z) in *.
    assert (A : 0 <= (2 * w - k) * u) by (apply Qmult_le_0_compat; lra).
    clearbody k w u. lra.
Qed.

Lemma rnd_fin_error (z : Q) :
  ~ z == 0 -> z - (1 # 2) * ulp z <= rnd_fin z /\ rnd_fin z <= z + (1 # 2) * ulp z.
Proof.
  intros H0. rewrite (rnd_fin_eq _ H0). pose proof (ulp_pos z) as Hu.
  destruct (round_half_even_half (z / ulp z)) as [H1 H2].
  assert (Hr : z == z / ulp z * ulp z) by (field; lra).
  set (w := z / ulp z) in *. set (k := inject_Z (round_half_even w)) in *.
  set (u := ulp z) in *.
  assert (A : 0 <= (k - (w - (1 # 2))) * u) by (apply Qmult_le_0_compat; lra).
  assert (B : 0 <= (w + (1 # 2) - k) * u) by (apply Qmult_le_0_compat; lra).
  clearbody k w u. split; lra.
Qed.

Lemma ulp_le_pow2 (z : Q) (m : Z) :
  ~ z == 0 -> Qabs z < pow2 (m + 1) -> (-1022 <= m)%Z -> ulp z <= pow2 (m - 52).
Proof.
  intros H0 Hz Hm. destruct (mag_spec z H0) as [H1 _].
  assert (A : (mag z < m + 1)%Z) by (apply pow2_lt_inv; lra).
  apply pow2_le. unfold ulp_exp. lia.
Qed.

(** From [2 ** -1023] on, a number is at least four units in its last place. *)
Lemma ulp_le_quarter (z : Q) : pow2 (-1023) <= z -> 4 * ulp z <= z.
Proof.
  intros Hz. pose proof (pow2_pos (-1023)) as Hp. assert (H0 : ~ z == 0) by lra.
  destruct (mag_spec z H0) as [H1 H2]. rewrite Qabs_pos_eq in H1, H2 by lra.
  assert (Hm : (-1023 < mag z + 1)%Z) by (apply pow2_lt_inv; lra).
  assert (He : (ulp_exp z + 2 <= mag z)%Z) by (unfold ulp_exp; lia).
  apply pow2_le in He. rewrite pow2_add in He. change (pow2 2) with 4 in He.
  unfold ulp. lra.
Qed.

Lemma rnd_fin_le_5_4 (z : Q) : pow2 (-1023) <= z -> rnd_fin z <= (5 # 4) * z.
Proof.
  intros Hz. pose proof (pow2_pos (-1023)) as Hp. assert (H0 : ~ z == 0) by lra.
  destruct (rnd_fin_error z H0) as [_ H]. pose proof (ulp_le_quarter z Hz). lra.
Qed.

Lemma Qabs_half (z : Q) : Qabs ((1 # 2) * z) == (1 # 2) * Qabs z.
Proof. rewrite Qabs_Qmult. reflexivity. Qed.

(** From [2 ** -1021] on, halving commutes with rounding. *)
Lemma rnd_fin_half (z : Q) :
  pow2 (-1021) <= Qabs z -> rnd_fin ((1 # 2) * z) == (1 # 2) * rnd_fin z.
Proof.
  intros Hz. pose proof (pow2_pos (-1021)) as Hp.
  assert (H0 : ~ z == 0).
  { intros H. assert (Ha : Qabs z == 0) by (rewrite H; reflexivity). lra. }
  assert (H0' : ~ (1 # 2) * z == 0) by (intros H; apply H0; lra).
  destruct (mag_spec z H0) as [H1 H2].
  assert (Hm : (-1021 < mag z + 1)%Z) by (apply pow2_lt_inv; lra).
  assert (Hmag : mag ((1 # 2) * z) = (mag z - 1)%Z).
  { apply mag_unique; rewrite Qabs_half.
    - rewrite pow2_pred. lra.
    - replace (mag z - 1 + 1)%Z with (mag z) by lia.
      rewrite pow2_succ in H2. lra. }
  assert (He : ulp_exp ((1 # 2) * z) = (ulp_exp z - 1)%Z) by (unfold ulp_exp; rewrite Hmag; lia).
  rewrite (rnd_fin_eq _ H0'), (rnd_fin_eq _ H0). unfold ulp. rewrite He.
  pose proof (pow2_pos (ulp_exp z)) as Hu.
  assert (Hq : (1 # 2) * z / pow2 (ulp_exp z - 1) == z / pow2 (ulp_exp z)).
  { rewrite pow2_pred. field. lra. }
  rewrite (round_half_even_comp _ _ Hq). rewrite pow2_pred. ring.
Qed.

(** *** Doubles that do not overflow *)

Lemma rnd_finite (z : Q) : Qabs (rnd_fin z) < pow2 1024 -> rnd z = Fin (rnd_fin z).
Proof.
  intros H. unfold rnd. cbv zeta.
  destruct (Qle_bool (pow2 1024) (Qabs (rnd_fin z))) eqn:Hb; [|reflexivity].
  apply Qle_bool_iff in Hb. lra.
Qed.

Lemma Qabs_le_iff (x m : Q) : Qabs x <= m <-> - m <= x /\ x <= m.
Proof. apply Qabs_Qle_condition. Qed.

Lemma Qabs_lt_iff (x m : Q) : Qabs x < m <-> - m < x /\ x < m.
Proof. apply Qabs_Qlt_condition. Qed.

Lemma rnd_fin_abs_le (z m : Q) : representable m -> Qabs z <= m -> Qabs (rnd_fin z) <= m.
Proof.
  intros Hm Hz. apply Qabs_le_iff in Hz as [H1 H2]. apply Qabs_le_iff.
  apply rnd_fin_between; auto using representable_opp.
Qed.


Lemma moderate_sum_finite (a b s : Q) :
  moderate a -> moderate b -> Qabs s <= Qabs a + Qabs b ->
  Qabs (rnd_fin s) < pow2 1024.
Proof.
  intros [Ha Ha'] [Hb Hb'] Hs.
  assert (Hm : exists m, representable m /\ Qabs a <= m /\ Qabs b <= m /\ m < pow2 1023).
  { destruct (Qlt_le_dec (Qabs a) (Qabs b)) as [Hlt|Hle].
    - exists (Qabs b). split; [|split; [lra | split; [lra | exact Hb']]].
      destruct (Qlt_le_dec b 0).
      + apply (representable_comp (- b)); [symmetry; apply Qabs_neg; lra
                                          | by apply representable_opp].
      + apply (representable_comp b); [symmetry; apply Qabs_pos; lra | exact Hb].
    - exists (Qabs a). split; [|split; [lra | split; [lra | exact Ha']]].
      destruct (Qlt_le_dec a 0).
      + apply (representable_comp (- a)); [symmetry; apply Qabs_neg; lra
                                          | by apply representable_opp].
      + apply (representable_comp a); [symmetry; apply Qabs_pos; lra | exact Ha]. }
  destruct Hm as (m & Hm & H1 & H2 & H3).
  assert (Hr : Qabs (rnd_fin s) <= 2 * m).
  { apply rnd_fin_abs_le; [by apply representable_double | lra]. }
  replace 1024%Z with (1023 + 1)%Z by lia. rewrite pow2_succ. lra.
Qed.

Lemma rnd_comp (x y : Q) : x == y -> rnd x = rnd y.
Proof. intros H. unfold rnd. by rewrite (rnd_fin_comp x y H). Qed.

Lemma moderate_finite (x : Q) : moderate x -> rnd x = Fin (rnd_fin x) /\ rnd_fin x == x.
Proof.
  intros [Hr Hb]. pose proof (rnd_fin_representable x Hr) as Hx. split; [|exact Hx].
  apply rnd_finite. rewrite Hx. eapply Qlt_trans; [exact Hb|]. apply pow2_lt; lia.
Qed.

Lemma moderate_between (a b r : Q) :
  moderate a -> moderate b -> representable r -> a <= r -> r <= b -> moderate r.
Proof.
  intros [_ Ha] [_ Hb] Hr H1 H2. split; [exact Hr|].
  apply Qabs_lt_iff in Ha, Hb. apply Qabs_lt_iff. lra.
Qed.

(** The rounding of a number between two moderate doubles. *)
Lemma rnd_between (a b z : Q) :
  moderate a -> moderate b -> a <= z -> z <= b ->
  rnd z = Fin (rnd_fin z) /\ a <= rnd_fin z /\ rnd_fin z <= b /\ moderate (rnd_fin z).
Proof.
  intros Ha Hb H1 H2.
  destruct (rnd_fin_between a z b (proj1 Ha) (proj1 Hb) H1 H2) as [G1 G2].
  assert (Hm : moderate (rnd_fin z))
    by (apply (moderate_between a b); auto using rnd_fin_is_representable).
  split; [|split; [exact G1 | split; [exact G2 | exact Hm]]].
  apply rnd_finite. destruct Hm as [_ Hm]. eapply Qlt_trans; [exact Hm|]. apply pow2_lt; lia.
Qed.

(** A quarter of the rounded difference of two doubles, rounded, is at most
    half the difference. *)
Lemma quarter_of_difference (y : Q) :
  on_grid y -> 0 <= y -> rnd_fin ((1 # 4) * rnd_fin y) <= (1 # 2) * y.
Proof.
  intros Hg Hy. pose proof (rnd_fin_nonneg y Hy) as Hd.
  destruct (Qlt_le_dec y (pow2 (-1021))) as [Hsmall|Hbig].
  - assert (Hr : rnd_fin y == y).
    { apply rnd_fin_representable, on_grid_representable; [exact Hg|].
      by rewrite Qabs_pos_eq. }
    eapply Qle_trans; [apply rnd_fin_le_double; lra|]. lra.
  - assert (Hd' : pow2 (-1021) <= rnd_fin y).
    { rewrite <- (rnd_fin_representable (pow2 (-1021))) by (apply representable_pow2; lia).
      by apply rnd_fin_monotone. }
    assert (Hp : pow2 (-1021) == 4 * pow2 (-1023)).
    { replace (-1021)%Z with (2 + -1023)%Z by lia. rewrite pow2_add. reflexivity. }
    pose proof (pow2_pos (-1023)) as Hpos.
    assert (H1 : rnd_fin y <= (5 # 4) * y) by (apply rnd_fin_le_5_4; lra).
    assert (H2 : rnd_fin ((1 # 4) * rnd_fin y) <= (5 # 4) * ((1 # 4) * rnd_fin y))
      by (apply rnd_fin_le_5_4; lra).
    lra.
Qed.

(** Half the rounded difference, rounded, is at most the difference. *)
Lemma half_of_difference (y : Q) :
  on_grid y -> 0 <= y -> rnd_fin ((1 # 2) * rnd_fin y) <= y.
Proof.
  intros Hg Hy. pose proof (rnd_fin_nonneg y Hy) as Hd.
  destruct (Qlt_le_dec y (pow2 (-1021))) as [Hsmall|Hbig].
  - assert (Hr : rnd_fin y == y).
    { apply rnd_fin_representable, on_grid_representable; [exact Hg|].
      by rewrite Qabs_pos_eq. }
    rewrite <- Hr at 2. rewrite <- (rnd_fin_idempotent y) at 2.
    apply rnd_fin_monotone. lra.
  - assert (Hd' : pow2 (-1021) <= rnd_fin y).
    { rewrite <- (rnd_fin_representable (pow2 (-1021))) by (apply representable_pow2; lia).
      by apply rnd_fin_monotone. }
    rewrite rnd_fin_representable.
    + pose proof (rnd_fin_le_double y Hy). lra.
    + apply representable_half; [apply rnd_fin_is_representable|].
      by rewrite Qabs_pos_eq.
Qed.

(** The mean of two moderate doubles, as numpy computes it: the sum, then
    the half. It is the rounding of the exact mean. *)
Lemma mean_of_two (a b : Q) :
  moderate a -> moderate b -> a <= b ->
  exists m, fdiv (fadd (Fin a) (Fin b)) (Fin 2) = Fin m
            /\ m == rnd_fin ((1 # 2) * (a + b)) /\ a <= m /\ m <= b.
Proof.
  intros Ha Hb Hab.
  assert (Hfin : Qabs (rnd_fin (a + b)) < pow2 1024).
  { apply (moderate_sum_finite a b); auto. apply Qabs_triangle. }
  assert (Hmid : rnd_fin ((1 # 2) * rnd_fin (a + b)) == rnd_fin ((1 # 2) * (a + b))).
  { assert (Hg : on_grid (a + b)).
    { apply on_grid_plus; apply representable_on_grid; [apply Ha | apply Hb]. }
    destruct (Qlt_le_dec (Qabs (a + b)) (pow2 (-1021))) as [Hsmall|Hbig].
    - assert (Hs : (1 # 2) * rnd_fin (a + b) == (1 # 2) * (a + b)).
      { rewrite (rnd_fin_representable (a + b)); [reflexivity|].
        by apply on_grid_representable. }
      rewrite (rnd_fin_comp _ _ Hs). reflexivity.
    - rewrite <- (rnd_fin_half (a + b) Hbig).
      apply rnd_fin_idempotent. }
  destruct (rnd_between a b ((1 # 2) * (a + b)) Ha Hb) as (_ & H1 & H2 & _); [lra | lra |].
  exists (rnd_fin ((1 # 2) * rnd_fin (a + b))).
  split; [|split; [exact Hmid | rewrite Hmid; by split]].
  cbn [fadd]. rewrite (rnd_finite _ Hfin). cbn [fdiv].
  change (Qeq_bool 2 0) with false. cbv iota.
  assert (Hc : rnd_fin (a + b) / 2 == (1 # 2) * rnd_fin (a + b)) by field.
  rewrite (rnd_comp _ _ Hc). apply rnd_finite.
  rewrite Hmid. apply Qabs_lt_iff.
  destruct Ha as [_ Ha], Hb as [_ Hb]. apply Qabs_lt_iff in Ha, Hb.
  assert (pow2 1023 < pow2 1024) by (apply pow2_lt; lia). lra.
Qed.

(** *** Interpolation between two doubles *)

Lemma difference_facts (a b : Q) :
  moderate a -> moderate b -> a <= b ->
  let y := b + - a in
  0 <= y /\ on_grid y /\ y < pow2 1024 /\ rnd y = Fin (rnd_fin y) /\ 0 <= rnd_fin y.
Proof.
  intros Ha Hb Hab y.
  assert (Hy : 0 <= y) by (subst y; lra).
  split; [exact Hy|]. split.
  { apply on_grid_plus; [|apply on_grid_opp]; apply representable_on_grid;
      [apply Hb | apply Ha]. }
  split.
  { destruct Ha as [_ Ha], Hb as [_ Hb]. apply Qabs_lt_iff in Ha, Hb.
    replace 1024%Z with (1023 + 1)%Z by lia. rewrite pow2_succ. subst y. lra. }
  split; [|by apply rnd_fin_nonneg].
  apply rnd_finite, (moderate_sum_finite b (- a)); auto.
  - destruct Ha as [Hr Ha]. split; [by apply representable_opp | by rewrite Qabs_opp].
  - apply Qabs_triangle.
Qed.

Lemma lerp_low (a b t : Q) :
  moderate a -> moderate b -> a <= b -> 0 <= t -> t < 1 # 2 ->
  rnd_fin (rnd_fin (b + - a) * t) <= b + - a ->
  lerp (Fin a) (Fin b) (Fin t) = Fin (rnd_fin (a + rnd_fin (rnd_fin (b + - a) * t)))
  /\ a <= rnd_fin (a + rnd_fin (rnd_fin (b + - a) * t))
  /\ rnd_fin (a + rnd_fin (rnd_fin (b + - a) * t)) <= b.
Proof.
  intros Ha Hb Hab Ht0 Ht Hp.
  destruct (difference_facts a b Ha Hb Hab) as (Hy & Hg & Hy' & Hd & Hd0). cbv zeta in *.
  set (d := rnd_fin (b + - a)) in *. set (p := rnd_fin (d * t)) in *.
  assert (Hp0 : 0 <= p) by (apply rnd_fin_nonneg; nra).
  assert (Hpf : rnd (d * t) = Fin p).
  { apply rnd_finite. fold p. rewrite Qabs_pos_eq by exact Hp0. lra. }
  destruct (rnd_between a b (a + p) Ha Hb) as (Hr & H1 & H2 & _); [lra | lra |].
  split; [|by split].
  unfold lerp, fsub. cbn [f_neg fadd]. rewrite Hd. cbn [f_le fmul].
  destruct (Qle_bool (1 # 2) t) eqn:Hc; [apply Qle_bool_iff in Hc; lra|].
  fold d. rewrite Hpf. cbn [fadd]. exact Hr.
Qed.

Lemma lerp_high (a b t s : Q) :
  moderate a -> moderate b -> a <= b -> 1 # 2 <= t ->
  rnd (1 + - t) = Fin s -> 0 <= s ->
  rnd_fin (rnd_fin (b + - a) * s) <= b + - a ->
  lerp (Fin a) (Fin b) (Fin t) = Fin (rnd_fin (b + - rnd_fin (rnd_fin (b + - a) * s)))
  /\ a <= rnd_fin (b + - rnd_fin (rnd_fin (b + - a) * s))
  /\ rnd_fin (b + - rnd_fin (rnd_fin (b + - a) * s)) <= b.
Proof.
  intros Ha Hb Hab Ht Hs Hs0 Hp.
  destruct (difference_facts a b Ha Hb Hab) as (Hy & Hg & Hy' & Hd & Hd0). cbv zeta in *.
  set (d := rnd_fin (b + - a)) in *. set (p := rnd_fin (d * s)) in *.
  assert (Hp0 : 0 <= p) by (apply rnd_fin_nonneg; nra).
  assert (Hpf : rnd (d * s) = Fin p).
  { apply rnd_finite. fold p. rewrite Qabs_pos_eq by exact Hp0. lra. }
  destruct (rnd_between a b (b + - p) Ha Hb) as (Hr & H1 & H2 & _); [lra | lra |].
  split; [|by split].
  unfold lerp, fsub. cbn [f_neg fadd]. rewrite Hd, Hs. cbn [f_le fmul].
  apply Qle_bool_iff in Ht. rewrite Ht.
  fold d. rewrite Hpf. cbn [fadd f_neg]. exact Hr.
Qed.

(** The interpolation of numpy at the fractions that the quartiles and the
    median use: it stays between the two doubles, the quarter falls on the
    side of the first and three quarters on the side of the second. *)
Lemma lerp_spec (a b t : Q) :
  moderate a -> moderate b -> a <= b ->
  t == 0 \/ t == 1 # 4 \/ t == 1 # 2 \/ t == 3 # 4 \/ t == 1 ->
  exists r, lerp (Fin a) (Fin b) (Fin t) = Fin r /\ a <= r /\ r <= b
            /\ (t == 0 -> r == a)
            /\ (t == 1 # 4 -> r <= rnd_fin ((1 # 2) * (a + b)))
            /\ (t == 3 # 4 -> rnd_fin ((1 # 2) * (a + b)) <= r).
Proof.
  intros Ha Hb Hab Ht.
  destruct (difference_facts a b Ha Hb Hab) as (Hy & Hg & Hy' & Hd & Hd0). cbv zeta in *.
  set (d := rnd_fin (b + - a)) in *.
  destruct Ht as [Ht|[Ht|[Ht|[Ht|Ht]]]].
  - (* t = 0 *)
    assert (Hz : rnd_fin (d * t) == 0) by (rewrite (rnd_fin_zero (d * t)); [reflexivity | rewrite Ht; ring]).
    destruct (lerp_low a b t Ha Hb Hab) as (Hl & H1 & H2); [lra | lra | fold d; lra |].
    eexists. split; [exact Hl|]. split; [exact H1|]. split; [exact H2|].
    split; [|split; intros; exfalso; lra].
    intros _. fold d. rewrite Hz.
    assert (Ha' : a + 0 == a) by ring. rewrite Ha'. apply rnd_fin_representable, Ha.
  - (* t = 1/4 *)
    assert (Hq : rnd_fin (d * t) <= (1 # 2) * (b + - a)).
    { assert (Hc : d * t == (1 # 4) * d) by (rewrite Ht; ring).
      rewrite Hc. by apply quarter_of_difference. }
    destruct (lerp_low a b t Ha Hb Hab) as (Hl & H1 & H2); [lra | lra | fold d; lra |].
    eexists. split; [exact Hl|]. split; [exact H1|]. split; [exact H2|].
    split; [intros; exfalso; lra|]. split; [|intros; exfalso; lra].
    intros _. apply rnd_fin_monotone. fold d. lra.
  - (* t = 1/2 *)
    assert (Hs : rnd (1 + - t) = Fin (1 # 2)).
    { assert (Hc : 1 + - t == 1 # 2) by (rewrite Ht; reflexivity).
      rewrite (rnd_comp _ _ Hc). reflexivity. }
    assert (Hq : rnd_fin (d * (1 # 2)) <= b + - a).
    { assert (Hc : d * (1 # 2) == (1 # 2) * d) by ring.
      rewrite Hc. by apply half_of_difference. }
    destruct (lerp_high a b t (1 # 2) Ha Hb Hab) as (Hl & H1 & H2);
      [lra | exact Hs | lra | exact Hq |].
    eexists. split; [exact Hl|]. split; [exact H1|]. split; [exact H2|].
    split; [|split]; intros; exfalso; lra.
  - (* t = 3/4 *)
    assert (Hs : rnd (1 + - t) = Fin (1 # 4)).
    { assert (Hc : 1 + - t == 1 # 4) by (rewrite Ht; reflexivity).
      rewrite (rnd_comp _ _ Hc). reflexivity. }
    assert (Hq : rnd_fin (d * (1 # 4)) <= (1 # 2) * (b + - a)).
    { assert (Hc : d * (1 # 4) == (1 # 4) * d) by ring.
      rewrite Hc. by apply quarter_of_difference. }
    destruct (lerp_high a b t (1 # 4) Ha Hb Hab) as (Hl & H1 & H2);
      [lra | exact Hs | lra | fold d; lra |].
    eexists. split; [exact Hl|]. split; [exact H1|]. split; [exact H2|].
    split; [intros; exfalso; lra|]. split; [intros; exfalso; lra|].
    intros _. apply rnd_fin_monotone. fold d. lra.
  - (* t = 1 *)
    assert (Hs : rnd (1 + - t) = Fin 0).
    { assert (Hc : 1 + - t == 0) by (rewrite Ht; reflexivity).
      rewrite (rnd_comp _ _ Hc). reflexivity. }
    assert (Hz : rnd_fin (d * 0) == 0) by (rewrite (rnd_fin_zero (d * 0)); [reflexivity | ring]).
    destruct (lerp_high a b t 0 Ha Hb Hab) as (Hl & H1 & H2);
      [lra | exact Hs | lra | fold d; lra |].
    eexists. split; [exact Hl|]. split; [exact H1|]. split; [exact H2|].
    split; [|split]; intros; exfalso; lra.
Qed.
End Binary64.

(** *** Rounding and the share of missing cells *)

Lemma round_half_even_bounds (x : Q) (n : Z) :
  (0 <= x)%Q -> (x <= inject_Z n)%Q ->
  (0 <= round_half_even x <= n)%Z.
Proof.
  intros H0 Hn. unfold round_half_even.
  pose proof (Qfloor_le x) as Hfl. pose proof (Qlt_floor x) as Hlt.
  assert (Hf0 : (0 <= Qfloor x)%Z).
  { apply (Qfloor_resp_le 0 x) in H0. exact H0. }
  assert (Hfn : (Qfloor x <= n)%Z).
  { apply Qfloor_resp_le in Hn. by rewrite Qfloor_Z in Hn. }
  assert (Hstep : (inject_Z (Qfloor x) + (1 # 2) <= x)%Q -> (Qfloor x + 1 <= n)%Z).
  { intros Hhalf.
    assert (Hl : (inject_Z (Qfloor x) < inject_Z n)%Q) by lra.
    rewrite <- Zlt_Qlt in Hl. lia. }
  destruct (Qcompare_spec (x - inject_Z (Qfloor x)) (1 # 2)) as [He|Hl|Hg].
  - destruct (Z.even (Qfloor x)); [lia|]. split; [lia|]. apply Hstep. lra.
  - lia.
  - split; [lia|]. apply Hstep. lra.
Qed.

Lemma round2_bounds (x : Q) : (0 <= x)%Q -> (x <= 100)%Q -> (0 <= round2 x)%Q /\ (round2 x <= 100)%Q.
Proof.
  intros H0 H1. unfold round2.
  destruct (round_half_even_bounds (x * 100) 10000) as [Ha Hb].
  - lra.
  - change (inject_Z 10000) with (10000 # 1)%Q. lra.
  - unfold Qle. cbn. split; lia.
Qed.

Lemma null_count_le (s : Series) : (Pandas.null_count s <= length s)%nat.
Proof. unfold Pandas.null_count. apply length_filter. Qed.

Lemma columns_length (df : DataFrame) (col : string * Series) :
  col ∈ Pandas.columns df -> length (snd col) = len df.
Proof.
  unfold Pandas.columns. intros H. apply elem_of_lookup_imap_1 in H as (j & name & -> & _).
  cbn. unfold column, len. by rewrite length_map.
Qed.

Lemma ratio_bounds (a b : nat) :
  (a <= b)%nat -> (0 < b)%nat ->
  (0 <= inject_Z (Z.of_nat a) / inject_Z (Z.of_nat b) * 100)%Q
  /\ (inject_Z (Z.of_nat a) / inject_Z (Z.of_nat b) * 100 <= 100)%Q.
Proof.
  intros Hab Hb.
  assert (Hb' : (0 < inject_Z (Z.of_nat b))%Q).
  { change 0%Q with (inject_Z 0). rewrite <- Zlt_Qlt. lia. }
  assert (Ha' : (0 <= inject_Z (Z.of_nat a))%Q).
  { change 0%Q with (inject_Z 0). rewrite <- Zle_Qle. lia. }
  assert (Hab' : (inject_Z (Z.of_nat a) <= inject_Z (Z.of_nat b))%Q).
  { rewrite <- Zle_Qle. lia. }
  assert (H1 : (0 <= inject_Z (Z.of_nat a) / inject_Z (Z.of_nat b))%Q).
  { apply Qle_shift_div_l; [exact Hb'|]. lra. }
  assert (H2 : (inject_Z (Z.of_nat a) / inject_Z (Z.of_nat b) <= 1)%Q).
  { apply Qle_shift_div_r; [exact Hb'|]. lra. }
  split; lra.
Qed.

Lemma for_each_try_ok {A B} (f : A -> M (Result B)) (P : A -> B -> Prop) (l : list A) :
  (forall a tr, a ∈ l -> exists b, fst (f a tr) = Ok b /\ P a b) ->
  forall tr, exists bs, fst (for_each_try f l tr) = Ok bs /\ Forall2 P l bs.
Proof.
  induction l as [|a l IH]; intros Hf tr.
  - exists []. split; [reflexivity | constructor].
  - destruct (Hf a tr) as (b & Hb & HP); [by left|].
    destruct (IH (fun a' tr' Hin => Hf a' tr' (list_elem_of_further _ _ _ Hin))
                 (snd (f a tr))) as (bs & Hbs & HPs).
    exists (b :: bs). split; [|by constructor].
    cbn [for_each_try]. rewrite bind_eq, Hb, bind_eq, Hbs. reflexivity.
Qed.

Lemma for_each_Forall2 {A B} (f : A -> M B) (P : A -> B -> Prop) (l : list A) :
  (forall a tr, a ∈ l -> P a (fst (f a tr))) ->
  forall tr, Forall2 P l (fst (for_each f l tr)).
Proof.
  induction l as [|a l IH]; intros Hf tr; cbn [for_each].
  - constructor.
  - rewrite !bind_eq. cbn. constructor.
    + apply Hf. by left.
    + apply IH. intros a' tr' Hin. apply Hf. by right.
Qed.

(** *** The percentage in binary64 *)

Lemma moderate_Z (z : Z) : (Z.abs z < 2 ^ 53)%Z -> moderate (inject_Z z).
Proof.
  intros Hz. split; [by apply representable_Z|].
  assert (Ha : (Qabs (inject_Z z) == inject_Z (Z.abs z))%Q) by reflexivity.
  rewrite Ha, (pow2_Z 1023) by lia. rewrite <- Zlt_Qlt.
  assert ((2 ^ 53 < 2 ^ 1023)%Z) by (apply Z.pow_lt_mono_r; lia). lia.
Qed.

Lemma rnd_error_below (z : Q) (m : Z) :
  (Qabs z < pow2 (m + 1))%Q -> (-1022 <= m)%Z ->
  (z - (1 # 2) * pow2 (m - 52) <= rnd_fin z)%Q /\ (rnd_fin z <= z + (1 # 2) * pow2 (m - 52))%Q.
Proof.
  intros Hz Hm. pose proof (pow2_pos (m - 52)) as Hp.
  destruct (Qeq_dec z 0) as [H0|H0].
  - rewrite (rnd_fin_zero z H0). split; lra.
  - pose proof (rnd_fin_error z H0) as [Ha Hb].
    pose proof (ulp_le_pow2 z m H0 Hz Hm). split; lra.
Qed.

Lemma code_null_percentage_spec (a b : nat) :
  (a <= b)%nat -> (0 < b)%nat ->
  exists p,
    code_null_percentage a b = Fin p
    /\ (0 <= p)%Q /\ (p <= 100)%Q
    /\ (Qabs (p - 100 * inject_Z (Z.of_nat a) / inject_Z (Z.of_nat b)) <= 1 # 100)%Q.
Proof.
  intros Hab Hb.
  pose proof (ratio_bounds a b Hab Hb) as [Hr0 Hr1].
  set (x0 := (inject_Z (Z.of_nat a) / inject_Z (Z.of_nat b))%Q) in *.
  assert (Hx0 : (0 <= x0)%Q /\ (x0 <= 1)%Q) by (split; lra).
  assert (M0 : moderate 0) by (apply (moderate_Z 0); reflexivity).
  assert (M1 : moderate 1) by (apply (moderate_Z 1); reflexivity).
  assert (M100 : moderate 100) by (apply (moderate_Z 100); reflexivity).
  destruct (rnd_between 0 1 x0 M0 M1) as (E1 & L1 & U1 & _); [lra..|].
  set (x1 := rnd_fin x0) in *.
  destruct (rnd_between 0 100 (x1 * 100) M0 M100) as (E2 & L2 & U2 & _); [lra..|].
  set (x2 := rnd_fin (x1 * 100)) in *.
  destruct (round_half_even_bounds (x2 * 100) 10000) as [L3 U3].
  { lra. }
  { change (inject_Z 10000) with (10000 # 1)%Q. lra. }
  pose proof (round_half_even_half (x2 * 100)) as [N3a N3b].
  set (k := round_half_even (x2 * 100)) in *.
  rewrite Zle_Qle in L3, U3.
  change (inject_Z 0) with 0%Q in L3. change (inject_Z 10000) with (10000 # 1)%Q in U3.
  set (x3 := (inject_Z k / 100)%Q).
  assert (H3 : (x3 == (1 # 100) * inject_Z k)%Q) by (unfold x3; field).
  destruct (rnd_between 0 100 x3 M0 M100) as (E4 & L4 & U4 & _); [lra..|].
  set (x4 := rnd_fin x3) in *.
  exists x4. split; [|split; [exact L4|split; [exact U4|]]].
  { unfold code_null_percentage. fold x0. rewrite E1. cbn [fmul]. fold x1. rewrite E2.
    cbn [py_round2]. fold x2 k x3. exact E4. }
  assert (B1 : (Qabs x0 < pow2 (0 + 1))%Q).
  { rewrite Qabs_pos_eq by lra. change (pow2 (0 + 1)) with 2%Q. lra. }
  assert (B2 : (Qabs (x1 * 100) < pow2 (6 + 1))%Q).
  { rewrite Qabs_pos_eq by lra. change (pow2 (6 + 1)) with 128%Q. lra. }
  assert (B4 : (Qabs x3 < pow2 (6 + 1))%Q).
  { rewrite Qabs_pos_eq by lra. change (pow2 (6 + 1)) with 128%Q. lra. }
  pose proof (rnd_error_below x0 0 B1 ltac:(lia)) as [A1 A1'].
  pose proof (rnd_error_below (x1 * 100) 6 B2 ltac:(lia)) as [A2 A2'].
  pose proof (rnd_error_below x3 6 B4 ltac:(lia)) as [A4 A4'].
  fold x1 in A1, A1'. fold x2 in A2, A2'. fold x4 in A4, A4'.
  assert (P52 : (pow2 (0 - 52) <= 1 # 1000000000)%Q) by (apply Qle_bool_imp_le; vm_compute; reflexivity).
  assert (P46 : (pow2 (6 - 52) <= 1 # 1000000000)%Q) by (apply Qle_bool_imp_le; vm_compute; reflexivity).
  pose proof (pow2_pos (0 - 52)). pose proof (pow2_pos (6 - 52)).
  assert (Hq : (100 * inject_Z (Z.of_nat a) / inject_Z (Z.of_nat b) == 100 * x0)%Q).
  { unfold x0. field. change 0%Q with (inject_Z 0). rewrite inject_Z_injective. lia. }
  rewrite Hq. apply Qabs_le_iff.
  clearbody x0 x1 x2 k x3 x4. split; lra.
Qed.

Lemma _analyze_column_ok E df col tr :
  (0 < len df)%nat -> col ∈ Pandas.columns df ->
  exists cp,
    fst (SchemaAgent._analyze_column E df col tr) = Ok cp
    /\ SchemaAgent.column_name cp = fst col
    /\ SchemaAgent.null_count cp = Pandas.null_count (snd col)
    /\ SchemaAgent.null_percentage cp
       = code_null_percentage (Pandas.null_count (snd col)) (len df).
Proof.
  intros Hlen Hcol.
  unfold SchemaAgent._analyze_column. rewrite bind_eq. unfold generate. cbn [fst snd].
  destruct (len df) as [|n] eqn:Hn; [lia|].
  cbn [truediv].
  destruct (lm E tr _); cbn [LM.ret fst];
    (eexists; split; [reflexivity|]; cbn [SchemaAgent.column_name SchemaAgent.null_count
                                           SchemaAgent.null_percentage];
     split; [reflexivity|]; split; reflexivity).
Qed.

(** C5, as the code has it. On a dataset with at least one row the schema
    agent returns, and for every column the null percentage it reports is
    [round((null_count / total_rows) * 100, 2)] as Python evaluates it on
    doubles, the quotient first: a number from 0 to 100, within one
    hundredth of the exact percentage. *)
Theorem schema_null_percentage :
  forall (E : Extern) (df : DataFrame) (tr : list Call),
    (0 < len df)%nat ->
    exists r,
      fst (SchemaAgent.analyze E df tr) = Ok r
      /\ Forall2
           (fun col cp =>
              SchemaAgent.column_name cp = fst col
              /\ SchemaAgent.null_count cp = Pandas.null_count (snd col)
              /\ SchemaAgent.null_percentage cp
                 = code_null_percentage (SchemaAgent.null_count cp) (len df)
              /\ exists p,
                   SchemaAgent.null_percentage cp = Fin p
                   /\ (0 <= p)%Q /\ (p <= 100)%Q
                   /\ (Qabs (p - 100 * inject_Z (Z.of_nat (SchemaAgent.null_count cp))
                                  / inject_Z (Z.of_nat (len df))) <= 1 # 100)%Q)
           (Pandas.columns df) (SchemaAgent.columns r).
Proof.
  intros E df tr Hlen.
  destruct (for_each_try_ok (SchemaAgent._analyze_column E df)
              (fun col cp =>
                 SchemaAgent.column_name cp = fst col
                 /\ SchemaAgent.null_count cp = Pandas.null_count (snd col)
                 /\ SchemaAgent.null_percentage cp
                    = code_null_percentage (SchemaAgent.null_count cp) (len df)
                 /\ exists p,
                      SchemaAgent.null_percentage cp = Fin p
                      /\ (0 <= p)%Q /\ (p <= 100)%Q
                      /\ (Qabs (p - 100 * inject_Z (Z.of_nat (SchemaAgent.null_count cp))
                                     / inject_Z (Z.of_nat (len df))) <= 1 # 100)%Q)
              (Pandas.columns df)) with (tr := tr) as (cps & Hcps & HP).
  - intros col tr0 Hcol.
    destruct (_analyze_column_ok E df col tr0 Hlen Hcol) as (cp & H1 & H2 & H3 & H4).
    pose proof (columns_length df col Hcol) as Hcl.
    pose proof (null_count_le (snd col)) as Hnc. rewrite Hcl in Hnc.
    exists cp. rewrite H3, H4. repeat split; try assumption.
    apply code_null_percentage_spec; [exact Hnc | exact Hlen].
  - eexists. split.
    + unfold SchemaAgent.analyze. rewrite bind_eq, Hcps. reflexivity.
    + exact HP.
Qed.

(** C5 on a dataset of four rows and two columns. *)
Lemma schema_null_percentage_witness :
  (0 < len Examples.small)%nat
  /\ exists r,
      fst (SchemaAgent.analyze (Examples.extern_with Examples.failing_lm) Examples.small []) = Ok r
      /\ Forall2
           (fun col cp =>
              SchemaAgent.column_name cp = fst col
              /\ SchemaAgent.null_count cp = Pandas.null_count (snd col)
              /\ SchemaAgent.null_percentage cp
                 = code_null_percentage (SchemaAgent.null_count cp) (len Examples.small)
              /\ exists p,
                   SchemaAgent.null_percentage cp = Fin p
                   /\ (0 <= p)%Q /\ (p <= 100)%Q
                   /\ (Qabs (p - 100 * inject_Z (Z.of_nat (SchemaAgent.null_count cp))
                                  / inject_Z (Z.of_nat (len Examples.small))) <= 1 # 100)%Q)
           (Pandas.columns Examples.small) (SchemaAgent.columns r).
Proof.
  split.
  - cbn. lia.
  - apply (schema_null_percentage (Examples.extern_with Examples.failing_lm) Examples.small []).
    cbn. lia.
Defined.

(** C5 as the specification words it fails on a column of 160 cells of
    which 23 are missing: the agent reports 14.37, where
    [round(100 * 23 / 160, 2)] is 14.38. The quotient 23 / 160 is rounded
    to a double below 0.14375, and its product by 100 to the double just
    below 14.375. *)
Lemma null_percentage_is_not_the_formula_of_the_specification :
  (0 < len Examples.nulls_23_of_160)%nat
  /\ exists r cp,
      fst (SchemaAgent.analyze (Examples.extern_with Examples.failing_lm)
             Examples.nulls_23_of_160 []) = Ok r
      /\ SchemaAgent.columns r = [cp]
      /\ SchemaAgent.null_count cp = 23%nat
      /\ len Examples.nulls_23_of_160 = 160%nat
      /\ SchemaAgent.null_percentage cp = rnd (1437 # 100)
      /\ spec_null_percentage 23 160 = rnd (1438 # 100)
      /\ SchemaAgent.null_percentage cp <> spec_null_percentage 23 160.
Proof.
  split; [vm_compute; lia|].
  eexists. eexists. split; [vm_compute; reflexivity|].
  split; [reflexivity|].
  split; [reflexivity|].
  split; [reflexivity|].
  split; [vm_compute; reflexivity|].
  split; [vm_compute; reflexivity|].
  vm_compute. discriminate.
Qed.

(** One missing cell in four is reported as 25.00 percent. *)
Example schema_null_percentage_small :
  match fst (SchemaAgent.analyze (Examples.extern_with Examples.failing_lm) Examples.small []) with
  | Ok r => map SchemaAgent.null_percentage (SchemaAgent.columns r)
  | Raise _ => []
  end = [Fin 25; Fin 0].
Proof. vm_compute. reflexivity. Qed.

(** ** The quality agent *)

Lemma Forall2_right_Forall {A B} (P : B -> Prop) (l : list A) (k : list B) :
  Forall2 (fun _ b => P b) l k -> Forall P k.
Proof. induction 1; constructor; auto. Qed.


Lemma numeric_columns_subseteq df col :
  col ∈ numeric_columns df -> col ∈ Pandas.columns df.
Proof. unfold numeric_columns. rewrite list_elem_of_filter. tauto. Qed.

Lemma recommendation_or_cases r fb :
  exists a c i, QualityAgent.recommendation_or r fb = (a, c, i).
Proof. destruct (QualityAgent.recommendation_or r fb) as [[a c] i]. eauto. Qed.

(** The issue built after a call that failed carries the fallback; after a
    call that answered there is nothing to show, since the collaborator
    was assumed to fail. *)
Ltac use_fallback Hlm :=
  let Hfail := fresh "Hfail" in
  let e := fresh "e" in
  let He := fresh "He" in
  intros Hfail;
  match type of Hlm with
  | lm ?E ?t ?c = _ => destruct (Hfail t c) as [e He]; rewrite He in Hlm
  end;
  first [discriminate | split; reflexivity].

Lemma _check_missing_column_ok E df col tr :
  col ∈ Pandas.columns df ->
  exists iss, fst (QualityAgent._check_missing_column E df col tr) = Ok iss
              /\ Forall (issue_facts E) iss.
Proof.
  intros Hcol.
  pose proof (columns_length df col Hcol) as Hcl.
  pose proof (null_count_le (snd col)) as Hnc. rewrite Hcl in Hnc.
  unfold QualityAgent._check_missing_column.
  destruct (0 <? Pandas.null_count col.2)%nat eqn:Hpos.
  2:{ exists []. split; [reflexivity | constructor]. }
  apply Nat.ltb_lt in Hpos.
  destruct (len df) as [|n] eqn:Hn; [lia|]. cbn [truediv].
  rewrite bind_eq. unfold generate. cbn [fst snd].
  match goal with |- context [lm E ?t ?c] => destruct (lm E t c) as [f|e] eqn:Hlm end;
    cbn [QualityAgent.recommendation_or];
    (eexists; split; [reflexivity|]; constructor; [|constructor]; split;
     [ unfold known_severity; cbn [QualityAgent.severity];
       destruct (QualityAgent.Qgt_bool _ 50); [tauto|];
       destruct (QualityAgent.Qgt_bool _ 20); tauto
     | use_fallback Hlm ]).
Qed.

Lemma _check_outliers_column_ok E df col tr :
  col ∈ Pandas.columns df ->
  exists iss, fst (QualityAgent._check_outliers_column E df col tr) = Ok iss
              /\ Forall (issue_facts E) iss.
Proof.
  intros Hcol.
  pose proof (columns_length df col Hcol) as Hcl.
  unfold QualityAgent._check_outliers_column.
  match goal with |- context [(0 <? length (@filter ?A ?B ?F ?P ?D col.2))%nat] =>
    pose proof (@length_filter _ P D (snd col)) as Hle;
    destruct (0 <? length (@filter A B F P D col.2))%nat eqn:Hpos end.
  2:{ exists []. split; [reflexivity | constructor]. }
  apply Nat.ltb_lt in Hpos. rewrite Hcl in Hle.
  match type of Hpos with (_ < ?b)%nat => change (b <= len df)%nat in Hle end.
  destruct (len df) as [|n] eqn:Hn; [lia|]. cbn [truediv].
  rewrite bind_eq. unfold generate. cbn [fst snd].
  match goal with |- context [lm E ?t ?c] => destruct (lm E t c) as [f|e] eqn:Hlm end;
    cbn [QualityAgent.recommendation_or];
    (eexists; split; [reflexivity|]; constructor; [|constructor]; split;
     [ unfold known_severity; cbn [QualityAgent.severity];
       destruct (QualityAgent.Qgt_bool _ 10); tauto
     | use_fallback Hlm ]).
Qed.

Lemma _check_duplicates_severity E df tr :
  Forall (issue_facts E) (fst (QualityAgent._check_duplicates E df tr)).
Proof.
  unfold QualityAgent._check_duplicates.
  destruct (0 <? _)%nat; [|constructor].
  rewrite bind_eq. unfold generate. cbn [fst snd].
  match goal with |- context [lm E ?t ?c] => destruct (lm E t c) as [f|e] eqn:Hlm end;
    cbn [QualityAgent.recommendation_or];
    (constructor; [|constructor]; split;
     [ unfold known_severity; cbn [QualityAgent.severity]; destruct (f_gt _ _); tauto
     | use_fallback Hlm ]).
Qed.

Lemma for_each_try_inv {A B} (f : A -> M (Result B)) (P : A -> B -> Prop) (l : list A) :
  (forall a tr b, a ∈ l -> fst (f a tr) = Ok b -> P a b) ->
  forall tr bs, fst (for_each_try f l tr) = Ok bs -> Forall2 P l bs.
Proof.
  induction l as [|a l IH]; intros Hf tr bs; cbn [for_each_try].
  - cbn. intros [= <-]. constructor.
  - rewrite bind_eq. destruct (fst (f a tr)) as [b|msg] eqn:Hb; [|discriminate].
    rewrite bind_eq.
    destruct (fst (for_each_try f l (snd (f a tr)))) as [bs'|msg] eqn:Hbs; [|discriminate].
    cbn. intros [= <-]. constructor.
    + eapply Hf; [by left | exact Hb].
    + eapply IH; [|exact Hbs]. intros a' tr' b' Hin. apply Hf. by right.
Qed.

Lemma _check_consistency_column_severity E col tr iss :
  fst (QualityAgent._check_consistency_column E col tr) = Ok iss ->
  Forall (issue_facts E) iss.
Proof.
  unfold QualityAgent._check_consistency_column.
  destruct (_ && _); [|intros [= <-]; constructor].
  destruct (str_accessor_refused _); [discriminate|].
  destruct (_ <? _)%nat; [|intros [= <-]; constructor].
  rewrite bind_eq. unfold generate. cbn [fst snd].
  match goal with |- context [lm E ?t ?c] => destruct (lm E t c) as [f|e] eqn:Hlm end;
    cbn [QualityAgent.recommendation_or]; intros [= <-];
    (constructor; [|constructor]; split;
     [ unfold known_severity; cbn; tauto | use_fallback Hlm ]).
Qed.

(** The column on which the check of the categories is refused the [.str]
    accessor is the one [str_refused_column] tells. *)
Lemma _check_consistency_column_raises E col tr :
  (exists msg, fst (QualityAgent._check_consistency_column E col tr) = Raise msg)
  <-> str_refused_column col = true.
Proof.
  unfold QualityAgent._check_consistency_column, str_refused_column.
  destruct (_ && _); cbn [andb].
  2:{ split; [intros [msg H]; discriminate | discriminate]. }
  destruct (str_accessor_refused _).
  { split; [reflexivity | intros _; eexists; reflexivity]. }
  split; [|discriminate]. intros [msg H]. exfalso. revert H.
  destruct (_ <? _)%nat; [|discriminate].
  rewrite bind_eq. unfold generate. cbn [fst snd].
  match goal with |- context [QualityAgent.recommendation_or ?r ?fb] =>
    destruct (recommendation_or_cases r fb) as (a & c & i & ->) end.
  discriminate.
Qed.

Lemma for_each_try_raises {A B} (f : A -> M (Result B)) (p : A -> bool) (l : list A) :
  (forall a tr, a ∈ l -> (exists msg, fst (f a tr) = Raise msg) <-> p a = true) ->
  forall tr, (exists msg, fst (for_each_try f l tr) = Raise msg) <-> forallb (fun a => negb (p a)) l = false.
Proof.
  induction l as [|a l IH]; intros Hf tr; cbn [for_each_try forallb].
  - split; [intros [msg H]; discriminate | discriminate].
  - rewrite bind_eq. pose proof (Hf a tr ltac:(by left)) as Ha.
    destruct (fst (f a tr)) as [b|msg] eqn:Hb.
    + assert (Hp : p a = false).
      { destruct (p a); [|reflexivity]. destruct Ha as [_ Ha].
        destruct (Ha eq_refl) as [msg H]. discriminate. }
      rewrite Hp. cbn [negb andb]. rewrite bind_eq.
      rewrite <- (IH (fun a' tr' Hin => Hf a' tr' (list_elem_of_further _ _ _ Hin))
                     (snd (f a tr))).
      destruct (fst (for_each_try f l (snd (f a tr)))) as [bs|msg] eqn:Hbs; cbn.
      * split; intros [msg H]; discriminate.
      * split; intros _; eexists; reflexivity.
    + destruct Ha as [Ha _]. rewrite (Ha (ex_intro _ msg eq_refl)). cbn.
      split; [reflexivity | intros _; eexists; reflexivity].
Qed.

(** What the first three checks leave to the fourth: they return, with
    issues of the three severities. *)
Lemma quality_first_checks E df tr :
  exists m o tr3,
    Forall (issue_facts E) m /\ Forall (issue_facts E) o
    /\ QualityAgent.analyze E df tr
       = (r4 <- QualityAgent._check_categorical_consistency E df ;;
          match r4 with
          | Raise msg => ret (Raise msg)
          | Ok consistency_issues =>
              let issues := m ++ o ++ consistency_issues in
              ret (Ok {| QualityAgent.issues_found := issues;
                         QualityAgent.summary :=
                           foldl QualityAgent.count_issue QualityAgent.empty_summary issues |})
          end) tr3.
Proof.
  unfold QualityAgent.analyze.
  rewrite bind_eq.
  destruct (for_each_try_ok (QualityAgent._check_missing_column E df)
              (fun _ iss => Forall (issue_facts E) iss) (Pandas.columns df)
              (fun col tr0 Hcol => _check_missing_column_ok E df col tr0 Hcol) tr)
    as (m & Hm & HmP).
  unfold QualityAgent._check_missing_values at 1. rewrite bind_eq, Hm. cbn [LM.ret fst].
  rewrite bind_eq.
  set (tr1 := snd (QualityAgent._check_missing_values E df tr)).
  pose proof (_check_duplicates_severity E df tr1) as Hd.
  set (tr2 := snd (QualityAgent._check_duplicates E df tr1)).
  rewrite bind_eq.
  destruct (for_each_try_ok (QualityAgent._check_outliers_column E df)
              (fun _ iss => Forall (issue_facts E) iss) (numeric_columns df)
              (fun col tr0 Hcol =>
                 _check_outliers_column_ok E df col tr0 (numeric_columns_subseteq df col Hcol))
              tr2)
    as (o & Ho & HoP).
  unfold QualityAgent._check_outliers at 1. rewrite bind_eq, Ho. cbn [LM.ret fst].
  exists (concat m),
         (fst (QualityAgent._check_duplicates E df tr1) ++ concat o),
         (snd (QualityAgent._check_outliers E df tr2)).
  split; [|split].
  - apply Forall_concat. eapply Forall2_right_Forall, HmP.
  - apply Forall_app_2; [exact Hd|]. apply Forall_concat. eapply Forall2_right_Forall, HoP.
  - rewrite !bind_eq.
    destruct (fst (QualityAgent._check_categorical_consistency E df _)); [|reflexivity].
    cbn. by rewrite <- app_assoc.
Qed.

Lemma _check_categorical_consistency_severity E df tr iss :
  fst (QualityAgent._check_categorical_consistency E df tr) = Ok iss ->
  Forall (issue_facts E) iss.
Proof.
  unfold QualityAgent._check_categorical_consistency. rewrite bind_eq.
  destruct (fst (for_each_try _ _ tr)) as [iss0|msg] eqn:H; [|discriminate].
  cbn. intros [= <-]. apply Forall_concat.
  eapply (Forall2_right_Forall _ (object_columns df)).
  eapply (for_each_try_inv _ (fun _ b => Forall (issue_facts E) b)); [|exact H].
  intros a tr0 b _. apply _check_consistency_column_severity.
Qed.

Lemma _check_categorical_consistency_raises E df tr :
  (exists msg, fst (QualityAgent._check_categorical_consistency E df tr) = Raise msg)
  <-> quality_agent_returns df = false.
Proof.
  unfold QualityAgent._check_categorical_consistency, quality_agent_returns.
  rewrite bind_eq.
  rewrite <- (for_each_try_raises (QualityAgent._check_consistency_column E) str_refused_column
                (object_columns df)
                (fun a tr0 _ => _check_consistency_column_raises E a tr0) tr).
  destruct (fst (for_each_try _ _ tr)) as [iss0|msg]; cbn.
  - split; intros [msg H]; discriminate.
  - split; intros _; eexists; reflexivity.
Qed.

(** Every issue of a result of the quality agent has one of the three
    severities, and the summary is the count of the issues. *)
Lemma quality_checks_ok E df tr r :
  fst (QualityAgent.analyze E df tr) = Ok r ->
  Forall (issue_facts E) (QualityAgent.issues_found r)
  /\ QualityAgent.summary r
     = foldl QualityAgent.count_issue QualityAgent.empty_summary
         (QualityAgent.issues_found r).
Proof.
  destruct (quality_first_checks E df tr) as (m & o & tr3 & Hm & Ho & ->).
  rewrite bind_eq.
  destruct (fst (QualityAgent._check_categorical_consistency E df tr3)) as [c|msg] eqn:Hc;
    [|discriminate].
  cbn. intros [= <-]. cbn [QualityAgent.issues_found QualityAgent.summary].
  split; [|reflexivity].
  repeat apply Forall_app_2; try assumption.
  eapply _check_categorical_consistency_severity, Hc.
Qed.

(** The quality agent returns on the datasets in which no object column
    is refused the [.str] accessor, and raises on the others. *)
Lemma quality_agent_returns_iff E df tr :
  (exists r, fst (QualityAgent.analyze E df tr) = Ok r) <-> quality_agent_returns df = true.
Proof.
  destruct (quality_first_checks E df tr) as (m & o & tr3 & Hm & Ho & ->).
  rewrite bind_eq.
  pose proof (_check_categorical_consistency_raises E df tr3) as Hr.
  destruct (fst (QualityAgent._check_categorical_consistency E df tr3)) as [c|msg] eqn:Hc; cbn.
  - split; [|intros _; eexists; reflexivity]. intros _.
    destruct (quality_agent_returns df); [reflexivity|].
    destruct Hr as [_ Hr]. destruct (Hr eq_refl) as [msg H]. discriminate.
  - destruct Hr as [Hr _]. rewrite (Hr (ex_intro _ msg eq_refl)).
    split; [intros [r H]; discriminate | discriminate].
Qed.

Lemma count_issue_counts (s : gmap string nat) (x : QualityAgent.Issue) (n c w i : nat) :
  known_severity x ->
  s !! "total_issues" = Some n -> s !! "critical" = Some c ->
  s !! "warnings" = Some w -> s !! "info" = Some i ->
  exists c' w' i',
    QualityAgent.count_issue s x !! "total_issues" = Some (n + 1)%nat
    /\ QualityAgent.count_issue s x !! "critical" = Some c'
    /\ QualityAgent.count_issue s x !! "warnings" = Some w'
    /\ QualityAgent.count_issue s x !! "info" = Some i'
    /\ (c' + w' + i' = c + w + i + 1)%nat.
Proof.
  intros Hx Ht Hc Hw Hi. unfold QualityAgent.count_issue.
  destruct Hx as [Hs | [Hs | Hs]]; rewrite Hs; simplify_map_eq; cbn.
  - exists (c + 1)%nat, w, i. repeat split; lia.
  - exists c, (w + 1)%nat, i. repeat split; lia.
  - exists c, w, (i + 1)%nat. repeat split; lia.
Qed.

Lemma count_issues_counts (issues : list QualityAgent.Issue) :
  Forall known_severity issues ->
  forall (s : gmap string nat) (n c w i : nat),
    s !! "total_issues" = Some n -> s !! "critical" = Some c ->
    s !! "warnings" = Some w -> s !! "info" = Some i ->
    exists c' w' i',
      foldl QualityAgent.count_issue s issues !! "total_issues" = Some (n + length issues)%nat
      /\ foldl QualityAgent.count_issue s issues !! "critical" = Some c'
      /\ foldl QualityAgent.count_issue s issues !! "warnings" = Some w'
      /\ foldl QualityAgent.count_issue s issues !! "info" = Some i'
      /\ (c' + w' + i' = c + w + i + length issues)%nat.
Proof.
  induction 1 as [|x issues Hx _ IH]; intros s n c w i Ht Hc Hw Hi.
  - exists c, w, i. cbn. rewrite Nat.add_0_r. repeat split; auto.
  - destruct (count_issue_counts s x n c w i Hx Ht Hc Hw Hi) as (c1 & w1 & i1 & H1 & H2 & H3 & H4 & H5).
    destruct (IH _ _ _ _ _ H1 H2 H3 H4) as (c' & w' & i' & G1 & G2 & G3 & G4 & G5).
    exists c', w', i'. cbn [foldl length].
    rewrite G1, G2, G3, G4. repeat split; try (f_equal; lia). lia.
Qed.

(** C4. In a result of the quality agent the counts of critical, warning
    and info issues add up to [total_issues], which is the length of
    [issues_found]. *)
Theorem quality_summary_counts :
  forall (E : Extern) (df : DataFrame) (tr : list Call) (r : QualityAgent.QualityResult),
    fst (QualityAgent.analyze E df tr) = Ok r ->
    exists critical warnings info,
      QualityAgent.summary r !! "critical" = Some critical
      /\ QualityAgent.summary r !! "warnings" = Some warnings
      /\ QualityAgent.summary r !! "info" = Some info
      /\ QualityAgent.summary r !! "total_issues"
         = Some (length (QualityAgent.issues_found r))
      /\ (critical + warnings + info = length (QualityAgent.issues_found r))%nat.
Proof.
  intros E df tr r Hr.
  destruct (quality_checks_ok E df tr r Hr) as (Hsev & Hsum).
  apply (Forall_impl _ known_severity) in Hsev; [|by intros i [Hi _]].
  rewrite Hsum.
  destruct (count_issues_counts (QualityAgent.issues_found r) Hsev
              QualityAgent.empty_summary 0 0 0 0) as (c & w & i & H1 & H2 & H3 & H4 & H5);
    try reflexivity.
  exists c, w, i. rewrite H1, H2, H3, H4. repeat split. exact H5.
Qed.

(** C4 on a dataset of four rows and two columns, where the agent
    returns. *)
Lemma quality_summary_counts_witness :
  exists r,
    fst (QualityAgent.analyze (Examples.extern_with Examples.failing_lm) Examples.small []) = Ok r
    /\ exists critical warnings info,
        QualityAgent.summary r !! "critical" = Some critical
        /\ QualityAgent.summary r !! "warnings" = Some warnings
        /\ QualityAgent.summary r !! "info" = Some info
        /\ QualityAgent.summary r !! "total_issues"
           = Some (length (QualityAgent.issues_found r))
        /\ (critical + warnings + info = length (QualityAgent.issues_found r))%nat.
Proof.
  destruct (fst (QualityAgent.analyze (Examples.extern_with Examples.failing_lm)
                   Examples.small [])) as [r|msg] eqn:Hr.
  - exists r. split; [reflexivity|].
    exact (quality_summary_counts (Examples.extern_with Examples.failing_lm)
             Examples.small [] r Hr).
  - exfalso. vm_compute in Hr. discriminate.
Defined.

(** A missing cell, a repeated row and two spellings of a category: three
    issues, two warnings and one info. *)
Example quality_summary_small :
  match fst (QualityAgent.analyze (Examples.extern_with Examples.failing_lm) Examples.small []) with
  | Ok r =>
      (map QualityAgent.type (QualityAgent.issues_found r),
       map QualityAgent.severity (QualityAgent.issues_found r),
       QualityAgent.summary r !! "total_issues", QualityAgent.summary r !! "critical",
       QualityAgent.summary r !! "warnings", QualityAgent.summary r !! "info")
  | Raise _ => ([], [], None, None, None, None)
  end
  = (["missing_values"; "duplicates"; "inconsistent_categories"],
     ["warnings"; "warnings"; "info"], Some 3%nat, Some 0%nat, Some 2%nat, Some 1%nat).
Proof. vm_compute. reflexivity. Qed.


(** On a column of truth values with a missing cell the agent is refused
    the [.str] accessor and raises, after the call for the missing cell. *)
Example quality_agent_raises_on_truth_values :
  Pandas.infer_dtype (Pandas.column Examples.flags 0) = Object
  /\ QualityAgent.analyze (Examples.extern_with Examples.failing_lm) Examples.flags []
     = (Raise "Can only use .str accessor with string values!",
        [ {| signature := "QualityRecommender";
             inputs := [("issue_type", "missing_values"); ("column_name", "flag");
                        ("issue_description", "1 missing values (<float>%) in column 'flag'");
                        ("sample_data", "<list>")] |} ]).
Proof. split; vm_compute; reflexivity. Qed.

(** ** The pipeline when every generation call fails *)

Lemma run_stage_ok {A} (stage : M (Result A)) name label store results tr v :
  fst (stage tr) = Ok v ->
  SupervisorAgent.run_stage stage name label store results tr
  = (SupervisorAgent.append_completed name (store v results), snd (stage tr)).
Proof.
  intros H. unfold SupervisorAgent.run_stage. rewrite bind_eq, H. reflexivity.
Qed.



Lemma run_stage_raise {A} (stage : M (Result A)) name label store results tr msg :
  fst (stage tr) = Raise msg ->
  SupervisorAgent.run_stage stage name label store results tr
  = (SupervisorAgent.append_error (label +:+ " failed: " +:+ msg) results, snd (stage tr)).
Proof.
  intros H. unfold SupervisorAgent.run_stage. rewrite bind_eq, H. reflexivity.
Qed.

Lemma schema_agent_returns E df tr :
  (0 < len df)%nat -> exists s, fst (SchemaAgent.analyze E df tr) = Ok s.
Proof.
  intros Hlen.
  destruct (for_each_try_ok (SchemaAgent._analyze_column E df) (fun _ _ => True)
              (Pandas.columns df)) with (tr := tr) as (cps & Hcps & _).
  - intros col tr0 Hcol.
    destruct (_analyze_column_ok E df col tr0 Hlen Hcol) as (cp & H1 & _). by exists cp.
  - eexists. unfold SchemaAgent.analyze. rewrite bind_eq, Hcps. reflexivity.
Qed.

Lemma profile_agent_ok E df tr :
  exists p, fst (ProfileAgent.analyze E df tr) = Ok p.
Proof. unfold ProfileAgent.analyze. rewrite !bind_eq. eexists. reflexivity. Qed.






Ltac simpl_results :=
  cbn [SupervisorAgent.schema_analysis SupervisorAgent.profile_analysis
       SupervisorAgent.quality_analysis SupervisorAgent.ml_recommendations
       SupervisorAgent.deployment_strategy SupervisorAgent.business_communication
       SupervisorAgent.append_completed SupervisorAgent.append_error
       SupervisorAgent.set_schema_analysis SupervisorAgent.set_profile_analysis
       SupervisorAgent.set_quality_analysis SupervisorAgent.set_ml_recommendations
       SupervisorAgent.set_deployment_strategy SupervisorAgent.set_business_communication
       SupervisorAgent.initial_results SupervisorAgent.__init__
       SupervisorAgent.schema_agent SupervisorAgent.profile_agent
       SupervisorAgent.quality_agent SupervisorAgent.ml_advisor_agent
       SupervisorAgent.deployment_agent SupervisorAgent.business_communication_agent
       fst snd].




(** ** The profile agent *)

(** *** Sorting *)

Lemma Qle_bool_false (x y : Q) : Qle_bool x y = false -> (y <= x)%Q.
Proof.
  intros H. destruct (Qlt_le_dec y x) as [Hlt|Hle].
  - by apply Qlt_le_weak.
  - apply Qle_bool_iff in Hle. congruence.
Qed.

Lemma Qle_bool_false_lt (x y : Q) : Qle_bool x y = false -> (y < x)%Q.
Proof.
  intros H. destruct (Qlt_le_dec y x) as [Hlt|Hle]; [exact Hlt|].
  apply Qle_bool_iff in Hle. congruence.
Qed.

Lemma insert_sorted_length x l : length (insert_sorted Qle_bool x l) = S (length l).
Proof.
  induction l as [|y l IH]; cbn; [reflexivity|].
  destruct (Qle_bool x y); cbn; [reflexivity | by rewrite IH].
Qed.

Lemma sort_length l : length (sort Qle_bool l) = length l.
Proof.
  induction l as [|x l IH]; cbn; [reflexivity|].
  fold (sort Qle_bool l). by rewrite insert_sorted_length, IH.
Qed.

Lemma insert_sorted_In x l z : In z (insert_sorted Qle_bool x l) <-> z = x \/ In z l.
Proof.
  induction l as [|y l IH]; cbn; [intuition|].
  destruct (Qle_bool x y); cbn; [intuition|]. rewrite IH. intuition.
Qed.

Lemma sort_In l z : In z (sort Qle_bool l) <-> In z l.
Proof.
  induction l as [|x l IH]; cbn; [reflexivity|].
  fold (sort Qle_bool l). rewrite insert_sorted_In, IH. intuition.
Qed.

Lemma insert_sorted_Forall (P : Q -> Prop) x l :
  P x -> Forall P l -> Forall P (insert_sorted Qle_bool x l).
Proof.
  intros Hx Hl. apply Forall_forall. intros z Hz.
  apply list_elem_of_In, insert_sorted_In in Hz as [->|Hz]; [exact Hx|].
  rewrite Forall_forall in Hl. by apply Hl, list_elem_of_In.
Qed.

Lemma insert_sorted_sorted x l :
  StronglySorted Qle l -> StronglySorted Qle (insert_sorted Qle_bool x l).
Proof.
  induction 1 as [|y l Hs IH Hy]; cbn.
  - repeat constructor.
  - destruct (Qle_bool x y) eqn:Hxy.
    + apply Qle_bool_iff in Hxy. constructor; [by constructor|].
      constructor; [exact Hxy|].
      eapply Forall_impl; [exact Hy|]. intros z Hz. cbn in Hz. lra.
    + apply Qle_bool_false in Hxy. constructor; [exact IH|].
      by apply insert_sorted_Forall.
Qed.

Lemma sort_sorted l : StronglySorted Qle (sort Qle_bool l).
Proof.
  induction l as [|x l IH]; cbn; [constructor|].
  by apply insert_sorted_sorted.
Qed.

Lemma sorted_nth_le (s : list Q) :
  StronglySorted Qle s ->
  forall i j, (i <= j)%nat -> (j < length s)%nat -> (nth i s 0 <= nth j s 0)%Q.
Proof.
  induction 1 as [|x s Hs IH Hx]; intros i j Hij Hj; cbn in Hj; [lia|].
  destruct j as [|j].
  - assert (i = 0)%nat as -> by lia. cbn. lra.
  - destruct i as [|i]; cbn.
    + rewrite Forall_forall in Hx. apply Hx, list_elem_of_In, nth_In. lia.
    + apply IH; lia.
Qed.

Lemma sort_map_Fin (l : list Q) : sort f_le (map Fin l) = map Fin (sort Qle_bool l).
Proof.
  induction l as [|x l IH]; [reflexivity|].
  change (insert_sorted f_le (Fin x) (sort f_le (map Fin l))
          = map Fin (insert_sorted Qle_bool x (sort Qle_bool l))).
  rewrite IH. generalize (sort Qle_bool l). intros s.
  induction s as [|y s IHs]; cbn; [reflexivity|].
  destruct (Qle_bool x y); cbn; [reflexivity|]. by rewrite IHs.
Qed.

Lemma nth_map_Fin (s : list Q) (i : nat) :
  (i < length s)%nat -> nth i (map Fin s) NaN = Fin (nth i s 0%Q).
Proof.
  intros Hi. rewrite (nth_indep _ NaN (Fin 0)) by (by rewrite length_map).
  apply map_nth.
Qed.

Lemma sort_moderate (l : list Q) : Forall moderate l -> Forall moderate (sort Qle_bool l).
Proof.
  intros H. apply Forall_forall. intros z Hz.
  apply list_elem_of_In in Hz. apply (proj1 (sort_In _ _)) in Hz.
  rewrite Forall_forall in H.
  apply H. apply list_elem_of_In. exact Hz.
Qed.

(** *** The least and the greatest value *)

Lemma minimum_le (x : Q) (l : list Q) :
  let m := foldr (fun y acc => if Qle_bool y acc then y else acc) x l in
  (m <= x)%Q /\ Forall (fun z => m <= z)%Q l.
Proof.
  induction l as [|y l IH]; cbn.
  - split; [lra | constructor].
  - destruct IH as [IHx IHl].
    set (m := foldr (fun y acc => if Qle_bool y acc then y else acc) x l) in *.
    destruct (Qle_bool y m) eqn:Hy.
    + apply Qle_bool_iff in Hy. split; [lra|].
      constructor; [lra|]. eapply Forall_impl; [exact IHl|]. intros z Hz. cbn in Hz. lra.
    + apply Qle_bool_false in Hy. split; [exact IHx|]. by constructor.
Qed.

Lemma maximum_ge (x : Q) (l : list Q) :
  let m := foldr (fun y acc => if Qle_bool acc y then y else acc) x l in
  (x <= m)%Q /\ Forall (fun z => z <= m)%Q l.
Proof.
  induction l as [|y l IH]; cbn.
  - split; [lra | constructor].
  - destruct IH as [IHx IHl].
    set (m := foldr (fun y acc => if Qle_bool acc y then y else acc) x l) in *.
    destruct (Qle_bool m y) eqn:Hy.
    + apply Qle_bool_iff in Hy. split; [lra|].
      constructor; [lra|]. eapply Forall_impl; [exact IHl|]. intros z Hz. cbn in Hz. lra.
    + apply Qle_bool_false in Hy. split; [exact IHx|]. by constructor.
Qed.

Lemma minimum_spec (l : list Q) :
  l <> [] -> exists m, minimum (map Fin l) = Fin m /\ forall z, In z l -> (m <= z)%Q.
Proof.
  destruct l as [|x l]; [congruence|]. intros _.
  destruct (minimum_le x l) as [Hx Hl].
  exists (foldr (fun y acc => if Qle_bool y acc then y else acc) x l). split.
  - cbn [map minimum]. clear. induction l as [|y l IH]; [reflexivity|].
    cbn [map foldr]. rewrite IH. cbn [f_le]. by destruct (Qle_bool _ _).
  - intros z [<-|Hz]; [exact Hx|].
    rewrite Forall_forall in Hl. by apply Hl, list_elem_of_In.
Qed.

Lemma maximum_spec (l : list Q) :
  l <> [] -> exists m, maximum (map Fin l) = Fin m /\ forall z, In z l -> (z <= m)%Q.
Proof.
  destruct l as [|x l]; [congruence|]. intros _.
  destruct (maximum_ge x l) as [Hx Hl].
  exists (foldr (fun y acc => if Qle_bool acc y then y else acc) x l). split.
  - cbn [map maximum]. clear. induction l as [|y l IH]; [reflexivity|].
    cbn [map foldr]. rewrite IH. cbn [f_le]. by destruct (Qle_bool _ _).
  - intros z [<-|Hz]; [exact Hx|].
    rewrite Forall_forall in Hl. by apply Hl, list_elem_of_In.
Qed.

(** *** The quartiles and the median *)

(** The virtual index of a quartile among [N + 1] values: its floor and
    its fraction, a multiple of a quarter. *)
Lemma quarter_position (N c : Z) :
  Qfloor (inject_Z N * (c # 4)) = (N * c / 4)%Z
  /\ (inject_Z N * (c # 4) - inject_Z (N * c / 4) == inject_Z ((N * c) mod 4) * (1 # 4))%Q.
Proof.
  split; [reflexivity|].
  pose proof (Z.div_mod (N * c) 4 ltac:(lia)) as Hdm.
  assert (Hi : (inject_Z N * inject_Z c
                == 4 * inject_Z (N * c / 4) + inject_Z ((N * c) mod 4))%Q).
  { rewrite <- inject_Z_mult. rewrite Hdm at 1.
    rewrite inject_Z_plus, inject_Z_mult. reflexivity. }
  assert (Hc : (c # 4 == inject_Z c * (1 # 4))%Q).
  { unfold Qeq, Qmult, inject_Z. cbn. lia. }
  rewrite Hc, Qmult_assoc.
  set (P := (inject_Z N * inject_Z c)%Q) in *.
  set (d := inject_Z (N * c / 4)) in *. set (r := inject_Z ((N * c) mod 4)) in *.
  clearbody P d r. lra.
Qed.

Lemma quantile_unfold (q : Q) (l : list float) :
  l <> [] ->
  quantile q l
  = let s := sort f_le l in
    let n := length s in
    let virtual_index := (inject_Z (Z.of_nat (n - 1)) * q)%Q in
    if Qle_bool (inject_Z (Z.of_nat (n - 1))) virtual_index
    then lerp (nth (n - 1) s NaN) (nth (n - 1) s NaN) (Fin (virtual_index + 1))
    else
      let previous := Z.to_nat (Qfloor virtual_index) in
      lerp (nth previous s NaN) (nth (previous + 1) s NaN)
           (Fin (virtual_index - inject_Z (Qfloor virtual_index))).
Proof. destruct l; [congruence | reflexivity]. Qed.

Lemma median_unfold (l : list float) :
  l <> [] ->
  median l
  = let s := sort f_le l in
    let n := length s in
    if Nat.odd n then nth (n / 2) s NaN
    else fdiv (fadd (nth (n / 2 - 1) s NaN) (nth (n / 2) s NaN)) (Fin 2).
Proof. destruct l; [congruence | reflexivity]. Qed.

(** A quartile of a sample of doubles below [2 ** 1023] in size lies
    between the two order statistics around its virtual index; of two
    values, the first quartile is at most the double nearest to their
    mean, and the third at least. *)
Lemma quantile_spec (c : Z) (ys : list Q) :
  (c = 1 \/ c = 3)%Z -> ys <> [] -> Forall moderate ys ->
  let s := sort Qle_bool ys in
  let n := length s in
  let p := Z.to_nat (Z.of_nat (n - 1) * c / 4) in
  exists r,
    quantile (c # 4) (map Fin ys) = Fin r
    /\ (nth p s 0 <= r)%Q /\ (r <= nth (Nat.min (p + 1) (n - 1)) s 0)%Q
    /\ (n = 2%nat -> c = 1%Z -> (r <= rnd_fin ((1 # 2) * (nth 0 s 0 + nth 1 s 0)))%Q)
    /\ (n = 2%nat -> c = 3%Z -> (rnd_fin ((1 # 2) * (nth 0 s 0 + nth 1 s 0)) <= r)%Q).
Proof.
  intros Hc Hne Hmod s n p.
  assert (Hn : (0 < n)%nat).
  { subst n s. rewrite sort_length. destruct ys; [congruence | cbn; lia]. }
  pose proof (sort_sorted ys) as Hs. fold s in Hs.
  pose proof (sort_moderate ys Hmod) as Hms. fold s in Hms.
  assert (Hnth : forall i, (i < n)%nat -> moderate (nth i s 0%Q)).
  { intros i Hi. rewrite Forall_forall in Hms. apply Hms, list_elem_of_In, nth_In. exact Hi. }
  rewrite quantile_unfold by (destruct ys; [congruence | discriminate]).
  rewrite sort_map_Fin. fold s. cbv zeta. rewrite length_map. fold n.
  set (N := Z.of_nat (n - 1)) in *.
  destruct (quarter_position N c) as [Hfl Hfr].
  assert (HN : (0 <= N)%Z) by (subst N; lia).
  assert (Hv : (inject_Z N * (c # 4) == inject_Z (N * c) * (1 # 4))%Q).
  { rewrite inject_Z_mult. unfold Qeq, Qmult, inject_Z. cbn. lia. }
  destruct (Qle_bool (inject_Z N) (inject_Z N * (c # 4))) eqn:Hclip.
  - (* one value: both indexes are the last *)
    apply Qle_bool_iff in Hclip. rewrite Hv in Hclip.
    assert (H4 : (4 * N <= N * c)%Z).
    { rewrite Zle_Qle, (inject_Z_mult 4 N). change (inject_Z 4) with 4%Q. lra. }
    assert (HN0 : N = 0%Z) by lia.
    assert (Hn1 : n = 1%nat) by lia.
    assert (Hp : p = 0%nat) by (subst p; rewrite HN0; reflexivity).
    rewrite Hn1, Hp. change (1 - 1)%nat with 0%nat. change (Nat.min (0 + 1) 0) with 0%nat.
    rewrite nth_map_Fin by lia.
    destruct (lerp_spec (nth 0 s 0%Q) (nth 0 s 0%Q) (inject_Z N * (c # 4) + 1))
      as (r & Hr & Hlo & Hhi & _).
    + apply Hnth. lia.
    + apply Hnth. lia.
    + apply Qle_refl.
    + right. right. right. right. rewrite Hv, HN0. reflexivity.
    + exists r. split; [exact Hr|]. split; [exact Hlo|]. split; [exact Hhi|].
      split; intros; lia.
  - (* between two order statistics *)
    assert (Hlt : (inject_Z (N * c) * (1 # 4) < inject_Z N)%Q).
    { rewrite <- Hv. destruct (Qlt_le_dec (inject_Z N * (c # 4)) (inject_Z N)) as [H|H];
        [exact H|]. apply Qle_bool_iff in H. congruence. }
    assert (H4 : (N * c < 4 * N)%Z).
    { rewrite Zlt_Qlt, (inject_Z_mult 4 N). change (inject_Z 4) with 4%Q. lra. }
    rewrite Hfl. fold p.
    assert (Hp1 : (p + 1 <= n - 1)%nat).
    { subst p. pose proof (Z.div_mod (N * c) 4 ltac:(lia)).
      pose proof (Z.mod_pos_bound (N * c) 4 ltac:(lia)).
      assert (0 <= N * c / 4)%Z by (apply Z.div_pos; lia). lia. }
    replace (Nat.min (p + 1) (n - 1)) with (p + 1)%nat by lia.
    rewrite !nth_map_Fin by lia.
    assert (Hpz : inject_Z (N * c / 4) = inject_Z (Z.of_nat p)).
    { subst p. rewrite Z2Nat.id; [reflexivity|]. apply Z.div_pos; lia. }
    pose proof (Z.mod_pos_bound (N * c) 4 ltac:(lia)) as Hrem.
    assert (Ht : (inject_Z N * (c # 4) - inject_Z (N * c / 4) == 0
                  \/ inject_Z N * (c # 4) - inject_Z (N * c / 4) == 1 # 4
                  \/ inject_Z N * (c # 4) - inject_Z (N * c / 4) == 1 # 2
                  \/ inject_Z N * (c # 4) - inject_Z (N * c / 4) == 3 # 4
                  \/ inject_Z N * (c # 4) - inject_Z (N * c / 4) == 1)%Q).
    { rewrite Hfr.
      assert (Hcases : ((N * c) mod 4 = 0 \/ (N * c) mod 4 = 1
                        \/ (N * c) mod 4 = 2 \/ (N * c) mod 4 = 3)%Z) by lia.
      destruct Hcases as [-> | [-> | [-> | ->]]];
        [left | right; left | right; right; left | right; right; right; left]; reflexivity. }
    destruct (lerp_spec (nth p s 0%Q) (nth (p + 1) s 0%Q)
                (inject_Z N * (c # 4) - inject_Z (N * c / 4)))
      as (r & Hr & Hlo & Hhi & _ & H14 & H34).
    + apply Hnth. lia.
    + apply Hnth. lia.
    + apply sorted_nth_le; [exact Hs | lia | lia].
    + exact Ht.
    + exists r. split; [exact Hr|]. split; [exact Hlo|]. split; [exact Hhi|].
      split; intros Hn2 Hc'.
      * assert (HN1 : N = 1%Z) by lia.
        assert (Hp0 : p = 0%nat) by (subst p; rewrite HN1, Hc'; reflexivity).
        rewrite Hp0 in H14. apply H14. rewrite Hfr, HN1, Hc'. reflexivity.
      * assert (HN1 : N = 1%Z) by lia.
        assert (Hp0 : p = 0%nat) by (subst p; rewrite HN1, Hc'; reflexivity).
        rewrite Hp0 in H34. apply H34. rewrite Hfr, HN1, Hc'. reflexivity.
Qed.

(** The median lies between the two middle order statistics, and of two
    values it is the double nearest to their mean. *)
Lemma median_spec (ys : list Q) :
  ys <> [] -> Forall moderate ys ->
  let s := sort Qle_bool ys in
  let n := length s in
  exists m,
    median (map Fin ys) = Fin m
    /\ (nth ((n - 1) / 2) s 0 <= m)%Q /\ (m <= nth (n / 2) s 0)%Q
    /\ (n = 2%nat -> (m == rnd_fin ((1 # 2) * (nth 0 s 0 + nth 1 s 0)))%Q).
Proof.
  intros Hne Hmod s n.
  assert (Hn : (0 < n)%nat).
  { subst n s. rewrite sort_length. destruct ys; [congruence | cbn; lia]. }
  pose proof (sort_sorted ys) as Hs. fold s in Hs.
  pose proof (sort_moderate ys Hmod) as Hms. fold s in Hms.
  assert (Hnth : forall i, (i < n)%nat -> moderate (nth i s 0%Q)).
  { intros i Hi. rewrite Forall_forall in Hms. apply Hms, list_elem_of_In, nth_In. exact Hi. }
  rewrite median_unfold by (destruct ys; [congruence | discriminate]).
  rewrite sort_map_Fin. fold s. cbv zeta. rewrite length_map. fold n.
  assert (Hhalf : (n / 2 < n)%nat) by (apply Nat.div_lt; lia).
  destruct (Nat.odd n) eqn:Hodd.
  - apply Nat.odd_spec in Hodd. destruct Hodd as [k Hk].
    assert (Hk2 : (n / 2 = k)%nat).
    { rewrite Hk. replace (2 * k + 1)%nat with (1 + k * 2)%nat by lia.
      rewrite Nat.div_add by lia. reflexivity. }
    assert (Hk3 : ((n - 1) / 2 = k)%nat).
    { replace (n - 1)%nat with (k * 2)%nat by lia. by apply Nat.div_mul. }
    rewrite nth_map_Fin by lia. rewrite Hk2, Hk3.
    exists (nth k s 0%Q). split; [reflexivity|].
    split; [apply Qle_refl|]. split; [apply Qle_refl|]. intros. lia.
  - assert (Heven : Nat.even n = true) by (rewrite <- Nat.negb_odd, Hodd; reflexivity).
    apply Nat.even_spec in Heven. destruct Heven as [k Hk].
    assert (Hk2 : (n / 2 = k)%nat).
    { rewrite Hk. replace (2 * k)%nat with (k * 2)%nat by lia. by apply Nat.div_mul. }
    assert (Hk3 : ((n - 1) / 2 = k - 1)%nat).
    { replace (n - 1)%nat with (1 + (k - 1) * 2)%nat by lia.
      rewrite Nat.div_add by lia. reflexivity. }
    rewrite Hk2, Hk3. rewrite !nth_map_Fin by lia.
    destruct (mean_of_two (nth (k - 1) s 0%Q) (nth k s 0%Q)) as (m & Hm & Hmean & Hlo & Hhi).
    + apply Hnth. lia.
    + apply Hnth. lia.
    + apply sorted_nth_le; [exact Hs | lia | lia].
    + exists m. split; [exact Hm|]. split; [exact Hlo|]. split; [exact Hhi|].
      intros Hn2. assert (k = 1%nat) as -> by lia. exact Hmean.
Qed.

(** The doubles of a column within the bound. *)
Lemma floats_within_bound (s : Series) :
  within_bound s = true ->
  exists ys, floats s = map Fin ys /\ Forall moderate ys.
Proof.
  unfold within_bound, floats.
  assert (HB' : (value_bound (infer_dtype s) <= pow2 1023)%Q).
  { destruct (infer_dtype s); cbn [value_bound]; try apply Qle_refl. apply pow2_le. lia. }
  set (B := value_bound (infer_dtype s)) in *. clearbody B.
  induction (numbers s) as [|q l IH]; cbn [map forallb].
  - intros _. exists []. split; [reflexivity | constructor].
  - intros H. apply andb_prop in H as [Hq Hl].
    destruct (IH Hl) as (ys & Hys & Hm).
    rewrite Hys. unfold rnd in Hq |- *.
    destruct (Qle_bool (pow2 1024) (Qabs (rnd_fin q))) eqn:Hbig; [cbn in Hq; discriminate|].
    exists (rnd_fin q :: ys). split; [reflexivity|].
    constructor; [|exact Hm]. split; [apply rnd_fin_is_representable|].
    cbn [f_abs f_lt] in Hq. apply negb_true_iff, Qle_bool_false_lt in Hq. lra.
Qed.

Lemma numeric_stats_fields E col tr :
  let st := fst (ProfileAgent._analyze_numeric_column E col tr) in
  let xs := floats (snd col) in
  ProfileAgent.min st = minimum xs
  /\ ProfileAgent.q25 st = quantile (1 # 4) xs
  /\ ProfileAgent.median st = Pandas.median xs
  /\ ProfileAgent.q75 st = quantile (3 # 4) xs
  /\ ProfileAgent.max st = maximum xs
  /\ ProfileAgent.skewness st = skew (skew_f64 E) xs.
Proof.
  unfold ProfileAgent._analyze_numeric_column. rewrite bind_eq. unfold generate.
  cbn [fst snd]. destruct (lm E tr _); cbn; repeat split; reflexivity.
Qed.

Lemma numeric_stats_ordered_aux (ys : list Q) :
  ys <> [] -> Forall moderate ys ->
  exists mn a m b mx,
    minimum (map Fin ys) = Fin mn /\ quantile (1 # 4) (map Fin ys) = Fin a
    /\ median (map Fin ys) = Fin m
    /\ quantile (3 # 4) (map Fin ys) = Fin b /\ maximum (map Fin ys) = Fin mx
    /\ (mn <= a)%Q /\ (a <= m)%Q /\ (m <= b)%Q /\ (b <= mx)%Q.
Proof.
  intros Hne Hmod.
  destruct (minimum_spec ys Hne) as (mn & Hmn & Hmin).
  destruct (maximum_spec ys Hne) as (mx & Hmx & Hmax).
  destruct (median_spec ys Hne Hmod) as (m & Hm & Hm1 & Hm2 & Hm3).
  destruct (quantile_spec 1 ys ltac:(by left) Hne Hmod) as (a & Ha & Ha1 & Ha2 & Ha3 & _).
  destruct (quantile_spec 3 ys ltac:(by right) Hne Hmod) as (b & Hb & Hb1 & Hb2 & _ & Hb3).
  pose proof (sort_sorted ys) as Hs.
  set (s := sort Qle_bool ys) in *. set (n := length s) in *.
  assert (Hn : (0 < n)%nat).
  { subst n s. rewrite sort_length. destruct ys; [congruence | cbn; lia]. }
  assert (Hin : forall i, (i < n)%nat -> In (nth i s 0%Q) ys).
  { intros i Hi. apply sort_In. fold s. apply nth_In. exact Hi. }
  set (N := Z.of_nat (n - 1)) in *.
  assert (HN : (0 <= N)%Z) by (subst N; lia).
  set (p1 := Z.to_nat (N * 1 / 4)) in *. set (p3 := Z.to_nat (N * 3 / 4)) in *.
  assert (Hp1 : (Z.of_nat p1 = N / 4)%Z).
  { subst p1. rewrite Z.mul_1_r, Z2Nat.id; [reflexivity | apply Z.div_pos; lia]. }
  assert (Hp3 : (Z.of_nat p3 = N * 3 / 4)%Z).
  { subst p3. rewrite Z2Nat.id; [reflexivity | apply Z.div_pos; lia]. }
  assert (Hh1 : (Z.of_nat ((n - 1) / 2) = N / 2)%Z).
  { subst N. rewrite Nat2Z.inj_div. reflexivity. }
  assert (Hh2 : (Z.of_nat (n / 2) = (N + 1) / 2)%Z).
  { subst N. rewrite Nat2Z.inj_div. f_equal. lia. }
  pose proof (Z.div_mod N 4 ltac:(lia)). pose proof (Z.mod_pos_bound N 4 ltac:(lia)).
  pose proof (Z.div_mod (N * 3) 4 ltac:(lia)). pose proof (Z.mod_pos_bound (N * 3) 4 ltac:(lia)).
  pose proof (Z.div_mod N 2 ltac:(lia)). pose proof (Z.mod_pos_bound N 2 ltac:(lia)).
  pose proof (Z.div_mod (N + 1) 2 ltac:(lia)). pose proof (Z.mod_pos_bound (N + 1) 2 ltac:(lia)).
  assert (Hp1n : (p1 < n)%nat) by lia.
  assert (Hp3n : (p3 < n)%nat) by lia.
  exists mn, a, m, b, mx.
  split; [exact Hmn|]. split; [exact Ha|]. split; [exact Hm|]. split; [exact Hb|].
  split; [exact Hmx|].
  split; [|split; [|split]].
  - pose proof (Hmin _ (Hin p1 Hp1n)). lra.
  - destruct (Nat.eq_dec n 2) as [Hn2|Hn2].
    + specialize (Ha3 Hn2 eq_refl). specialize (Hm3 Hn2). rewrite Hm3. exact Ha3.
    + assert (Hle : (nth (Nat.min (p1 + 1) (n - 1)) s 0 <= nth ((n - 1) / 2) s 0)%Q).
      { apply sorted_nth_le; [exact Hs | lia | lia]. }
      lra.
  - destruct (Nat.eq_dec n 2) as [Hn2|Hn2].
    + specialize (Hb3 Hn2 eq_refl). specialize (Hm3 Hn2). rewrite Hm3. exact Hb3.
    + assert (Hle : (nth (n / 2) s 0 <= nth p3 s 0)%Q).
      { apply sorted_nth_le; [exact Hs | lia | lia]. }
      lra.
  - assert (Hlast : (Nat.min (p3 + 1) (n - 1) < n)%nat) by lia.
    pose proof (Hmax _ (Hin _ Hlast)). lra.
Qed.

Lemma numeric_stats_ordered_of_fields (st : ProfileAgent.NumericStats) (s : Series) :
  ProfileAgent.min st = minimum (floats s) ->
  ProfileAgent.q25 st = quantile (1 # 4) (floats s) ->
  ProfileAgent.median st = Pandas.median (floats s) ->
  ProfileAgent.q75 st = quantile (3 # 4) (floats s) ->
  ProfileAgent.max st = maximum (floats s) ->
  (0 < length (floats s))%nat -> within_bound s = true ->
  stats_ordered st = true.
Proof.
  intros H1 H2 H3 H4 H5 Hlen Hb.
  destruct (floats_within_bound s Hb) as (ys & Hys & Hmod).
  assert (Hne : ys <> []).
  { intros ->. rewrite Hys in Hlen. cbn in Hlen. lia. }
  destruct (numeric_stats_ordered_aux ys Hne Hmod)
    as (mn & a & m & b & mx & G1 & G2 & G3 & G4 & G5 & L1 & L2 & L3 & L4).
  unfold stats_ordered. rewrite H1, H2, H3, H4, H5, Hys, G1, G2, G3, G4, G5. cbn [f_le].
  apply Qle_bool_iff in L1, L2, L3, L4. by rewrite L1, L2, L3, L4.
Qed.



(** Over a whole dataset: the profile agent returns one record for each
    numeric column, in order, and the record of a column that has a value
    and keeps the bound is ordered. *)
Lemma profile_agent_stats_ordered (E : Extern) (df : DataFrame) (tr : list Call) :
  exists r,
    fst (ProfileAgent.analyze E df tr) = Ok r
    /\ Forall2
         (fun col st =>
            ProfileAgent.column_name st = fst col
            /\ ((0 < length (floats (snd col)))%nat -> within_bound (snd col) = true ->
                stats_ordered st = true))
         (numeric_columns df) (ProfileAgent.numeric_analysis r).
Proof.
  unfold ProfileAgent.analyze. rewrite !bind_eq. eexists. split; [reflexivity|].
  cbn [ProfileAgent.numeric_analysis].
  apply for_each_Forall2. intros col tr0 _. split.
  - unfold ProfileAgent._analyze_numeric_column. rewrite bind_eq. unfold generate.
    cbn [fst snd]. destruct (lm E tr0 _); reflexivity.
  - intros Hlen Hb.
    destruct (numeric_stats_fields E col tr0) as (H1 & H2 & H3 & H4 & H5 & _).
    by apply (numeric_stats_ordered_of_fields _ (snd col)).
Qed.


(** It fails as well on the two values -1.7e308 and 1.7e308: their
    difference is beyond the doubles, the first quartile comes out as
    [inf] and the third as [-inf]. *)
Example numeric_stats_unordered_near_overflow :
  match fst (ProfileAgent.analyze (Examples.extern_with Examples.failing_lm)
               Examples.wide []) with
  | Ok r =>
      map (fun st => (ProfileAgent.q25 st, ProfileAgent.q75 st, stats_ordered st))
          (ProfileAgent.numeric_analysis r)
  | Raise _ => []
  end = [(Inf false, Inf true, false)].
Proof. vm_compute. reflexivity. Qed.

(** The quartiles of 1, 2, 3, 4, 5, 100 are 2.25 and 4.75. *)
Example quantile_example :
  quantile (1 # 4) (map Fin [1; 2; 3; 4; 5; 100]%Q) = Fin (9 # 4)
  /\ quantile (3 # 4) (map Fin [1; 2; 3; 4; 5; 100]%Q) = Fin (19 # 4)
  /\ median (map Fin [1; 2; 3; 4; 5; 100]%Q) = Fin (7 # 2).
Proof. repeat split; vm_compute; reflexivity. Qed.

(** * Further properties *)

(** ** Rendering of counts *)

Example format_thousands_examples :
  map SupervisorReport.format_thousands [0; 999; 1000; 1234]%nat
  = ["0"; "999"; "1,000"; "1,234"].
Proof. vm_compute. reflexivity. Qed.

(** ** The supervisor, whatever its agents *)

(** The run of [analyze_dataset], stage after stage: each agent that is
    called is split into the two cases of returning and raising. *)
Ltac unfold_pipeline :=
  unfold SupervisorAgent.analyze_dataset, SupervisorAgent.step_schema,
    SupervisorAgent.step_profile, SupervisorAgent.step_quality,
    SupervisorAgent.step_ml_advisor, SupervisorAgent.step_deployment,
    SupervisorAgent.step_business_communication, SupervisorAgent.run_stage,
    LM.bind, LM.ret.

Ltac split_stage :=
  match goal with
  | |- context [SupervisorAgent.schema_agent ?s ?d ?t] =>
      destruct (SupervisorAgent.schema_agent s d t) as [[?|?] ?] eqn:?
  | |- context [SupervisorAgent.profile_agent ?s ?d ?t] =>
      destruct (SupervisorAgent.profile_agent s d t) as [[?|?] ?] eqn:?
  | |- context [SupervisorAgent.quality_agent ?s ?d ?t] =>
      destruct (SupervisorAgent.quality_agent s d t) as [[?|?] ?] eqn:?
  | |- context [SupervisorAgent.ml_advisor_agent ?s ?a ?b ?c ?t] =>
      destruct (SupervisorAgent.ml_advisor_agent s a b c t) as [[?|?] ?] eqn:?
  | |- context [SupervisorAgent.deployment_agent ?s ?a ?b ?t] =>
      destruct (SupervisorAgent.deployment_agent s a b t) as [[?|?] ?] eqn:?
  | |- context [SupervisorAgent.business_communication_agent ?s ?a ?b ?t] =>
      destruct (SupervisorAgent.business_communication_agent s a b t) as [[?|?] ?] eqn:?
  end; cbn.

Ltac run_pipeline := unfold_pipeline; cbn; repeat split_stage.

(** X1. In the result of a run, a result is present only with the results
    it was computed from: the ML recommendations with the three analyses,
    the deployment strategy with the ML recommendations, the business
    communication with the deployment strategy. *)
Theorem results_closed_under_dependencies :
  forall (self : SupervisorAgent.Agents) (df : DataFrame) (tr : list Call),
    let r := fst (SupervisorAgent.analyze_dataset self df tr) in
    (is_Some (SupervisorAgent.ml_recommendations r) ->
     is_Some (SupervisorAgent.schema_analysis r)
     /\ is_Some (SupervisorAgent.profile_analysis r)
     /\ is_Some (SupervisorAgent.quality_analysis r))
    /\ (is_Some (SupervisorAgent.deployment_strategy r) ->
        is_Some (SupervisorAgent.ml_recommendations r))
    /\ (is_Some (SupervisorAgent.business_communication r) ->
        is_Some (SupervisorAgent.deployment_strategy r)).
Proof.
  intros self df tr r. subst r. run_pipeline;
    (split; [|split]); intros [x Hx]; try discriminate Hx; repeat split; eauto.
Qed.

(** X2. The status is "completed" exactly when all six results are
    present. *)
Theorem completed_iff_all_present :
  forall (self : SupervisorAgent.Agents) (df : DataFrame) (tr : list Call),
    let r := fst (SupervisorAgent.analyze_dataset self df tr) in
    SupervisorAgent.status r = "completed"
    <-> is_Some (SupervisorAgent.schema_analysis r)
        /\ is_Some (SupervisorAgent.profile_analysis r)
        /\ is_Some (SupervisorAgent.quality_analysis r)
        /\ is_Some (SupervisorAgent.ml_recommendations r)
        /\ is_Some (SupervisorAgent.deployment_strategy r)
        /\ is_Some (SupervisorAgent.business_communication r).
Proof.
  intros self df tr r. subst r. run_pipeline;
    (split;
     [ intros H; try discriminate H; repeat split; eauto
     | intros (H1 & H2 & H3 & H4 & H5 & H6); try reflexivity;
       first [ by destruct H1 | by destruct H2 | by destruct H3
             | by destruct H4 | by destruct H5 | by destruct H6 ] ]).
Qed.

(** X3. [agents_completed] lists exactly the stages whose result is present,
    each once, in the order of the pipeline. *)
Theorem agents_completed_are_the_present_stages :
  forall (self : SupervisorAgent.Agents) (df : DataFrame) (tr : list Call),
    let r := fst (SupervisorAgent.analyze_dataset self df tr) in
    SupervisorAgent.agents_completed r = present_stages r.
Proof.
  intros self df tr r. subst r. run_pipeline; reflexivity.
Qed.

(** X4. Every stage that ran left one trace: a name in [agents_completed] or
    a line in [errors]. The three analyses always run, so there are between
    three and six traces, and every error is the label of a stage followed by
    " failed: " and the message of the exception. *)
Theorem every_stage_is_accounted_for :
  forall (self : SupervisorAgent.Agents) (df : DataFrame) (tr : list Call),
    let r := fst (SupervisorAgent.analyze_dataset self df tr) in
    (3 <= length (SupervisorAgent.agents_completed r) + length (SupervisorAgent.errors r) <= 6)%nat
    /\ Forall (fun e => exists label msg,
                   label ∈ stage_labels /\ e = label +:+ " failed: " +:+ msg)
         (SupervisorAgent.errors r).
Proof.
  intros self df tr r. subst r.
  assert (Hl : forall l, l ∈ stage_labels -> forall msg : string,
               exists label msg', label ∈ stage_labels /\
                 l +:+ " failed: " +:+ msg = label +:+ " failed: " +:+ msg') by eauto.
  run_pipeline; (split; [lia|]);
    repeat (apply Forall_cons; split; [apply Hl, list_elem_of_In; cbn; tauto|]);
    apply Forall_nil; exact I.
Qed.

(** X5. The three analyses always run, one after the other on the same
    dataset, and none depends on how another ended: what the result holds for
    each of them is what its agent returned, or nothing when it raised. *)
Theorem analyses_run_independently :
  forall (self : SupervisorAgent.Agents) (df : DataFrame) (tr : list Call),
    let o1 := SupervisorAgent.schema_agent self df tr in
    let o2 := SupervisorAgent.profile_agent self df (snd o1) in
    let o3 := SupervisorAgent.quality_agent self df (snd o2) in
    let r := fst (SupervisorAgent.analyze_dataset self df tr) in
    SupervisorAgent.schema_analysis r = returned (fst o1)
    /\ SupervisorAgent.profile_analysis r = returned (fst o2)
    /\ SupervisorAgent.quality_analysis r = returned (fst o3).
Proof.
  intros self df tr o1 o2 o3 r. subst r o3 o2 o1.
  unfold_pipeline.
  destruct (SupervisorAgent.schema_agent self df tr) as [[s|e1] t1]; cbn [fst snd];
    destruct (SupervisorAgent.profile_agent self df t1) as [[p|e2] t2]; cbn [fst snd];
    destruct (SupervisorAgent.quality_agent self df t2) as [[q|e3] t3]; cbn;
    repeat split_stage; repeat split; reflexivity.
Qed.

(** X6. When the three analyses return and the ML advisor raises, the run
    ends there: the log is the one the ML advisor left, the deployment and
    business communication stages are not run, the three analyses are kept,
    and the one error of the run is that of the ML advisor. *)
Theorem ml_advisor_failure_ends_the_run :
  forall (self : SupervisorAgent.Agents) (df : DataFrame) (tr t1 t2 t3 t4 : list Call)
         (s : SchemaAgent.SchemaResult) (p : ProfileAgent.ProfileResult)
         (q : QualityAgent.QualityResult) (msg : string),
    SupervisorAgent.schema_agent self df tr = (Ok s, t1) ->
    SupervisorAgent.profile_agent self df t1 = (Ok p, t2) ->
    SupervisorAgent.quality_agent self df t2 = (Ok q, t3) ->
    SupervisorAgent.ml_advisor_agent self s p q t3 = (Raise msg, t4) ->
    SupervisorAgent.analyze_dataset self df tr
    = ({| SupervisorAgent.status := "partial_failure";
          SupervisorAgent.agents_completed := ["schema_agent"; "profile_agent"; "quality_agent"];
          SupervisorAgent.schema_analysis := Some s;
          SupervisorAgent.profile_analysis := Some p;
          SupervisorAgent.quality_analysis := Some q;
          SupervisorAgent.ml_recommendations := None;
          SupervisorAgent.deployment_strategy := None;
          SupervisorAgent.business_communication := None;
          SupervisorAgent.errors := ["ML Advisor Agent failed: " +:+ msg] |}, t4).
Proof.
  intros self df tr t1 t2 t3 t4 s p q msg H1 H2 H3 H4.
  unfold_pipeline. rewrite H1. cbn. rewrite H2. cbn. rewrite H3. cbn. rewrite H4.
  reflexivity.
Qed.

(** X6 on the small dataset, with an ML advisor that raises. *)
Lemma ml_advisor_failure_ends_the_run_witness :
  let E := Examples.extern_with Examples.echo_lm in
  let r := fst (SupervisorAgent.analyze_dataset (raising_ml_advisor E) Examples.small []) in
  SupervisorAgent.errors r = ["ML Advisor Agent failed: no target column"]
  /\ SupervisorAgent.deployment_strategy r = None
  /\ length (snd (SupervisorAgent.analyze_dataset (raising_ml_advisor E) Examples.small []))
     = 7%nat.
Proof.
  intros E r. subst r.
  set (self := raising_ml_advisor E).
  pose (o1 := SupervisorAgent.schema_agent self Examples.small []).
  pose (o2 := SupervisorAgent.profile_agent self Examples.small (snd o1)).
  pose (o3 := SupervisorAgent.quality_agent self Examples.small (snd o2)).
  assert (H1 : exists s, o1 = (Ok s, snd o1)) by (vm_compute; eauto).
  destruct H1 as [s H1].
  assert (H2 : exists p, o2 = (Ok p, snd o2)) by (vm_compute; eauto).
  destruct H2 as [p H2].
  assert (H3 : exists q, o3 = (Ok q, snd o3)) by (vm_compute; eauto).
  destruct H3 as [q H3].
  rewrite (ml_advisor_failure_ends_the_run self Examples.small [] (snd o1) (snd o2) (snd o3)
             (snd o3) s p q "no target column" H1 H2 H3 eq_refl).
  split; [reflexivity|]. split; [reflexivity|]. vm_compute. reflexivity.
Defined.

(** X7. When the ML advisor returns and the deployment agent raises, the
    business communication stage is not run, the ML recommendations are
    kept, and the one error of the run is that of the deployment agent. *)
Theorem deployment_failure_ends_the_run :
  forall (self : SupervisorAgent.Agents) (df : DataFrame) (tr t1 t2 t3 t4 t5 : list Call)
         (s : SchemaAgent.SchemaResult) (p : ProfileAgent.ProfileResult)
         (q : QualityAgent.QualityResult) (ml : MLAdvisorAgent.MLRecommendation)
         (msg : string),
    SupervisorAgent.schema_agent self df tr = (Ok s, t1) ->
    SupervisorAgent.profile_agent self df t1 = (Ok p, t2) ->
    SupervisorAgent.quality_agent self df t2 = (Ok q, t3) ->
    SupervisorAgent.ml_advisor_agent self s p q t3 = (Ok ml, t4) ->
    SupervisorAgent.deployment_agent self (Some s) ml t4 = (Raise msg, t5) ->
    SupervisorAgent.analyze_dataset self df tr
    = ({| SupervisorAgent.status := "partial_failure";
          SupervisorAgent.agents_completed :=
            ["schema_agent"; "profile_agent"; "quality_agent"; "ml_advisor_agent"];
          SupervisorAgent.schema_analysis := Some s;
          SupervisorAgent.profile_analysis := Some p;
          SupervisorAgent.quality_analysis := Some q;
          SupervisorAgent.ml_recommendations := Some ml;
          SupervisorAgent.deployment_strategy := None;
          SupervisorAgent.business_communication := None;
          SupervisorAgent.errors := ["Deployment Agent failed: " +:+ msg] |}, t5).
Proof.
  intros self df tr t1 t2 t3 t4 t5 s p q ml msg H1 H2 H3 H4 H5.
  unfold_pipeline. rewrite H1. cbn. rewrite H2. cbn. rewrite H3. cbn. rewrite H4. cbn.
  rewrite H5. reflexivity.
Qed.

(** X7 on the small dataset, with a deployment agent that raises. *)
Lemma deployment_failure_ends_the_run_witness :
  let E := Examples.extern_with Examples.echo_lm in
  let r := fst (SupervisorAgent.analyze_dataset (raising_deployment E) Examples.small []) in
  SupervisorAgent.errors r = ["Deployment Agent failed: no plan"]
  /\ is_Some (SupervisorAgent.ml_recommendations r)
  /\ SupervisorAgent.business_communication r = None.
Proof.
  intros E r. subst r.
  set (self := raising_deployment E).
  pose (o1 := SupervisorAgent.schema_agent self Examples.small []).
  pose (o2 := SupervisorAgent.profile_agent self Examples.small (snd o1)).
  pose (o3 := SupervisorAgent.quality_agent self Examples.small (snd o2)).
  assert (H1 : exists s, o1 = (Ok s, snd o1)) by (vm_compute; eauto).
  destruct H1 as [s H1].
  assert (H2 : exists p, o2 = (Ok p, snd o2)) by (vm_compute; eauto).
  destruct H2 as [p H2].
  assert (H3 : exists q, o3 = (Ok q, snd o3)) by (vm_compute; eauto).
  destruct H3 as [q H3].
  pose (o4 := SupervisorAgent.ml_advisor_agent self s p q (snd o3)).
  assert (H4 : exists ml, o4 = (Ok ml, snd o4)).
  { subst o4 self. unfold raising_deployment, with_downstream.
    cbn [SupervisorAgent.ml_advisor_agent].
    unfold MLAdvisorAgent.analyze, LM.bind, LM.ret, generate. cbn. eauto. }
  destruct H4 as [ml H4].
  rewrite (deployment_failure_ends_the_run self Examples.small [] (snd o1) (snd o2) (snd o3)
             (snd o4) (snd o4) s p q ml "no plan" H1 H2 H3 H4 eq_refl).
  split; [reflexivity|]. split; [eauto | reflexivity].
Defined.

(** ** The summary and the PRD, on the result of a run *)

(** X8. On the result of a run [get_summary] never raises, although it
    subscripts the schema and quality results without a test: they are
    present whenever the status is "completed". When the run had errors the
    summary is the warning followed by the errors, joined by commas. *)
Theorem get_summary_of_a_run :
  forall (E : Extern) (self : SupervisorAgent.Agents) (df : DataFrame) (tr : list Call),
    let r := fst (SupervisorAgent.analyze_dataset self df tr) in
    exists text,
      SupervisorReport.get_summary E r = Ok text
      /\ (SupervisorAgent.errors r <> [] ->
          text = "⚠️ Analysis completed with errors: " +:+ join ", " (SupervisorAgent.errors r)).
Proof.
  intros E self df tr r. subst r. run_pipeline;
    (eexists; split; [reflexivity|]; intros H; first [reflexivity | by destruct H]).
Qed.

(** Outside such a result the summary can raise: a record marked
    "completed" that has no schema result. *)
Example get_summary_raises_without_schema :
  SupervisorReport.get_summary (Examples.extern_with Examples.echo_lm)
    (SupervisorAgent.set_status "completed" SupervisorAgent.initial_results)
  = Raise "'NoneType' object is not subscriptable".
Proof. reflexivity. Qed.

(** X9. Whenever the page offers the PRD for the result of a run (the
    business communication is present and the status is "completed"), the
    guard of [generate_prd] passes: the five results it needs are present and
    the answer is that of the product owner agent on them, or the error
    document of the supervisor when that agent raises. *)
Theorem generate_prd_when_offered :
  forall (self : SupervisorAgent.Agents) (df : DataFrame) (tr tr' : list Call),
    let r := fst (SupervisorAgent.analyze_dataset self df tr) in
    App.prd_offered r = true ->
    exists s q ml d b,
      SupervisorAgent.schema_analysis r = Some s
      /\ SupervisorAgent.quality_analysis r = Some q
      /\ SupervisorAgent.ml_recommendations r = Some ml
      /\ SupervisorAgent.deployment_strategy r = Some d
      /\ SupervisorAgent.business_communication r = Some b
      /\ SupervisorAgent.generate_prd self r tr'
         = match SupervisorAgent.po_agent self s q ml d b tr' with
           | (Ok prd, t) => (prd, t)
           | (Raise e, t) =>
               ({| POAgent.prd_document :=
                     "# Error" +:+ POAgent.nl +:+ POAgent.nl
                     +:+ "PRD generation failed: " +:+ e;
                   POAgent.status := "error" |}, t)
           end.
Proof.
  intros self df tr tr' r. subst r. unfold App.prd_offered. run_pipeline;
    intros H; try discriminate H.
  do 5 eexists. repeat (split; [reflexivity|]).
  unfold SupervisorAgent.generate_prd, LM.bind, LM.ret. cbn.
  destruct (SupervisorAgent.po_agent self _ _ _ _ _ tr') as [[prd|e] t]; reflexivity.
Qed.

(** X9 on the run over the small dataset with a collaborator that answers. *)
Lemma generate_prd_when_offered_witness :
  let self := SupervisorAgent.__init__ (Examples.extern_with Examples.echo_lm) in
  let run := SupervisorAgent.analyze_dataset self Examples.small [] in
  App.prd_offered (fst run) = true
  /\ POAgent.status (fst (SupervisorAgent.generate_prd self (fst run) (snd run))) = "success".
Proof.
  intros self run.
  assert (H : App.prd_offered (fst run) = true) by (vm_compute; reflexivity).
  split; [exact H|].
  destruct (generate_prd_when_offered self Examples.small [] (snd run) H)
    as (s & q & ml & d & b & _ & _ & _ & _ & _ & Heq).
  fold run in Heq. rewrite Heq. reflexivity.
Defined.

(** X10. The product owner agent makes exactly one call, to the PRD
    generator, and never raises: its status is "success" when the call
    answers and "error" when it fails, the failure being quoted in the
    document. *)
Theorem po_agent_one_call :
  forall (E : Extern) (s : SchemaAgent.SchemaResult) (q : QualityAgent.QualityResult)
         (ml : MLAdvisorAgent.MLRecommendation) (d : DeploymentAgent.DeploymentStrategy)
         (b : BusinessCommunicationAgent.BusinessCommunication) (tr : list Call),
    exists c prd,
      POAgent.generate_prd E s q ml d b tr = (Ok prd, tr ++ [c])
      /\ signature c = "PRDGenerator"
      /\ map fst (inputs c)
         = ["ml_use_case"; "feature_engineering"; "deployment_strategy"; "business_summary";
            "quality_issues"]
      /\ match lm E tr c with
         | Prediction f =>
             POAgent.status prd = "success" /\ POAgent.prd_document prd = f "prd_document"
         | Failure e =>
             POAgent.status prd = "error"
             /\ POAgent.prd_document prd
                = "# PRD Generation Failed" +:+ POAgent.nl +:+ POAgent.nl +:+ "Error: " +:+ e
         end.
Proof.
  intros E s q ml d b tr.
  unfold POAgent.generate_prd, LM.bind, LM.ret, generate.
  match goal with |- context [lm E tr ?c] => set (call := c) end.
  destruct (lm E tr call) eqn:Hr; do 2 eexists;
    (split; [reflexivity|]); (split; [reflexivity|]); (split; [reflexivity|]);
    rewrite Hr; split; reflexivity.
Qed.

(** ** The schema agent *)

Lemma for_each_try_calls {A B} (f : A -> M (Result B)) (P : A -> B -> Call -> Prop)
    (l : list A) :
  (forall a tr, a ∈ l -> exists b c, f a tr = (Ok b, tr ++ [c]) /\ P a b c) ->
  forall tr, exists bs cs,
    for_each_try f l tr = (Ok bs, tr ++ cs) /\ Forall3 P l bs cs.
Proof.
  induction l as [|a l IH]; intros Hf tr.
  - exists [], []. split; [cbn; unfold LM.ret; by rewrite app_nil_r | constructor].
  - destruct (Hf a tr) as (b & c & Hb & HP); [by left|].
    destruct (IH (fun a' tr' Hin => Hf a' tr' (list_elem_of_further _ _ _ Hin)) (tr ++ [c]))
      as (bs & cs & Hbs & HPs).
    exists (b :: bs), (c :: cs). split; [|by constructor].
    cbn [for_each_try]. unfold LM.bind at 1. rewrite Hb. unfold LM.bind at 1. rewrite Hbs.
    unfold LM.ret. by rewrite <- app_assoc.
Qed.

Lemma imap_fst_names {B} (f : nat -> string -> string * B) (l : list string) :
  (forall j name, fst (f j name) = name) -> map fst (imap f l) = l.
Proof.
  revert f. induction l as [|x l IH]; intros f Hf; cbn; [reflexivity|].
  rewrite Hf. f_equal. apply IH. intros j name. apply Hf.
Qed.

Lemma columns_names (df : DataFrame) : map fst (Pandas.columns df) = df_names df.
Proof. unfold Pandas.columns. by apply imap_fst_names. Qed.

Lemma unique_length (s : list cell) : (length (unique s) <= length s)%nat.
Proof.
  induction s as [|c s IH]; cbn; [lia|].
  pose proof (length_filter (fun d => cell_eqb c d = false) (unique s)). lia.
Qed.

Lemma dropna_length (s : Series) : (length (dropna s) + Pandas.null_count s = length s)%nat.
Proof.
  unfold dropna, Pandas.null_count, Series in *. induction s as [|c s IH]; [reflexivity|].
  rewrite !filter_cons. destruct c; cbn -[filter];
    repeat case_decide; try congruence; cbn -[filter]; lia.
Qed.

(** What the analysis of one column does when the dataset has a row. *)
Lemma _analyze_column_spec E df col tr :
  (0 < len df)%nat -> col ∈ Pandas.columns df ->
  exists cp c,
    SchemaAgent._analyze_column E df col tr = (Ok cp, tr ++ [c])
    /\ signature c = "SchemaInterpreter"
    /\ input_of "column_name" c = Some (fst col)
    /\ input_of "total_count" c = Some (str_int (len df))
    /\ SchemaAgent.column_name cp = fst col
    /\ (SchemaAgent.null_count cp + SchemaAgent.unique_count cp <= len df)%nat
    /\ (SchemaAgent.null_count cp = len df ->
        SchemaAgent.unique_count cp = 0%nat
        /\ SchemaAgent.sample_values cp = "All null values").
Proof.
  intros Hlen Hcol.
  pose proof (columns_length df col Hcol) as Hcl.
  pose proof (dropna_length (snd col)) as Hdrop.
  pose proof (unique_length (dropna (snd col))) as Huniq.
  unfold SchemaAgent._analyze_column, LM.bind, LM.ret, generate.
  destruct (len df) as [|n] eqn:Hn; [lia|]. cbn [truediv].
  match goal with |- context [lm E tr ?c] => set (call := c) end.
  destruct (lm E tr call); do 2 eexists;
    (split; [reflexivity|]); cbn -[dropna unique Pandas.null_count str_int];
    (split; [reflexivity|]); (split; [reflexivity|]); (split; [reflexivity|]);
    (split; [reflexivity|]); unfold nunique;
    (split; [lia|]); intros Hall;
    (assert (Hnil : dropna (snd col) = []) by (apply length_zero_iff_nil; lia));
    rewrite Hnil; split; reflexivity.
Qed.

(** X11. [SchemaAgent.analyze] raises exactly on a dataset that has a column
    and no row; on every other dataset it returns. *)
Theorem schema_agent_raises_iff :
  forall (E : Extern) (df : DataFrame) (tr : list Call),
    (exists msg, fst (SchemaAgent.analyze E df tr) = Raise msg)
    <-> (len df = 0%nat /\ df_names df <> []).
Proof.
  intros E df tr. split.
  - intros [msg Hraise].
    destruct (Nat.eq_dec (len df) 0) as [Hz|Hnz].
    + split; [exact Hz|]. intros Hnil.
      unfold SchemaAgent.analyze, Pandas.columns in Hraise. rewrite Hnil in Hraise.
      cbn in Hraise. discriminate Hraise.
    + exfalso.
      destruct (for_each_try_ok (SchemaAgent._analyze_column E df) (fun _ _ => True)
                  (Pandas.columns df)) with (tr := tr) as (cps & Hcps & _).
      { intros col tr0 Hcol.
        destruct (_analyze_column_spec E df col tr0) as (cp & c & Heq & _); [lia | exact Hcol |].
        exists cp. by rewrite Heq. }
      unfold SchemaAgent.analyze in Hraise. rewrite bind_eq, Hcps in Hraise.
      discriminate Hraise.
  - intros [Hz Hnames]. exists "division by zero". by apply schema_agent_without_rows.
Qed.

(** X11 on the dataset of one named column and no row. *)
Lemma schema_agent_raises_iff_witness :
  (exists msg, fst (SchemaAgent.analyze (Examples.extern_with Examples.echo_lm)
                      Examples.no_rows []) = Raise msg)
  /\ len Examples.one_row <> 0%nat.
Proof.
  split.
  - apply (schema_agent_raises_iff (Examples.extern_with Examples.echo_lm) Examples.no_rows []).
    split; [reflexivity | discriminate].
  - cbn. lia.
Defined.

(** X12. On a dataset with columns and no row the schema agent still asks
    the collaborator about the first column, and raises only then: one call
    is made, for no result. *)
Theorem schema_agent_calls_before_raising :
  forall (E : Extern) (df : DataFrame) (tr : list Call) (name : string) (names : list string),
    len df = 0%nat -> df_names df = name :: names ->
    exists c,
      SchemaAgent.analyze E df tr = (Raise "division by zero", tr ++ [c])
      /\ signature c = "SchemaInterpreter"
      /\ input_of "column_name" c = Some name
      /\ input_of "total_count" c = Some "0".
Proof.
  intros E df tr name names Hlen Hnames.
  unfold SchemaAgent.analyze, Pandas.columns. rewrite Hnames. cbn [imap for_each_try].
  unfold SchemaAgent._analyze_column at 1.
  unfold LM.bind, LM.ret, generate. rewrite Hlen. cbn [truediv].
  match goal with |- context [lm E tr ?c] => set (call := c) end.
  exists call. destruct (lm E tr call); repeat split; reflexivity.
Qed.

(** X12 on the dataset of one named column and no row. *)
Lemma schema_agent_calls_before_raising_witness :
  len Examples.no_rows = 0%nat
  /\ length (snd (SchemaAgent.analyze (Examples.extern_with Examples.echo_lm)
                    Examples.no_rows [])) = 1%nat.
Proof.
  split; [reflexivity|].
  destruct (schema_agent_calls_before_raising (Examples.extern_with Examples.echo_lm)
              Examples.no_rows [] "a" [] eq_refl eq_refl) as (c & Heq & _).
  rewrite Heq. reflexivity.
Defined.

Lemma schema_analyze_spec :
  forall (E : Extern) (df : DataFrame) (tr : list Call),
    (0 < len df)%nat ->
    exists r calls,
      SchemaAgent.analyze E df tr = (Ok r, tr ++ calls)
      /\ Forall (fun c => signature c = "SchemaInterpreter") calls
      /\ map (input_of "column_name") calls = map Some (df_names df)
      /\ map SchemaAgent.column_name (SchemaAgent.columns r) = df_names df
      /\ SchemaAgent.total_columns (SchemaAgent.summary r) = length (df_names df)
      /\ SchemaAgent.total_rows (SchemaAgent.summary r) = len df.
Proof.
  intros E df tr Hlen.
  destruct (for_each_try_calls (SchemaAgent._analyze_column E df)
              (fun col cp c => signature c = "SchemaInterpreter"
                               /\ input_of "column_name" c = Some (fst col)
                               /\ SchemaAgent.column_name cp = fst col)
              (Pandas.columns df)) with (tr := tr) as (cps & cs & Heq & HP).
  { intros col tr0 Hcol.
    destruct (_analyze_column_spec E df col tr0 Hlen Hcol)
      as (cp & c & H1 & H2 & H3 & _ & H5 & _).
    exists cp, c. auto. }
  eexists _, cs. split.
  { unfold SchemaAgent.analyze, LM.bind. rewrite Heq. reflexivity. }
  cbn [SchemaAgent.columns SchemaAgent.summary SchemaAgent.total_columns
       SchemaAgent.total_rows].
  assert (Hall : Forall (fun c => signature c = "SchemaInterpreter") cs
                 /\ map (input_of "column_name") cs = map Some (map fst (Pandas.columns df))
                 /\ map SchemaAgent.column_name cps = map fst (Pandas.columns df)).
  { clear Heq. induction HP as [|col cp c cols cps' cs' (H1 & H2 & H3) _ (I1 & I2 & I3)]; cbn.
    - repeat split; constructor.
    - split; [by constructor|]. split; [by rewrite H2, I2 | by rewrite H3, I3]. }
  rewrite (columns_names df) in Hall. destruct Hall as (A1 & A2 & A3).
  repeat split; assumption || reflexivity.
Qed.

(** X13. On a dataset with a row the schema agent asks once for each column,
    in the order of the columns, and returns one profile for each of them
    under the name of the column; the summary counts the columns and the
    rows. *)
Theorem schema_agent_one_call_per_column :
  forall (E : Extern) (df : DataFrame) (tr : list Call),
    (0 < len df)%nat ->
    exists r calls,
      SchemaAgent.analyze E df tr = (Ok r, tr ++ calls)
      /\ Forall (fun c => signature c = "SchemaInterpreter") calls
      /\ map (input_of "column_name") calls = map Some (df_names df)
      /\ map SchemaAgent.column_name (SchemaAgent.columns r) = df_names df
      /\ SchemaAgent.total_columns (SchemaAgent.summary r) = length (df_names df)
      /\ SchemaAgent.total_rows (SchemaAgent.summary r) = len df.
Proof. exact schema_analyze_spec. Qed.

(** X13 on the small dataset. *)
Lemma schema_agent_one_call_per_column_witness :
  (0 < len Examples.small)%nat
  /\ length (snd (SchemaAgent.analyze (Examples.extern_with Examples.echo_lm)
                    Examples.small [])) = 2%nat.
Proof.
  assert (Hlen : (0 < len Examples.small)%nat) by (cbn; lia).
  split; [exact Hlen|].
  destruct (schema_agent_one_call_per_column (Examples.extern_with Examples.echo_lm)
              Examples.small [] Hlen) as (r & calls & Heq & _ & Hnames & _).
  rewrite Heq. cbn [snd app]. rewrite <- (length_map (input_of "column_name")), Hnames.
  reflexivity.
Defined.

(** X14. In every column profile the missing cells and the distinct values
    together are at most the rows; a column in which every cell is missing
    has no distinct value and the sample text "All null values". *)
Theorem schema_profile_counts :
  forall (E : Extern) (df : DataFrame) (tr : list Call),
    (0 < len df)%nat ->
    exists r,
      fst (SchemaAgent.analyze E df tr) = Ok r
      /\ Forall
           (fun cp =>
              (SchemaAgent.null_count cp + SchemaAgent.unique_count cp <= len df)%nat
              /\ (SchemaAgent.null_count cp = len df ->
                  SchemaAgent.unique_count cp = 0%nat
                  /\ SchemaAgent.sample_values cp = "All null values"))
           (SchemaAgent.columns r).
Proof.
  intros E df tr Hlen.
  destruct (for_each_try_ok (SchemaAgent._analyze_column E df)
              (fun _ cp =>
                 (SchemaAgent.null_count cp + SchemaAgent.unique_count cp <= len df)%nat
                 /\ (SchemaAgent.null_count cp = len df ->
                     SchemaAgent.unique_count cp = 0%nat
                     /\ SchemaAgent.sample_values cp = "All null values"))
              (Pandas.columns df)) with (tr := tr) as (cps & Hcps & HP).
  { intros col tr0 Hcol.
    destruct (_analyze_column_spec E df col tr0 Hlen Hcol)
      as (cp & c & H1 & _ & _ & _ & _ & H6 & H7).
    exists cp. rewrite H1. auto. }
  eexists. split.
  - unfold SchemaAgent.analyze. rewrite bind_eq, Hcps. reflexivity.
  - cbn. eapply Forall2_right_Forall, HP.
Qed.

(** X14 on a dataset of two rows whose one column is all missing. *)
Lemma schema_profile_counts_witness :
  (0 < len Examples.all_missing)%nat
  /\ exists r,
      fst (SchemaAgent.analyze (Examples.extern_with Examples.echo_lm)
             Examples.all_missing []) = Ok r
      /\ Forall
           (fun cp =>
              (SchemaAgent.null_count cp + SchemaAgent.unique_count cp
               <= len Examples.all_missing)%nat
              /\ (SchemaAgent.null_count cp = len Examples.all_missing ->
                  SchemaAgent.unique_count cp = 0%nat
                  /\ SchemaAgent.sample_values cp = "All null values"))
           (SchemaAgent.columns r).
Proof.
  assert (Hlen : (0 < len Examples.all_missing)%nat) by (cbn; lia).
  split; [exact Hlen|].
  exact (schema_profile_counts (Examples.extern_with Examples.echo_lm)
           Examples.all_missing [] Hlen).
Defined.

(** ** The quality agent *)

Lemma for_each_try_logs {A B} (f : A -> M (Result B)) (P : A -> B -> list Call -> Prop)
    (l : list A) :
  (forall a tr, a ∈ l -> exists b cs, f a tr = (Ok b, tr ++ cs) /\ P a b cs) ->
  forall tr, exists bs css,
    for_each_try f l tr = (Ok bs, tr ++ concat css) /\ Forall3 P l bs css.
Proof.
  induction l as [|a l IH]; intros Hf tr.
  - exists [], []. split; [cbn; unfold LM.ret; by rewrite app_nil_r | constructor].
  - destruct (Hf a tr) as (b & cs & Hb & HP); [by left|].
    destruct (IH (fun a' tr' Hin => Hf a' tr' (list_elem_of_further _ _ _ Hin)) (tr ++ cs))
      as (bs & css & Hbs & HPs).
    exists (b :: bs), (cs :: css). split; [|by constructor].
    cbn [for_each_try concat]. unfold LM.bind at 1. rewrite Hb. unfold LM.bind at 1.
    rewrite Hbs. unfold LM.ret. by rewrite <- app_assoc.
Qed.

Lemma for_each_logs {A B} (f : A -> M B) (P : A -> B -> list Call -> Prop) (l : list A) :
  (forall a tr, a ∈ l -> exists b cs, f a tr = (b, tr ++ cs) /\ P a b cs) ->
  forall tr, exists bs css,
    for_each f l tr = (bs, tr ++ concat css) /\ Forall3 P l bs css.
Proof.
  induction l as [|a l IH]; intros Hf tr.
  - exists [], []. split; [cbn; unfold LM.ret; by rewrite app_nil_r | constructor].
  - destruct (Hf a tr) as (b & cs & Hb & HP); [by left|].
    destruct (IH (fun a' tr' Hin => Hf a' tr' (list_elem_of_further _ _ _ Hin)) (tr ++ cs))
      as (bs & css & Hbs & HPs).
    exists (b :: bs), (cs :: css). split; [|by constructor].
    cbn [for_each concat]. unfold LM.bind at 1. rewrite Hb. unfold LM.bind at 1.
    rewrite Hbs. unfold LM.ret. by rewrite <- app_assoc.
Qed.

Lemma for_each_try_logs_inv {A B} (f : A -> M (Result B)) (P : A -> B -> list Call -> Prop)
    (l : list A) :
  (forall a tr b tr', a ∈ l -> f a tr = (Ok b, tr') -> exists cs, tr' = tr ++ cs /\ P a b cs) ->
  forall tr bs tr',
    for_each_try f l tr = (Ok bs, tr') ->
    exists css, tr' = tr ++ concat css /\ Forall3 P l bs css.
Proof.
  induction l as [|a l IH]; intros Hf tr bs tr'; cbn [for_each_try].
  - unfold LM.ret. intros [= <- <-]. exists []. split; [by rewrite app_nil_r | constructor].
  - unfold LM.bind at 1. destruct (f a tr) as [[b|msg] tr1] eqn:Hb; [|discriminate].
    unfold LM.bind at 1. destruct (for_each_try f l tr1) as [[bs'|msg] tr2] eqn:Hbs;
      [|discriminate].
    unfold LM.ret. intros [= <- <-].
    destruct (Hf a tr b tr1 ltac:(by left) Hb) as (cs & -> & HP).
    destruct (IH (fun a' t b' t' Hin => Hf a' t b' t' (list_elem_of_further _ _ _ Hin))
                 _ _ _ Hbs) as (css & -> & HPs).
    exists (cs :: css). split; [cbn [concat]; by rewrite <- app_assoc | by constructor].
Qed.

Lemma Forall3_concat_Forall2 {A B C} (P : A -> list B -> list C -> Prop) (R : B -> C -> Prop)
    (l : list A) (bs : list (list B)) (css : list (list C)) :
  (forall a b cs, P a b cs -> Forall2 R b cs) ->
  Forall3 P l bs css -> Forall2 R (concat bs) (concat css).
Proof.
  intros HPR. induction 1; cbn; [constructor|].
  apply Forall2_app; eauto.
Qed.

(** The comparison of a percentage with a threshold, in whole numbers. *)
Lemma percentage_gt (a b k : nat) :
  (0 < b)%nat ->
  QualityAgent.Qgt_bool (inject_Z (Z.of_nat a) / inject_Z (Z.of_nat b) * 100)
    (inject_Z (Z.of_nat k))
  = (k * b <? 100 * a)%nat.
Proof.
  intros Hb. unfold QualityAgent.Qgt_bool.
  assert (Hb' : (0 < inject_Z (Z.of_nat b))%Q).
  { change 0%Q with (inject_Z 0). rewrite <- Zlt_Qlt. lia. }
  assert (Hmul : (inject_Z (Z.of_nat a) / inject_Z (Z.of_nat b) * 100
                  == inject_Z (Z.of_nat (100 * a)) / inject_Z (Z.of_nat b))%Q).
  { rewrite Nat2Z.inj_mul, inject_Z_mult. change (inject_Z (Z.of_nat 100)) with 100%Q.
    field. lra. }
  destruct (k * b <? 100 * a)%nat eqn:Hcmp.
  - apply Nat.ltb_lt in Hcmp. apply negb_true_iff.
    destruct (Qle_bool _ _) eqn:Hle; [|reflexivity]. exfalso.
    apply Qle_bool_iff in Hle. rewrite Hmul in Hle.
    apply (Qmult_le_compat_r _ _ (inject_Z (Z.of_nat b))) in Hle; [|lra].
    assert (Hsimp : (inject_Z (Z.of_nat (100 * a)) / inject_Z (Z.of_nat b)
                     * inject_Z (Z.of_nat b) == inject_Z (Z.of_nat (100 * a)))%Q)
      by (field; lra).
    rewrite Hsimp, <- inject_Z_mult, <- Zle_Qle in Hle. lia.
  - apply Nat.ltb_ge in Hcmp. apply negb_false_iff. apply Qle_bool_iff. rewrite Hmul.
    apply Qle_shift_div_r; [exact Hb'|].
    rewrite <- inject_Z_mult, <- Zle_Qle. lia.
Qed.

Lemma missing_severity_correct (a b : nat) :
  (0 < b)%nat ->
  (if QualityAgent.Qgt_bool (inject_Z (Z.of_nat a) / inject_Z (Z.of_nat b) * 100) 50
   then "critical"
   else if QualityAgent.Qgt_bool (inject_Z (Z.of_nat a) / inject_Z (Z.of_nat b) * 100) 20
        then "warnings" else "info")
  = missing_severity a b.
Proof.
  intros Hb. unfold missing_severity.
  rewrite <- (percentage_gt a b 50 Hb), <- (percentage_gt a b 20 Hb). reflexivity.
Qed.

(** What the check of one column for missing cells does. *)
Lemma _check_missing_column_spec E df col tr :
  col ∈ Pandas.columns df ->
  exists iss cs,
    QualityAgent._check_missing_column E df col tr = (Ok iss, tr ++ cs)
    /\ Forall2 recommends iss cs
    /\ (Pandas.null_count (snd col) = 0%nat -> iss = [])
    /\ ((0 < Pandas.null_count (snd col))%nat ->
        exists i p,
          iss = [i]
          /\ QualityAgent.type i = "missing_values"
          /\ QualityAgent.column i = fst col
          /\ QualityAgent.count i = Pandas.null_count (snd col)
          /\ QualityAgent.severity i = missing_severity (Pandas.null_count (snd col)) (len df)
          /\ QualityAgent.percentage i = Some (Fin p)
          /\ (0 <= p)%Q /\ (p <= 100)%Q
          /\ QualityAgent.bounds i = None).
Proof.
  intros Hcol.
  pose proof (columns_length df col Hcol) as Hcl.
  pose proof (null_count_le (snd col)) as Hnc. rewrite Hcl in Hnc.
  unfold QualityAgent._check_missing_column.
  destruct (0 <? Pandas.null_count col.2)%nat eqn:Hpos.
  2:{ apply Nat.ltb_ge in Hpos. exists [], []. unfold LM.ret. rewrite app_nil_r.
      split; [reflexivity|]. split; [constructor|]. split; [reflexivity|]. lia. }
  apply Nat.ltb_lt in Hpos.
  destruct (len df) as [|n] eqn:Hn; [lia|]. cbn [truediv].
  unfold LM.bind, LM.ret, generate.
  match goal with |- context [lm E tr ?c] => set (call := c) end.
  match goal with |- context [QualityAgent.recommendation_or ?r ?fb] =>
    destruct (recommendation_or_cases r fb) as (a & c & i & ->) end.
  eexists _, [call]. split; [reflexivity|].
  split; [constructor; [repeat split; reflexivity | constructor]|].
  split; [lia|]. intros _. eexists _, _. split; [reflexivity|].
  cbn [QualityAgent.type QualityAgent.column QualityAgent.count QualityAgent.severity
       QualityAgent.percentage].
  repeat (split; [reflexivity|]).
  split; [apply missing_severity_correct; lia|].
  split; [reflexivity|].
  destruct (round2_bounds (inject_Z (Z.of_nat (Pandas.null_count col.2))
                           / inject_Z (Z.of_nat (S n)) * 100)) as [Hlo Hhi];
    [apply ratio_bounds; lia | apply ratio_bounds; lia |].
  split; [exact Hlo|]. split; [exact Hhi | reflexivity].
Qed.


Lemma object_columns_subseteq df col :
  col ∈ object_columns df -> col ∈ Pandas.columns df.
Proof. unfold object_columns. rewrite list_elem_of_filter. tauto. Qed.

Lemma duplicated_from_length seen rows :
  length (duplicated_from seen rows) = length rows.
Proof.
  revert seen. induction rows as [|r rows IH]; intros seen; cbn; [reflexivity|].
  by rewrite IH.
Qed.

Lemma duplicated_length df : (length (duplicated df) <= len df)%nat.
Proof.
  unfold duplicated, len. destruct (df_names df); [cbn; lia|].
  by rewrite duplicated_from_length, length_map.
Qed.

Lemma insert_by_count_length p l : length (insert_by_count p l) = S (length l).
Proof.
  induction l as [|q l IH]; [reflexivity|]. cbn [insert_by_count].
  destruct (snd q <=? snd p)%nat; cbn [length]; [reflexivity | by rewrite IH].
Qed.

Lemma value_counts_length (s : Series) : length (value_counts s) = nunique s.
Proof.
  unfold value_counts, nunique. induction (unique (dropna s)) as [|c l IH]; cbn;
    [reflexivity|].
  by rewrite insert_by_count_length, IH.
Qed.

Lemma nunique_le_length (s : Series) : (nunique s <= length s)%nat.
Proof.
  unfold nunique. pose proof (unique_length (dropna s)). pose proof (dropna_length s). lia.
Qed.

Lemma round2_monotone (x y : Q) : (x <= y)%Q -> (round2 x <= round2 y)%Q.
Proof.
  intros Hxy. unfold round2.
  assert (H : (round_half_even (x * 100) <= round_half_even (y * 100))%Z)
    by (apply round_half_even_monotone; lra).
  unfold Qle. cbn. lia.
Qed.

Lemma filter_nil_of_false {A} (P : A -> Prop) `{forall x, Decision (P x)} (l : list A) :
  (forall x, ~ P x) -> filter P l = [].
Proof.
  intros HP. induction l as [|x l IH]; [reflexivity|].
  rewrite filter_cons. case_decide; [by destruct (HP x) | exact IH].
Qed.

Lemma _check_duplicates_spec E df tr :
  exists iss cs,
    QualityAgent._check_duplicates E df tr = (iss, tr ++ cs)
    /\ Forall2 recommends iss cs
    /\ (length iss <= 1)%nat
    /\ Forall (fun i => QualityAgent.type i = "duplicates"
                        /\ QualityAgent.column i = "entire_row"
                        /\ QualityAgent.bounds i = None
                        /\ well_formed_issue (len df) i) iss.
Proof.
  unfold QualityAgent._check_duplicates.
  pose proof (length_filter (fun b : bool => b = true) (duplicated df)) as Hle.
  pose proof (duplicated_length df) as Hdl.
  destruct (0 <? _)%nat eqn:Hpos.
  2:{ exists [], []. unfold LM.ret. rewrite app_nil_r.
      split; [reflexivity|]. split; [constructor|]. split; [cbn; lia | constructor]. }
  apply Nat.ltb_lt in Hpos.
  destruct (len df) as [|n] eqn:Hn; [lia|].
  unfold LM.bind, LM.ret, generate.
  match goal with |- context [lm E tr ?c] => set (call := c) end.
  match goal with |- context [QualityAgent.recommendation_or ?r ?fb] =>
    destruct (recommendation_or_cases r fb) as (a & c & i & ->) end.
  eexists _, [call]. split; [reflexivity|].
  split; [constructor; [repeat split; reflexivity | constructor]|].
  split; [cbn; lia|].
  constructor; [|constructor]. split; [reflexivity|]. split; [reflexivity|].
  split; [reflexivity|].
  unfold well_formed_issue, known_severity.
  cbn [QualityAgent.count QualityAgent.severity QualityAgent.percentage QualityAgent.np_truediv
       f_mul f_round2].
  split; [lia|]. split; [destruct (f_gt _ _); tauto|].
  apply round2_bounds; apply ratio_bounds; lia.
Qed.

Lemma _check_outliers_column_spec E df col tr :
  col ∈ Pandas.columns df ->
  exists iss cs,
    QualityAgent._check_outliers_column E df col tr = (Ok iss, tr ++ cs)
    /\ Forall2 recommends iss cs
    /\ Forall (fun i => QualityAgent.type i = "outliers"
                        /\ QualityAgent.column i = fst col
                        /\ well_formed_issue (len df) i) iss.
Proof.
  intros Hcol.
  pose proof (columns_length df col Hcol) as Hcl.
  unfold QualityAgent._check_outliers_column.
  match goal with |- context [(0 <? length (@filter ?A ?B ?F ?P ?D col.2))%nat] =>
    pose proof (@length_filter _ P D (snd col)) as Hle;
    destruct (0 <? length (@filter A B F P D col.2))%nat eqn:Hpos end.
  2:{ exists [], []. unfold LM.ret. rewrite app_nil_r.
      split; [reflexivity|]. split; constructor. }
  apply Nat.ltb_lt in Hpos. rewrite Hcl in Hle.
  match type of Hpos with (_ < ?b)%nat => change (b <= len df)%nat in Hle end.
  destruct (len df) as [|n] eqn:Hn; [lia|]. cbn [truediv].
  unfold LM.bind, LM.ret, generate.
  match goal with |- context [lm E tr ?c] => set (call := c) end.
  match goal with |- context [QualityAgent.recommendation_or ?r ?fb] =>
    destruct (recommendation_or_cases r fb) as (ac & co & im & ->) end.
  eexists _, [call]. split; [reflexivity|].
  split; [constructor; [repeat split; reflexivity | constructor]|].
  constructor; [|constructor]. split; [reflexivity|]. split; [reflexivity|].
  unfold well_formed_issue, known_severity.
  cbn [QualityAgent.count QualityAgent.severity QualityAgent.percentage QualityAgent.bounds].
  split; [lia|]. split; [destruct (QualityAgent.Qgt_bool _ 10); tauto|].
  apply round2_bounds; apply ratio_bounds; lia.
Qed.

Lemma _check_consistency_column_spec E df col tr iss tr' :
  col ∈ Pandas.columns df ->
  QualityAgent._check_consistency_column E col tr = (Ok iss, tr') ->
  exists cs,
    tr' = tr ++ cs
    /\ Forall2 recommends iss cs
    /\ Forall (fun i => QualityAgent.type i = "inconsistent_categories"
                        /\ QualityAgent.column i = fst col
                        /\ QualityAgent.severity i = "info"
                        /\ QualityAgent.bounds i = None
                        /\ well_formed_issue (len df) i) iss.
Proof.
  intros Hcol.
  pose proof (columns_length df col Hcol) as Hcl.
  pose proof (nunique_le_length (snd col)) as Hu. rewrite Hcl in Hu.
  unfold QualityAgent._check_consistency_column. rewrite value_counts_length.
  destruct (_ && _).
  2:{ unfold LM.ret. intros [= <- <-]. exists []. rewrite app_nil_r.
      split; [reflexivity|]. split; constructor. }
  destruct (str_accessor_refused _); [discriminate|].
  destruct (_ <? _)%nat eqn:Hlt.
  2:{ unfold LM.ret. intros [= <- <-]. exists []. rewrite app_nil_r.
      split; [reflexivity|]. split; constructor. }
  apply Nat.ltb_lt in Hlt.
  unfold LM.bind, LM.ret, generate.
  match goal with |- context [lm E tr ?c] => set (call := c) end.
  match goal with |- context [QualityAgent.recommendation_or ?r ?fb] =>
    destruct (recommendation_or_cases r fb) as (ac & co & im & ->) end.
  intros [= <- <-]. exists [call]. split; [reflexivity|].
  split; [constructor; [repeat split; reflexivity | constructor]|].
  constructor; [|constructor]. repeat (split; [reflexivity|]).
  unfold well_formed_issue, known_severity.
  cbn [QualityAgent.count QualityAgent.severity QualityAgent.percentage QualityAgent.type].
  split; [lia|]. split; [tauto | reflexivity].
Qed.

Lemma Forall3_concat_Forall {A B C} (P : A -> list B -> list C -> Prop) (R : B -> Prop)
    (l : list A) (bs : list (list B)) (css : list (list C)) :
  (forall a b cs, a ∈ l -> P a b cs -> Forall R b) ->
  Forall3 P l bs css -> Forall R (concat bs).
Proof.
  intros HPR H. induction H as [|a b cs l bs css HP _ IH]; cbn; [constructor|].
  apply Forall_app. split.
  - eapply HPR; [by left | exact HP].
  - apply IH. intros a' b' cs' Hin. apply HPR. by right.
Qed.

(** The run of the four checks when the agent returns: the issues, check
    after check, and the calls made for them. *)
Lemma quality_analyze_spec E df tr r tr' :
  QualityAgent.analyze E df tr = (Ok r, tr') ->
  exists m d o c cs,
    r = {| QualityAgent.issues_found := m ++ d ++ o ++ c;
           QualityAgent.summary :=
             foldl QualityAgent.count_issue QualityAgent.empty_summary (m ++ d ++ o ++ c) |}
    /\ tr' = tr ++ cs
    /\ Forall2 recommends (m ++ d ++ o ++ c) cs
    /\ Forall (fun i => QualityAgent.type i = "missing_values"
                        /\ QualityAgent.bounds i = None
                        /\ well_formed_issue (len df) i) m
    /\ (length d <= 1)%nat
    /\ Forall (fun i => QualityAgent.type i = "duplicates"
                        /\ QualityAgent.bounds i = None
                        /\ well_formed_issue (len df) i) d
    /\ Forall (fun i => QualityAgent.type i = "outliers"
                        /\ well_formed_issue (len df) i) o
    /\ Forall (fun i => QualityAgent.type i = "inconsistent_categories"
                        /\ QualityAgent.severity i = "info"
                        /\ QualityAgent.bounds i = None
                        /\ well_formed_issue (len df) i) c.
Proof.
  (* missing values *)
  destruct (for_each_try_logs (QualityAgent._check_missing_column E df)
              (fun col iss cs =>
                 Forall2 recommends iss cs
                 /\ Forall (fun i => QualityAgent.type i = "missing_values"
                                     /\ QualityAgent.bounds i = None
                                     /\ well_formed_issue (len df) i) iss)
              (Pandas.columns df)) with (tr := tr) as (ms & mcs & Hm & HmP).
  { intros col tr0 Hcol.
    pose proof (columns_length df col Hcol) as Hcl.
    pose proof (null_count_le (snd col)) as Hnc. rewrite Hcl in Hnc.
    destruct (_check_missing_column_spec E df col tr0 Hcol)
      as (iss & cs & Heq & Hrec & Hzero & Hpos).
    exists iss, cs. split; [exact Heq|]. split; [exact Hrec|].
    destruct (Nat.eq_dec (Pandas.null_count (snd col)) 0) as [Hz|Hnz].
    - rewrite (Hzero Hz). constructor.
    - destruct Hpos as (i & p & -> & H1 & H2 & H3 & H4 & H5 & H6 & H7 & H8); [lia|].
      constructor; [|constructor]. split; [exact H1|]. split; [exact H8|].
      unfold well_formed_issue, known_severity. rewrite H3, H4, H5.
      split; [lia|]. split; [|tauto].
      unfold missing_severity. destruct (_ <? _)%nat; [tauto|]. destruct (_ <? _)%nat; tauto. }
  (* duplicates *)
  destruct (_check_duplicates_spec E df (tr ++ concat mcs)) as (d & dcs & Hd & HdR & Hdl & HdP).
  assert (HdP' : Forall (fun i => QualityAgent.type i = "duplicates"
                                  /\ QualityAgent.bounds i = None
                                  /\ well_formed_issue (len df) i) d).
  { eapply Forall_impl; [exact HdP|]. intros i (H1 & _ & H3 & H4). auto. }
  (* outliers *)
  destruct (for_each_try_logs (QualityAgent._check_outliers_column E df)
              (fun col iss cs =>
                 Forall2 recommends iss cs
                 /\ Forall (fun i => QualityAgent.type i = "outliers"
                                     /\ well_formed_issue (len df) i) iss)
              (numeric_columns df)) with (tr := (tr ++ concat mcs) ++ dcs)
    as (os & ocs & Ho & HoP).
  { intros col tr0 Hcol.
    destruct (_check_outliers_column_spec E df col tr0 (numeric_columns_subseteq df col Hcol))
      as (iss & cs & Heq & Hrec & HP).
    exists iss, cs. split; [exact Heq|]. split; [exact Hrec|].
    eapply Forall_impl; [exact HP|]. intros i (H1 & _ & H3). auto. }
  (* categories *)
  unfold QualityAgent.analyze, QualityAgent._check_missing_values, QualityAgent._check_outliers,
    QualityAgent._check_categorical_consistency, LM.bind, LM.ret.
  rewrite Hm, Hd, Ho.
  destruct (for_each_try (QualityAgent._check_consistency_column E) (object_columns df)
              (((tr ++ concat mcs) ++ dcs) ++ concat ocs)) as [[cs|msg] tr4] eqn:Hc;
    [|discriminate].
  intros [= <- <-].
  assert (Hcol : forall a t b t',
             a ∈ object_columns df ->
             QualityAgent._check_consistency_column E a t = (Ok b, t') ->
             exists cs0, t' = t ++ cs0
                         /\ Forall2 recommends b cs0
                         /\ Forall (fun i => QualityAgent.type i = "inconsistent_categories"
                                             /\ QualityAgent.severity i = "info"
                                             /\ QualityAgent.bounds i = None
                                             /\ well_formed_issue (len df) i) b).
  { intros a t b t' Hin Heq.
    destruct (_check_consistency_column_spec E df a t b t'
                (object_columns_subseteq df a Hin) Heq) as (cs0 & H1 & H2 & H3).
    exists cs0. split; [exact H1|]. split; [exact H2|].
    eapply Forall_impl; [exact H3|]. intros i (G1 & _ & G3 & G4 & G5). auto. }
  destruct (for_each_try_logs_inv _ _ _ Hcol _ _ _ Hc) as (ccs & -> & HcP).
  exists (concat ms), d, (concat os), (concat cs), (concat mcs ++ dcs ++ concat ocs ++ concat ccs).
  split; [reflexivity|].
  split; [by rewrite <- !app_assoc|].
  split.
  { repeat apply Forall2_app; try exact HdR;
      (eapply Forall3_concat_Forall2; [|eassumption]; intros a b0 cs0 Hab; apply Hab). }
  split.
  { eapply Forall3_concat_Forall; [|exact HmP]. intros a b0 cs0 _ Hab. apply Hab. }
  split; [exact Hdl|]. split; [exact HdP'|]. split.
  { eapply Forall3_concat_Forall; [|exact HoP]. intros a b0 cs0 _ Hab. apply Hab. }
  eapply Forall3_concat_Forall; [|exact HcP]. intros a b0 cs0 _ Hab. apply Hab.
Qed.

Lemma quality_analyze_calls :
  forall (E : Extern) (df : DataFrame) (tr : list Call) (r : QualityAgent.QualityResult)
         (tr' : list Call),
    QualityAgent.analyze E df tr = (Ok r, tr') ->
    exists calls n1 n2 n3 n4,
      tr' = tr ++ calls
      /\ Forall2 recommends (QualityAgent.issues_found r) calls
      /\ map QualityAgent.type (QualityAgent.issues_found r)
         = replicate n1 "missing_values" ++ replicate n2 "duplicates"
           ++ replicate n3 "outliers" ++ replicate n4 "inconsistent_categories"
      /\ (n2 <= 1)%nat.
Proof.
  intros E df tr r tr' Hr.
  destruct (quality_analyze_spec E df tr r tr' Hr)
    as (m & d & o & c & cs & -> & -> & Hrec & Hm & Hdl & Hd & Ho & Hc).
  assert (Htypes : forall (t : string) (l : list QualityAgent.Issue) (P : QualityAgent.Issue -> Prop),
             (forall i, P i -> QualityAgent.type i = t) -> Forall P l ->
             map QualityAgent.type l = replicate (length l) t).
  { intros t l P HP Hl. induction Hl as [|i l' Hi _ IH]; cbn; [reflexivity|].
    by rewrite (HP i Hi), IH. }
  exists cs, (length m), (length d), (length o), (length c).
  split; [reflexivity|]. cbn [QualityAgent.issues_found]. split; [exact Hrec|].
  split; [|exact Hdl]. rewrite !map_app.
  repeat (f_equal; [eapply Htypes; [|eassumption]; intros i Hi; apply Hi|]).
  eapply Htypes; [|eassumption]. intros i Hi. apply Hi.
Qed.

(** X16. When the quality agent returns, it has made one call to the
    recommender for each issue it reports and no other call: the calls, in
    order, carry the type, the column and the description of the issues.
    The issues come check after check: missing values, then at most one
    about duplicate rows, then outliers, then inconsistent categories. *)
Theorem quality_agent_one_call_per_issue :
  forall (E : Extern) (df : DataFrame) (tr : list Call) (r : QualityAgent.QualityResult)
         (tr' : list Call),
    QualityAgent.analyze E df tr = (Ok r, tr') ->
    exists calls n1 n2 n3 n4,
      tr' = tr ++ calls
      /\ Forall2 recommends (QualityAgent.issues_found r) calls
      /\ map QualityAgent.type (QualityAgent.issues_found r)
         = replicate n1 "missing_values" ++ replicate n2 "duplicates"
           ++ replicate n3 "outliers" ++ replicate n4 "inconsistent_categories"
      /\ (n2 <= 1)%nat.
Proof. exact quality_analyze_calls. Qed.

(** X16 on the small dataset, where the agent returns. *)
Lemma quality_agent_one_call_per_issue_witness :
  exists r tr',
    QualityAgent.analyze (Examples.extern_with Examples.failing_lm) Examples.small [] = (Ok r, tr')
    /\ exists calls n1 n2 n3 n4,
        tr' = [] ++ calls
        /\ Forall2 recommends (QualityAgent.issues_found r) calls
        /\ map QualityAgent.type (QualityAgent.issues_found r)
           = replicate n1 "missing_values" ++ replicate n2 "duplicates"
             ++ replicate n3 "outliers" ++ replicate n4 "inconsistent_categories"
        /\ (n2 <= 1)%nat.
Proof.
  destruct (QualityAgent.analyze (Examples.extern_with Examples.failing_lm) Examples.small [])
    as [[r|msg] tr'] eqn:Hr.
  - exists r, tr'. split; [reflexivity|].
    exact (quality_agent_one_call_per_issue (Examples.extern_with Examples.failing_lm)
             Examples.small [] r tr' Hr).
  - exfalso. vm_compute in Hr. discriminate.
Defined.



Lemma count_severity_cons sev (x : QualityAgent.Issue) issues :
  count_severity sev (x :: issues)
  = ((if decide (QualityAgent.severity x = sev) then 1 else 0) + count_severity sev issues)%nat.
Proof.
  unfold count_severity. rewrite filter_cons. case_decide; reflexivity.
Qed.

Lemma count_issue_exact (s : gmap string nat) (x : QualityAgent.Issue) (n c w i : nat) :
  known_severity x ->
  s !! "total_issues" = Some n -> s !! "critical" = Some c ->
  s !! "warnings" = Some w -> s !! "info" = Some i ->
  QualityAgent.count_issue s x !! "total_issues" = Some (n + 1)%nat
  /\ QualityAgent.count_issue s x !! "critical"
     = Some (c + count_severity "critical" [x])%nat
  /\ QualityAgent.count_issue s x !! "warnings"
     = Some (w + count_severity "warnings" [x])%nat
  /\ QualityAgent.count_issue s x !! "info" = Some (i + count_severity "info" [x])%nat
  /\ dom (QualityAgent.count_issue s x) = dom s.
Proof.
  intros Hx Ht Hc Hw Hi. unfold QualityAgent.count_issue.
  assert (Hdom : forall k : string, is_Some (s !! k) ->
                 forall v v' : nat, dom (<[k := v]> (<["total_issues" := v']> s)) = dom s).
  { intros k Hk v v'. rewrite !dom_insert_L.
    apply elem_of_dom in Hk. assert ("total_issues" ∈ dom s) by (apply elem_of_dom; eauto).
    set_solver. }
  rewrite !count_severity_cons. unfold count_severity. cbn [filter list_filter length].
  destruct Hx as [Hs | [Hs | Hs]]; rewrite Hs;
    (split; [by simplify_map_eq|]); (split; [simplify_map_eq; f_equal; cbn; lia|]);
    (split; [simplify_map_eq; f_equal; cbn; lia|]);
    (split; [simplify_map_eq; f_equal; cbn; lia|]); apply Hdom; eauto.
Qed.

Lemma count_issues_exact (issues : list QualityAgent.Issue) :
  Forall known_severity issues ->
  forall (s : gmap string nat) (n c w i : nat),
    s !! "total_issues" = Some n -> s !! "critical" = Some c ->
    s !! "warnings" = Some w -> s !! "info" = Some i ->
    foldl QualityAgent.count_issue s issues !! "total_issues" = Some (n + length issues)%nat
    /\ foldl QualityAgent.count_issue s issues !! "critical"
       = Some (c + count_severity "critical" issues)%nat
    /\ foldl QualityAgent.count_issue s issues !! "warnings"
       = Some (w + count_severity "warnings" issues)%nat
    /\ foldl QualityAgent.count_issue s issues !! "info"
       = Some (i + count_severity "info" issues)%nat
    /\ dom (foldl QualityAgent.count_issue s issues) = dom s.
Proof.
  induction 1 as [|x issues Hx _ IH]; intros s n c w i Ht Hc Hw Hi.
  - cbn. rewrite !Nat.add_0_r. auto.
  - destruct (count_issue_exact s x n c w i Hx Ht Hc Hw Hi) as (H1 & H2 & H3 & H4 & H5).
    destruct (IH _ _ _ _ _ H1 H2 H3 H4) as (G1 & G2 & G3 & G4 & G5).
    assert (Hsplit : forall sev, count_severity sev (x :: issues)
                                 = (count_severity sev [x] + count_severity sev issues)%nat).
    { intros sev. rewrite !count_severity_cons. unfold count_severity at 2. cbn. lia. }
    cbn [foldl length]. rewrite G1, G2, G3, G4, G5, H5, !Hsplit.
    repeat split; f_equal; lia.
Qed.

(** The summary of a result of the quality agent, key by key. *)
Lemma quality_summary_lookup E df tr r :
  fst (QualityAgent.analyze E df tr) = Ok r ->
  QualityAgent.summary r !! "total_issues" = Some (length (QualityAgent.issues_found r))
  /\ QualityAgent.summary r !! "critical"
     = Some (count_severity "critical" (QualityAgent.issues_found r))
  /\ QualityAgent.summary r !! "warnings"
     = Some (count_severity "warnings" (QualityAgent.issues_found r))
  /\ QualityAgent.summary r !! "info"
     = Some (count_severity "info" (QualityAgent.issues_found r))
  /\ dom (QualityAgent.summary r) = dom QualityAgent.empty_summary.
Proof.
  intros Hr.
  destruct (quality_checks_ok E df tr r Hr) as (Hsev & Hsum).
  apply (Forall_impl _ known_severity) in Hsev; [|by intros i [Hi _]].
  rewrite Hsum.
  destruct (count_issues_exact (QualityAgent.issues_found r) Hsev
              QualityAgent.empty_summary 0 0 0 0) as (H1 & H2 & H3 & H4 & H5);
    try reflexivity.
  rewrite H1, H2, H3, H4, H5. auto.
Qed.

(** X19. In the summary of a result of the quality agent each of the three
    severities is the number of issues of that severity, [total_issues] is
    the number of issues, and there is no other key. *)
Theorem quality_summary_exact :
  forall (E : Extern) (df : DataFrame) (tr : list Call) (r : QualityAgent.QualityResult),
    fst (QualityAgent.analyze E df tr) = Ok r ->
    QualityAgent.summary r
    = <["info" := count_severity "info" (QualityAgent.issues_found r)]>
        (<["warnings" := count_severity "warnings" (QualityAgent.issues_found r)]>
           (<["critical" := count_severity "critical" (QualityAgent.issues_found r)]>
              (<["total_issues" := length (QualityAgent.issues_found r)]> ∅))).
Proof.
  intros E df tr r Hr.
  destruct (quality_summary_lookup E df tr r Hr) as (H1 & H2 & H3 & H4 & Hdom).
  apply map_eq. intros k.
  destruct (decide (k = "info")) as [->|Hk1]; [by simplify_map_eq|].
  destruct (decide (k = "warnings")) as [->|Hk2]; [by simplify_map_eq|].
  destruct (decide (k = "critical")) as [->|Hk3]; [by simplify_map_eq|].
  destruct (decide (k = "total_issues")) as [->|Hk4]; [by simplify_map_eq|].
  rewrite !lookup_insert_ne by congruence. rewrite lookup_empty.
  apply not_elem_of_dom. rewrite Hdom. unfold QualityAgent.empty_summary.
  rewrite !dom_insert_L. set_solver.
Qed.

(** X19 on the small dataset, where the agent returns. *)
Lemma quality_summary_exact_witness :
  exists r,
    fst (QualityAgent.analyze (Examples.extern_with Examples.failing_lm) Examples.small []) = Ok r
    /\ QualityAgent.summary r
       = <["info" := count_severity "info" (QualityAgent.issues_found r)]>
           (<["warnings" := count_severity "warnings" (QualityAgent.issues_found r)]>
              (<["critical" := count_severity "critical" (QualityAgent.issues_found r)]>
                 (<["total_issues" := length (QualityAgent.issues_found r)]> ∅))).
Proof.
  destruct (fst (QualityAgent.analyze (Examples.extern_with Examples.failing_lm)
                   Examples.small [])) as [r|msg] eqn:Hr.
  - exists r. split; [reflexivity|].
    exact (quality_summary_exact (Examples.extern_with Examples.failing_lm)
             Examples.small [] r Hr).
  - exfalso. vm_compute in Hr. discriminate.
Defined.

(** X20. What the ML advisor says of a result of the quality agent is read
    off that summary: "No quality issues detected" when the quality agent
    reported no issue, and otherwise the number of issues with the numbers
    of critical ones and of warnings. *)
Theorem quality_digest_of_a_run :
  forall (E : Extern) (df : DataFrame) (tr : list Call) (r : QualityAgent.QualityResult),
    fst (QualityAgent.analyze E df tr) = Ok r ->
    MLAdvisorAgent._summarize_quality_issues r
    = match QualityAgent.issues_found r with
      | [] => "No quality issues detected"
      | _ =>
          str_int (length (QualityAgent.issues_found r)) +:+ " issues found: "
          +:+ str_int (count_severity "critical" (QualityAgent.issues_found r))
          +:+ " critical, "
          +:+ str_int (count_severity "warnings" (QualityAgent.issues_found r))
          +:+ " warnings"
      end.
Proof.
  intros E df tr r Hr.
  destruct (quality_summary_lookup E df tr r Hr) as (H1 & H2 & H3 & _).
  unfold MLAdvisorAgent._summarize_quality_issues. rewrite H1, H2, H3. cbn [default].
  destruct (QualityAgent.issues_found r); reflexivity.
Qed.

(** X20 on the small dataset, where the agent returns. *)
Lemma quality_digest_of_a_run_witness :
  exists r,
    fst (QualityAgent.analyze (Examples.extern_with Examples.failing_lm) Examples.small []) = Ok r
    /\ MLAdvisorAgent._summarize_quality_issues r
       = match QualityAgent.issues_found r with
         | [] => "No quality issues detected"
         | _ =>
             str_int (length (QualityAgent.issues_found r)) +:+ " issues found: "
             +:+ str_int (count_severity "critical" (QualityAgent.issues_found r))
             +:+ " critical, "
             +:+ str_int (count_severity "warnings" (QualityAgent.issues_found r))
             +:+ " warnings"
         end.
Proof.
  destruct (fst (QualityAgent.analyze (Examples.extern_with Examples.failing_lm)
                   Examples.small [])) as [r|msg] eqn:Hr.
  - exists r. split; [reflexivity|].
    exact (quality_digest_of_a_run (Examples.extern_with Examples.failing_lm)
             Examples.small [] r Hr).
  - exfalso. vm_compute in Hr. discriminate.
Defined.

(** ** The profile agent, continued *)

Lemma columns_by_dtype (df : DataFrame) :
  (length (numeric_columns df) + length (object_columns df) + length (bool_columns df)
   = length (df_names df))%nat.
Proof.
  unfold numeric_columns, object_columns, bool_columns.
  rewrite <- (length_imap (fun j name => (name, column df j)) (df_names df)).
  fold (Pandas.columns df).
  induction (Pandas.columns df) as [|c l IH]; [reflexivity|].
  rewrite !filter_cons. destruct (infer_dtype (snd c)); cbn [is_number_dtype is_object_dtype is_bool_dtype];
    repeat case_decide; try congruence; cbn [length]; lia.
Qed.

Lemma _analyze_numeric_column_spec E col tr :
  exists st c,
    ProfileAgent._analyze_numeric_column E col tr = (st, tr ++ [c])
    /\ signature c = "StatisticalInsightGenerator"
    /\ input_of "column_name" c = Some (fst col)
    /\ input_of "column_type" c = Some "numeric"
    /\ ProfileAgent.column_name st = fst col.
Proof.
  unfold ProfileAgent._analyze_numeric_column, LM.bind, LM.ret, generate.
  match goal with |- context [lm E tr ?c] => set (call := c) end.
  destruct (lm E tr call); eexists _, call; repeat split; reflexivity.
Qed.

Lemma _analyze_categorical_column_spec E col tr :
  exists st c,
    ProfileAgent._analyze_categorical_column E col tr = (st, tr ++ [c])
    /\ signature c = "StatisticalInsightGenerator"
    /\ input_of "column_name" c = Some (fst col)
    /\ input_of "column_type" c = Some "categorical"
    /\ ProfileAgent.cat_column_name st = fst col.
Proof.
  unfold ProfileAgent._analyze_categorical_column, LM.bind, LM.ret, generate.
  match goal with |- context [lm E tr ?c] => set (call := c) end.
  destruct (lm E tr call); eexists _, call; repeat split; reflexivity.
Qed.

Lemma for_each_calls {A B} (f : A -> M B) (P : A -> B -> Call -> Prop) (l : list A) :
  (forall a tr, a ∈ l -> exists b c, f a tr = (b, tr ++ [c]) /\ P a b c) ->
  forall tr, exists bs cs,
    for_each f l tr = (bs, tr ++ cs) /\ Forall3 P l bs cs.
Proof.
  induction l as [|a l IH]; intros Hf tr.
  - exists [], []. split; [cbn; unfold LM.ret; by rewrite app_nil_r | constructor].
  - destruct (Hf a tr) as (b & c & Hb & HP); [by left|].
    destruct (IH (fun a' tr' Hin => Hf a' tr' (list_elem_of_further _ _ _ Hin)) (tr ++ [c]))
      as (bs & cs & Hbs & HPs).
    exists (b :: bs), (c :: cs). split; [|by constructor].
    cbn [for_each]. unfold LM.bind at 1. rewrite Hb. unfold LM.bind at 1. rewrite Hbs.
    unfold LM.ret. by rewrite <- app_assoc.
Qed.

Lemma profile_analyze_spec :
  forall (E : Extern) (df : DataFrame) (tr : list Call),
    exists r calls,
      ProfileAgent.analyze E df tr = (Ok r, tr ++ calls)
      /\ map ProfileAgent.column_name (ProfileAgent.numeric_analysis r)
         = map fst (numeric_columns df)
      /\ map ProfileAgent.cat_column_name (ProfileAgent.categorical_analysis r)
         = map fst (object_columns df)
      /\ (length (ProfileAgent.numeric_analysis r)
          + length (ProfileAgent.categorical_analysis r) + length (bool_columns df)
          = length (df_names df))%nat
      /\ Forall (fun c => signature c = "StatisticalInsightGenerator") calls
      /\ map (input_of "column_type") calls
         = replicate (length (numeric_columns df)) (Some "numeric")
           ++ replicate (length (object_columns df)) (Some "categorical")
      /\ map (input_of "column_name") calls
         = map Some (map fst (numeric_columns df) ++ map fst (object_columns df)).
Proof.
  intros E df tr.
  destruct (for_each_calls (ProfileAgent._analyze_numeric_column E)
              (fun col st c => signature c = "StatisticalInsightGenerator"
                               /\ input_of "column_name" c = Some (fst col)
                               /\ input_of "column_type" c = Some "numeric"
                               /\ ProfileAgent.column_name st = fst col)
              (numeric_columns df)
              (fun col tr0 _ => _analyze_numeric_column_spec E col tr0) tr)
    as (ns & ncs & Hn & HnP).
  assert (HN : map ProfileAgent.column_name ns = map fst (numeric_columns df)
               /\ length ns = length (numeric_columns df)
               /\ Forall (fun c => signature c = "StatisticalInsightGenerator") ncs
               /\ map (input_of "column_type") ncs
                  = replicate (length (numeric_columns df)) (Some "numeric")
               /\ map (input_of "column_name") ncs
                  = map Some (map fst (numeric_columns df))).
  { clear Hn. induction HnP as [|col st c cols sts cs' (H1 & H2 & H3 & H4) _ IH];
      cbn [map length replicate].
    - repeat split; constructor.
    - destruct IH as (I1 & I2 & I3 & I4 & I5).
      rewrite H2, H3, H4, I1, I2, I4, I5. repeat split; try reflexivity. by constructor. }
  destruct (for_each_calls (ProfileAgent._analyze_categorical_column E)
              (fun col st c => signature c = "StatisticalInsightGenerator"
                               /\ input_of "column_name" c = Some (fst col)
                               /\ input_of "column_type" c = Some "categorical"
                               /\ ProfileAgent.cat_column_name st = fst col)
              (object_columns df)
              (fun col tr0 _ => _analyze_categorical_column_spec E col tr0) (tr ++ ncs))
    as (cs & ccs & Hc & HcP).
  assert (HC : map ProfileAgent.cat_column_name cs = map fst (object_columns df)
               /\ length cs = length (object_columns df)
               /\ Forall (fun c => signature c = "StatisticalInsightGenerator") ccs
               /\ map (input_of "column_type") ccs
                  = replicate (length (object_columns df)) (Some "categorical")
               /\ map (input_of "column_name") ccs
                  = map Some (map fst (object_columns df))).
  { clear Hc. induction HcP as [|col st c cols sts cs' (H1 & H2 & H3 & H4) _ IH];
      cbn [map length replicate].
    - repeat split; constructor.
    - destruct IH as (I1 & I2 & I3 & I4 & I5).
      rewrite H2, H3, H4, I1, I2, I4, I5. repeat split; try reflexivity. by constructor. }
  destruct HN as (N1 & N2 & N3 & N4 & N5). destruct HC as (C1 & C2 & C3 & C4 & C5).
  eexists _, (ncs ++ ccs). split.
  { unfold ProfileAgent.analyze, LM.bind, LM.ret. rewrite Hn, Hc. by rewrite <- app_assoc. }
  cbn [ProfileAgent.numeric_analysis ProfileAgent.categorical_analysis].
  split; [exact N1|]. split; [exact C1|]. split.
  { rewrite N2, C2. apply columns_by_dtype. }
  split; [by apply Forall_app_2|].
  rewrite !map_app, N4, C4, N5, C5. split; reflexivity.
Qed.

(** X21. The profile agent analyses once every column of numbers and every
    object column, the numeric ones first, with one call for each: the
    records carry the names of the columns in that order, and the calls say
    which kind of column they are about. A column of truth values gets no
    record and no call: the records and these columns together are as many
    as the columns of the dataset. *)
Theorem profile_agent_one_call_per_column :
  forall (E : Extern) (df : DataFrame) (tr : list Call),
    exists r calls,
      ProfileAgent.analyze E df tr = (Ok r, tr ++ calls)
      /\ map ProfileAgent.column_name (ProfileAgent.numeric_analysis r)
         = map fst (numeric_columns df)
      /\ map ProfileAgent.cat_column_name (ProfileAgent.categorical_analysis r)
         = map fst (object_columns df)
      /\ (length (ProfileAgent.numeric_analysis r)
          + length (ProfileAgent.categorical_analysis r) + length (bool_columns df)
          = length (df_names df))%nat
      /\ Forall (fun c => signature c = "StatisticalInsightGenerator") calls
      /\ map (input_of "column_type") calls
         = replicate (length (numeric_columns df)) (Some "numeric")
           ++ replicate (length (object_columns df)) (Some "categorical")
      /\ map (input_of "column_name") calls
         = map Some (map fst (numeric_columns df) ++ map fst (object_columns df)).
Proof. exact profile_analyze_spec. Qed.



(** *** Value counts *)

Lemma insert_by_count_Forall (P : cell * nat -> Prop) p l :
  P p -> Forall P l -> Forall P (insert_by_count p l).
Proof.
  intros Hp Hl. induction Hl as [|q l Hq Hl IH]; cbn [insert_by_count].
  - by constructor.
  - destruct (snd q <=? snd p)%nat; repeat constructor; assumption.
Qed.

Lemma insert_by_count_sorted p l :
  StronglySorted by_count_desc l -> StronglySorted by_count_desc (insert_by_count p l).
Proof.
  induction 1 as [|q l Hs IH Hq]; cbn [insert_by_count].
  - repeat constructor.
  - destruct (snd q <=? snd p)%nat eqn:Hlt.
    + apply Nat.leb_le in Hlt. constructor; [by constructor|].
      constructor; [unfold by_count_desc; lia|].
      eapply Forall_impl; [exact Hq|]. unfold by_count_desc. intros z Hz. lia.
    + apply Nat.leb_gt in Hlt. constructor; [exact IH|].
      apply insert_by_count_Forall; [unfold by_count_desc; lia | exact Hq].
Qed.

Lemma cell_eqb_refl c : cell_eqb c c = true.
Proof.
  destruct c as [|q|s|b]; cbn;
    [reflexivity | by apply Qeq_bool_iff | by apply String.eqb_refl | by destruct b].
Qed.

Lemma unique_subset (s : list cell) c : c ∈ unique s -> c ∈ s.
Proof.
  induction s as [|d s IH]; cbn; [by intros H|].
  intros H. apply elem_of_cons in H as [->|H]; [by left|].
  apply list_elem_of_filter in H as [_ H]. right. by apply IH.
Qed.

Lemma count_occ_cell_pos c (s : list cell) : c ∈ s -> (1 <= count_occ_cell c s)%nat.
Proof.
  unfold count_occ_cell. induction 1 as [c s|c d s _ IH].
  - rewrite filter_cons. case_decide as Hd; [cbn; lia|]. by rewrite cell_eqb_refl in Hd.
  - rewrite filter_cons. case_decide; cbn [length]; lia.
Qed.

Lemma value_counts_spec (s : Series) :
  StronglySorted by_count_desc (value_counts s)
  /\ Forall (fun p => (1 <= snd p)%nat) (value_counts s).
Proof.
  unfold value_counts.
  assert (Hin : forall c, c ∈ unique (dropna s) -> c ∈ dropna s) by apply unique_subset.
  induction (unique (dropna s)) as [|c l IH]; cbn [map foldr].
  - split; constructor.
  - destruct IH as [IH1 IH2]; [intros d Hd; apply Hin; by right|].
    split; [by apply insert_by_count_sorted|].
    apply insert_by_count_Forall; [|exact IH2]. cbn. apply count_occ_cell_pos, Hin. by left.
Qed.

Lemma sorted_take {A} (R : A -> A -> Prop) n (l : list A) :
  StronglySorted R l -> StronglySorted R (take n l).
Proof.
  intros H. revert n. induction H as [|x l Hs IH Hx]; intros [|n]; cbn; try constructor.
  - apply IH.
  - apply Forall_take. exact Hx.
Qed.

Lemma sorted_map_snd (l : list (cell * nat)) (f : cell -> string) :
  StronglySorted by_count_desc l ->
  StronglySorted (fun a b : nat => (b <= a)%nat) (map snd (map (fun p => (f (fst p), snd p)) l)).
Proof.
  induction 1 as [|x l Hs IH Hx]; cbn; constructor; [exact IH|].
  rewrite !Forall_map. eapply Forall_impl; [exact Hx|]. intros z Hz. exact Hz.
Qed.

(** X23. For a column of text the profile agent reports as cardinality the
    number of distinct values; the top five are at most five and as many as
    there are values when fewer, each with a count of one or more, in order of
    decreasing count, the first being the top value with the top frequency.
    A column without values has the top value "N/A" with frequency 0. *)
Theorem categorical_top_values :
  forall (E : Extern) (col : string * Series) (tr : list Call),
    let st := fst (ProfileAgent._analyze_categorical_column E col tr) in
    ProfileAgent.cardinality st = nunique (snd col)
    /\ length (ProfileAgent.top_5 st) = Nat.min 5 (ProfileAgent.cardinality st)
    /\ StronglySorted (fun a b : nat => (b <= a)%nat) (map snd (ProfileAgent.top_5 st))
    /\ Forall (fun p => (1 <= snd p <= ProfileAgent.top_frequency st)%nat)
         (ProfileAgent.top_5 st)
    /\ match ProfileAgent.top_5 st with
       | p :: _ => fst p = ProfileAgent.top_value st /\ snd p = ProfileAgent.top_frequency st
       | [] => ProfileAgent.top_value st = "N/A" /\ ProfileAgent.top_frequency st = 0%nat
               /\ ProfileAgent.cardinality st = 0%nat
       end.
Proof.
  intros E col tr st. subst st.
  unfold ProfileAgent._analyze_categorical_column, LM.bind, LM.ret, generate.
  destruct (value_counts_spec (snd col)) as [Hsorted Hpos].
  pose proof (value_counts_length (snd col)) as Hlen.
  match goal with |- context [lm E tr ?c] => destruct (lm E tr c) end;
    cbn [fst ProfileAgent.cardinality ProfileAgent.top_5 ProfileAgent.top_frequency
         ProfileAgent.top_value];
    (split; [exact Hlen|]);
    (split; [rewrite length_map, length_take; lia|]);
    (split; [apply sorted_map_snd, sorted_take, Hsorted|]);
    (destruct (value_counts (snd col)) as [|p l] eqn:Hvc;
     [ split; [constructor | cbn; auto]
     | split; [| cbn; auto];
       rewrite Forall_map; apply Forall_take;
       inversion Hsorted as [|? ? _ Hfirst]; subst;
       inversion Hpos as [|? ? Hp Hrest]; subst;
       constructor; [cbn; lia|];
       rewrite Forall_forall in Hfirst, Hrest; apply Forall_forall; intros z Hz; cbn;
       specialize (Hfirst z Hz); specialize (Hrest z Hz); unfold by_count_desc in Hfirst; lia ]).
Qed.

(** ** The ML advisor, further *)

(** X25. The ML advisor never raises and makes exactly two calls, the
    detection and then the planning; the planning is asked about the target
    variable and the use case that the returned record reports, whether they
    were detected or are the fallback values. *)
Theorem ml_advisor_plans_what_it_reports :
  forall (E : Extern) (schema_results : SchemaAgent.SchemaResult)
         (profile_results : ProfileAgent.ProfileResult)
         (quality_results : QualityAgent.QualityResult) (tr : list Call),
    exists rec c1 c2,
      MLAdvisorAgent.analyze E schema_results profile_results quality_results tr
      = (Ok rec, tr ++ [c1; c2])
      /\ signature c1 = "MLUseCaseDetector"
      /\ signature c2 = "FeatureEngineeringPlanner"
      /\ input_of "target_variable" c2
         = Some (MLAdvisorAgent.target_variable (MLAdvisorAgent.ml_use_case rec))
      /\ input_of "ml_use_case" c2
         = Some (MLAdvisorAgent.detected_use_case (MLAdvisorAgent.ml_use_case rec))
      /\ input_of "planning_instructions" c2
         = Some (MLAdvisorAgent._get_use_case_instructions
                   (MLAdvisorAgent.detected_use_case (MLAdvisorAgent.ml_use_case rec))).
Proof.
  intros E s p q tr.
  unfold MLAdvisorAgent.analyze, LM.bind, LM.ret, generate.
  destruct (lm E tr (MLAdvisorAgent.detector_call E s p q)) as [f1|e1];
    cbn [MLAdvisorAgent.target_variable MLAdvisorAgent.detected_use_case];
    match goal with |- context [lm E ?t ?c] => destruct (lm E t c) as [f2|e2] end;
    rewrite <- app_assoc; cbn [app];
    (eexists; eexists; eexists; split; [reflexivity|]);
    cbn [MLAdvisorAgent.ml_use_case MLAdvisorAgent.target_variable
         MLAdvisorAgent.detected_use_case];
    repeat split.
Qed.

Lemma take_take_le {A} (n m : nat) (l l' : list A) :
  (n <= m)%nat -> take m l = take m l' -> take n l = take n l'.
Proof.
  intros Hnm H.
  rewrite <- (Nat.min_l n m Hnm), <- !take_take. by rewrite H.
Qed.

(** X26. The ML advisor reads a digest of its inputs only: of the schema the
    summary and the first fifteen columns, of the quality result the summary,
    and nothing of the profile. Inputs that agree on these give the same
    calls and the same recommendation. *)
Theorem ml_advisor_reads_a_digest :
  forall (E : Extern) (s s' : SchemaAgent.SchemaResult)
         (p p' : ProfileAgent.ProfileResult)
         (q q' : QualityAgent.QualityResult) (tr : list Call),
    take 15 (SchemaAgent.columns s) = take 15 (SchemaAgent.columns s') ->
    SchemaAgent.summary s = SchemaAgent.summary s' ->
    QualityAgent.summary q = QualityAgent.summary q' ->
    MLAdvisorAgent.analyze E s p q tr = MLAdvisorAgent.analyze E s' p' q' tr.
Proof.
  intros E s s' p p' q q' tr Hcols Hsum Hq.
  assert (H10 : take 10 (SchemaAgent.columns s) = take 10 (SchemaAgent.columns s'))
    by (apply (take_take_le 10 15); [lia | exact Hcols]).
  assert (Hd : MLAdvisorAgent.detector_call E s p q = MLAdvisorAgent.detector_call E s' p' q').
  { unfold MLAdvisorAgent.detector_call, MLAdvisorAgent._create_dataset_overview,
      MLAdvisorAgent._extract_key_columns, MLAdvisorAgent._summarize_quality_issues.
    by rewrite Hsum, H10, Hq. }
  assert (Hp : forall t u, MLAdvisorAgent.planner_call E s p t u
                           = MLAdvisorAgent.planner_call E s' p' t u).
  { intros t u. unfold MLAdvisorAgent.planner_call, MLAdvisorAgent._create_column_summary.
    by rewrite Hcols. }
  unfold MLAdvisorAgent.analyze, LM.bind, LM.ret, generate.
  rewrite Hd. destruct (lm E tr _); rewrite Hp; reflexivity.
Qed.

(** X26 on a schema of sixteen columns and the same schema cut to fifteen,
    with different profiles and issue lists. *)
Lemma ml_advisor_reads_a_digest_witness :
  let col := {| SchemaAgent.column_name := "c"; SchemaAgent.pandas_dtype := "int64";
                SchemaAgent.null_count := 0; SchemaAgent.null_percentage := Fin 0;
                SchemaAgent.unique_count := 3; SchemaAgent.sample_values := "1, 2, 3";
                SchemaAgent.business_type := "Count"; SchemaAgent.confidence := "high";
                SchemaAgent.reasoning := "r"; SchemaAgent.recommendation := "Keep as-is" |} in
  let s := {| SchemaAgent.columns := replicate 16 col;
              SchemaAgent.summary := SchemaAgent.summary Examples.some_schema |} in
  let p' := {| ProfileAgent.numeric_analysis := [];
               ProfileAgent.categorical_analysis := [] |} in
  let q' := {| QualityAgent.issues_found := [];
               QualityAgent.summary := QualityAgent.summary Examples.some_quality |} in
  let E := Examples.extern_with Examples.echo_lm in
  length (SchemaAgent.columns (truncate_columns 15 s)) = 15%nat
  /\ MLAdvisorAgent.analyze E s Examples.some_profile Examples.some_quality []
     = MLAdvisorAgent.analyze E (truncate_columns 15 s) p' q' [].
Proof.
  intros col s p' q' E. split; [reflexivity|].
  apply (ml_advisor_reads_a_digest E s (truncate_columns 15 s)
           Examples.some_profile p' Examples.some_quality q' []); reflexivity.
Defined.

Lemma join_map_ext {A} (sep : string) (f g : A -> string) (l : list A) :
  Forall (fun x => f x = g x) l -> join sep (map f l) = join sep (map g l).
Proof.
  intros H. f_equal. induction H as [|x l Hx _ IH]; [reflexivity|].
  cbn [map]. by rewrite Hx, IH.
Qed.

(** X27. The column summary of the ML advisor never marks a column as a
    unique identifier: the mark is for a column with at least twenty distinct
    values, as many as the summary has columns, and the summary has at most
    fifteen. Every line is the plain line of its column. *)
Theorem column_summary_never_marks_an_identifier :
  forall (E : Extern) (schema_results : SchemaAgent.SchemaResult)
         (profile_results : ProfileAgent.ProfileResult),
    MLAdvisorAgent._create_column_summary E schema_results profile_results
    = join MLAdvisorAgent.nl
        (map (column_line E) (take 15 (SchemaAgent.columns schema_results))).
Proof.
  intros E s p. unfold MLAdvisorAgent._create_column_summary.
  apply join_map_ext, Forall_forall. intros col _.
  unfold column_line.
  destruct (SchemaAgent.unique_count col <? 20)%nat eqn:Hlt; [reflexivity|].
  apply Nat.ltb_ge in Hlt.
  assert (Hne : (SchemaAgent.unique_count col =? length (take 15 (SchemaAgent.columns s)))%nat
                = false).
  { apply Nat.eqb_neq.
    rewrite length_take. lia. }
  rewrite Hne. reflexivity.
Qed.

(** ** The calls of a whole run *)

Lemma ml_advisor_two_calls E s p q tr :
  exists rec c1 c2,
    MLAdvisorAgent.analyze E s p q tr = (Ok rec, tr ++ [c1; c2]).
Proof.
  unfold MLAdvisorAgent.analyze, LM.bind, LM.ret, generate.
  destruct (lm E tr (MLAdvisorAgent.detector_call E s p q)) as [f1|e1];
    cbn [MLAdvisorAgent.target_variable MLAdvisorAgent.detected_use_case];
    match goal with |- context [lm E ?t ?c] => destruct (lm E t c) as [f2|e2] end;
    rewrite <- app_assoc; cbn [app]; eauto.
Qed.

Lemma deployment_agent_one_call E s ml tr :
  exists d c, DeploymentAgent.analyze E (Some s) ml tr = (Ok d, tr ++ [c]).
Proof.
  unfold DeploymentAgent.analyze, LM.bind, LM.ret, generate.
  match goal with |- context [lm E tr ?c] => destruct (lm E tr c) end; eauto.
Qed.

Lemma business_communication_agent_one_call E ml d tr :
  exists b c, BusinessCommunicationAgent.analyze E ml d tr = (Ok b, tr ++ [c]).
Proof.
  unfold BusinessCommunicationAgent.analyze, LM.bind, LM.ret, generate.
  match goal with |- context [lm E tr ?c] => destruct (lm E tr c) end; eauto.
Qed.

(** X28. With the agents of the repository, a run on a dataset with a row,
    on which the quality agent returns, completes, whatever the collaborator
    answers, and makes a number of calls fixed by the data: one for each
    column by the schema agent, one for each column of numbers and each
    object column by the profile agent, one for each quality issue found,
    two by the ML advisor, one for the deployment and one for the business
    communication. *)
Theorem pipeline_call_budget :
  forall (E : Extern) (df : DataFrame) (tr : list Call),
    (0 < len df)%nat ->
    quality_agent_returns df = true ->
    exists results q calls,
      SupervisorAgent.analyze_dataset (SupervisorAgent.__init__ E) df tr
      = (results, tr ++ calls)
      /\ SupervisorAgent.status results = "completed"
      /\ SupervisorAgent.quality_analysis results = Some q
      /\ length calls
         = (length (df_names df) + length (numeric_columns df) + length (object_columns df)
            + length (QualityAgent.issues_found q) + 4)%nat.
Proof.
  intros E df tr Hlen Hret.
  destruct (schema_analyze_spec E df tr Hlen) as (s & cs & Hs & _ & Hcs & _).
  apply (f_equal (@length _)) in Hcs. rewrite !length_map in Hcs.
  destruct (profile_analyze_spec E df (tr ++ cs))
    as (p & cp & Hp & _ & _ & _ & _ & _ & Hcp).
  apply (f_equal (@length _)) in Hcp.
  rewrite !length_map, length_app, !length_map in Hcp.
  destruct (proj2 (quality_agent_returns_iff E df ((tr ++ cs) ++ cp)) Hret) as [q Hq0].
  assert (Hq1 : QualityAgent.analyze E df ((tr ++ cs) ++ cp)
                = (Ok q, snd (QualityAgent.analyze E df ((tr ++ cs) ++ cp)))).
  { rewrite <- Hq0. apply surjective_pairing. }
  destruct (quality_analyze_calls E df ((tr ++ cs) ++ cp) q _ Hq1)
    as (cq & n1 & n2 & n3 & n4 & Htr & Hcq & _).
  rewrite Htr in Hq1. clear Htr. rename Hq1 into Hq.
  apply Forall2_length in Hcq.
  destruct (ml_advisor_two_calls E s p q (((tr ++ cs) ++ cp) ++ cq)) as (ml & c1 & c2 & Hml).
  destruct (deployment_agent_one_call E s ml ((((tr ++ cs) ++ cp) ++ cq) ++ [c1; c2]))
    as (d & c3 & Hd).
  destruct (business_communication_agent_one_call E ml d
              (((((tr ++ cs) ++ cp) ++ cq) ++ [c1; c2]) ++ [c3])) as (b & c4 & Hb).
  exists (SupervisorAgent.update_status
            (SupervisorAgent.append_completed "business_communication_agent"
               (SupervisorAgent.set_business_communication b
                  (SupervisorAgent.append_completed "deployment_agent"
                     (SupervisorAgent.set_deployment_strategy d
                        (SupervisorAgent.append_completed "ml_advisor_agent"
                           (SupervisorAgent.set_ml_recommendations ml
                              (SupervisorAgent.append_completed "quality_agent"
                                 (SupervisorAgent.set_quality_analysis q
                                    (SupervisorAgent.append_completed "profile_agent"
                                       (SupervisorAgent.set_profile_analysis p
                                          (SupervisorAgent.append_completed "schema_agent"
                                             (SupervisorAgent.set_schema_analysis s
                                                SupervisorAgent.initial_results))))))))))))),
    q, (cs ++ cp ++ cq ++ [c1; c2; c3; c4]).
  split; [|split; [reflexivity | split; [reflexivity|]]].
  - unfold SupervisorAgent.analyze_dataset.
    rewrite bind_eq. unfold SupervisorAgent.step_schema.
    rewrite (run_stage_ok _ _ _ _ _ _ s) by (simpl_results; by rewrite Hs).
    simpl_results. rewrite Hs. cbn [fst snd].
    rewrite bind_eq. unfold SupervisorAgent.step_profile.
    rewrite (run_stage_ok _ _ _ _ _ _ p) by (simpl_results; by rewrite Hp).
    simpl_results. rewrite Hp. cbn [fst snd].
    rewrite bind_eq. unfold SupervisorAgent.step_quality.
    rewrite (run_stage_ok _ _ _ _ _ _ q) by (simpl_results; by rewrite Hq).
    simpl_results. rewrite Hq. cbn [fst snd].
    rewrite bind_eq. unfold SupervisorAgent.step_ml_advisor. simpl_results.
    rewrite (run_stage_ok _ _ _ _ _ _ ml) by (by rewrite Hml).
    rewrite Hml. cbn [fst snd].
    rewrite bind_eq. unfold SupervisorAgent.step_deployment. simpl_results.
    rewrite (run_stage_ok _ _ _ _ _ _ d) by (by rewrite Hd).
    rewrite Hd. cbn [fst snd].
    rewrite bind_eq. unfold SupervisorAgent.step_business_communication. simpl_results.
    rewrite (run_stage_ok _ _ _ _ _ _ b) by (by rewrite Hb).
    rewrite Hb. cbn [fst snd]. unfold LM.ret. f_equal.
    rewrite <- !app_assoc. reflexivity.
  - rewrite !length_app. cbn [length]. rewrite Hcs, Hcp, <- Hcq. lia.
Qed.

(** X28 on the small dataset, with a collaborator that answers. *)
Lemma pipeline_call_budget_witness :
  (0 < len Examples.small)%nat
  /\ quality_agent_returns Examples.small = true
  /\ exists results q calls,
      SupervisorAgent.analyze_dataset
        (SupervisorAgent.__init__ (Examples.extern_with Examples.echo_lm)) Examples.small []
      = (results, [] ++ calls)
      /\ SupervisorAgent.status results = "completed"
      /\ SupervisorAgent.quality_analysis results = Some q
      /\ length calls
         = (length (df_names Examples.small) + length (numeric_columns Examples.small)
            + length (object_columns Examples.small)
            + length (QualityAgent.issues_found q) + 4)%nat.
Proof.
  assert (Hlen : (0 < len Examples.small)%nat) by (vm_compute; lia).
  assert (Hret : quality_agent_returns Examples.small = true) by reflexivity.
  split; [exact Hlen|]. split; [exact Hret|].
  exact (pipeline_call_budget (Examples.extern_with Examples.echo_lm) Examples.small []
           Hlen Hret).
Defined.

(** ** A run on which the quality agent raises *)

Lemma for_each_try_raise_from {A B} (f : A -> M (Result B)) (P : string -> Prop) (l : list A) :
  (forall a tr msg, fst (f a tr) = Raise msg -> P msg) ->
  forall tr msg, fst (for_each_try f l tr) = Raise msg -> P msg.
Proof.
  intros Hf. induction l as [|a l IH]; intros tr msg; cbn [for_each_try].
  - discriminate.
  - rewrite bind_eq. destruct (fst (f a tr)) as [b|m] eqn:Hb.
    + rewrite bind_eq.
      destruct (fst (for_each_try f l (snd (f a tr)))) as [bs|m] eqn:Hbs; [discriminate|].
      cbn. intros [= <-]. eapply IH, Hbs.
    + cbn. intros [= <-]. eapply Hf, Hb.
Qed.

Lemma quality_agent_raises_attribute_error E df tr msg :
  fst (QualityAgent.analyze E df tr) = Raise msg -> msg = str_accessor_error E.
Proof.
  destruct (quality_first_checks E df tr) as (m & o & tr3 & _ & _ & ->).
  rewrite bind_eq.
  destruct (fst (QualityAgent._check_categorical_consistency E df tr3)) as [c|m'] eqn:Hc;
    [discriminate|].
  cbn. intros [= <-]. revert Hc.
  unfold QualityAgent._check_categorical_consistency. rewrite bind_eq.
  destruct (fst (for_each_try _ _ tr3)) as [iss0|m''] eqn:Hf; [discriminate|].
  cbn. intros [= <-].
  eapply (for_each_try_raise_from _ (fun m0 => m0 = str_accessor_error E)); [|exact Hf].
  intros a t m0. unfold QualityAgent._check_consistency_column.
  destruct (_ && _); [|discriminate].
  destruct (str_accessor_refused _); [by intros [= <-]|].
  destruct (_ <? _)%nat; [|discriminate].
  rewrite bind_eq. unfold generate. cbn [fst snd].
  match goal with |- context [QualityAgent.recommendation_or ?r ?fb] =>
    destruct (recommendation_or_cases r fb) as (ac & co & im & ->) end.
  discriminate.
Qed.

(** X30. On a dataset with a row in which an object column is refused the
    [.str] accessor, as a column of [True], [False] and a missing cell is,
    the quality agent raises whatever the collaborator answers: the run
    ends as a partial failure with the one error of that stage, after the
    schema and the profile agents, and nothing runs downstream. *)
Theorem quality_agent_failure_is_recorded :
  forall (E : Extern) (df : DataFrame) (tr : list Call),
    (0 < len df)%nat -> quality_agent_returns df = false ->
    let r := fst (SupervisorAgent.analyze_dataset (SupervisorAgent.__init__ E) df tr) in
    SupervisorAgent.status r = "partial_failure"
    /\ SupervisorAgent.agents_completed r = ["schema_agent"; "profile_agent"]
    /\ SupervisorAgent.errors r = ["Quality Agent failed: " +:+ str_accessor_error E]
    /\ SupervisorAgent.quality_analysis r = None
    /\ SupervisorAgent.ml_recommendations r = None
    /\ SupervisorAgent.deployment_strategy r = None
    /\ SupervisorAgent.business_communication r = None.
Proof.
  intros E df tr Hlen Hret r. subst r.
  unfold SupervisorAgent.analyze_dataset.
  destruct (schema_agent_returns E df tr Hlen) as (s & Hs).
  rewrite bind_eq. unfold SupervisorAgent.step_schema.
  rewrite (run_stage_ok _ _ _ _ _ _ s) by exact Hs. cbn [fst snd].
  set (tr1 := snd (SupervisorAgent.schema_agent (SupervisorAgent.__init__ E) df tr)).
  destruct (profile_agent_ok E df tr1) as (p & Hp).
  rewrite bind_eq. unfold SupervisorAgent.step_profile.
  rewrite (run_stage_ok _ _ _ _ _ _ p) by exact Hp. cbn [fst snd].
  set (tr2 := snd (SupervisorAgent.profile_agent (SupervisorAgent.__init__ E) df tr1)).
  assert (Hq : fst (QualityAgent.analyze E df tr2) = Raise (str_accessor_error E)).
  { destruct (fst (QualityAgent.analyze E df tr2)) as [q|msg] eqn:Hq.
    - pose proof (proj1 (quality_agent_returns_iff E df tr2) (ex_intro _ q Hq)). congruence.
    - by rewrite (quality_agent_raises_attribute_error E df tr2 msg Hq). }
  rewrite bind_eq. unfold SupervisorAgent.step_quality.
  rewrite (run_stage_raise _ _ _ _ _ _ _ Hq). cbn.
  repeat split.
Qed.

(** X30 on a column of truth values with a missing cell. *)
Lemma quality_agent_failure_is_recorded_witness :
  let E := Examples.extern_with Examples.echo_lm in
  let r := fst (SupervisorAgent.analyze_dataset (SupervisorAgent.__init__ E) Examples.flags []) in
  (0 < len Examples.flags)%nat
  /\ quality_agent_returns Examples.flags = false
  /\ SupervisorAgent.status r = "partial_failure"
  /\ SupervisorAgent.errors r
     = ["Quality Agent failed: Can only use .str accessor with string values!"].
Proof.
  intros E r.
  assert (Hlen : (0 < len Examples.flags)%nat) by (vm_compute; lia).
  assert (Hret : quality_agent_returns Examples.flags = false) by reflexivity.
  split; [exact Hlen|]. split; [exact Hret|].
  destruct (quality_agent_failure_is_recorded E Examples.flags [] Hlen Hret)
    as (H1 & _ & H3 & _).
  split; [exact H1 | exact H3].
Defined.

(** ** The configuration of the collaborator (dspy_init.py) *)

Lemma calls_configured (n : nat) (st : DspyInit.State) :
  DspyInit._configured st = true ->
  DspyInit.calls n st = (replicate n (DspyInit.settings_lm st), st).
Proof.
  intros H. induction n as [|n IH]; [reflexivity|].
  cbn [DspyInit.calls]. unfold DspyInit.get_configured_lm. rewrite H, IH. reflexivity.
Qed.

(** X29. However often [get_configured_lm] is called, the library is
    configured once, at the first call, with the model openai/gpt-4.1; every
    call returns that model, and the flag stays set. *)
Theorem get_configured_lm_configures_once :
  forall n : nat,
    (0 < n)%nat ->
    let out := DspyInit.calls n DspyInit.initial in
    fst out = replicate n (Some "openai/gpt-4.1")
    /\ DspyInit.configure_calls (snd out) = ["openai/gpt-4.1"]
    /\ DspyInit._configured (snd out) = true.
Proof.
  intros [|n] Hn out; [lia|]. subst out. cbn [DspyInit.calls].
  unfold DspyInit.get_configured_lm at 1 2 3. cbn [DspyInit._configured DspyInit.initial].
  rewrite !calls_configured by reflexivity.
  cbn [fst snd DspyInit.settings_lm DspyInit.configure_calls DspyInit._configured app replicate].
  auto.
Qed.

(** X29 for three calls. *)
Lemma get_configured_lm_configures_once_witness :
  (0 < 3)%nat
  /\ fst (DspyInit.calls 3 DspyInit.initial) = replicate 3 (Some "openai/gpt-4.1")
  /\ DspyInit.configure_calls (snd (DspyInit.calls 3 DspyInit.initial)) = ["openai/gpt-4.1"]
  /\ DspyInit._configured (snd (DspyInit.calls 3 DspyInit.initial)) = true.
Proof.
  assert (H : (0 < 3)%nat) by lia.
  split; [exact H|].
  exact (get_configured_lm_configures_once 3 H).
Defined.
